(** * rustyloot_sniffer: the event decoding and inventory aggregation core

    A shallow embedding of [src/rustyloot_sniffer.py].  The functions
    [safe_get_perf], [iter_ws_frames], [parse_socketio],
    [try_extract_inventory], [merge_inventory] and the body of the polling
    loop of [main] are translated line by line; Python values are the
    values [json.loads] produces, exceptions are explicit results, and the
    mutable aggregate and the [deque] of seen signatures are threaded as
    state. *)

From Stdlib Require Import ZArith List String Ascii Bool Lia.
From Stdlib Require Import Permutation Sorted.
From Stdlib Require DecimalString.
From Stdlib Require Import Floats.PrimFloat Floats.SpecFloat Floats.FloatOps.
From Stdlib Require Floats.FloatAxioms.
Import ListNotations.
Open Scope string_scope.
Open Scope list_scope.
Open Scope Z_scope.

(** ** Python values and exceptions *)

(** The exception classes the modelled code can raise.  All of them are
    subclasses of [Exception], so an [except Exception] clause catches each
    one.  [UnicodeEncodeError] and [OSError] are what writing to the
    console or to a file raises. *)
Inductive exn : Type :=
| AttributeError
| KeyError
| TypeError
| ValueError
| OverflowError
| UnicodeEncodeError
| OSError.

(** The result of evaluating a Python expression. *)
Inductive result (A : Type) : Type :=
| Ok (a : A)
| Raise (e : exn).
Arguments Ok {A} a.
Arguments Raise {A} e.

Definition bind {A B : Type} (r : result A) (k : A -> result B) : result B :=
  match r with
  | Ok a => k a
  | Raise e => Raise e
  end.

Notation "x <- r ;; k" := (bind r (fun x => k))
  (at level 61, r at next level, right associativity).

(** [try: r except Exception: d] *)
Definition try_except {A : Type} (r : result A) (d : A) : A :=
  match r with
  | Ok a => a
  | Raise _ => d
  end.

(** The values [json.loads] builds: [None], [bool], [int], [float], [str],
    [list] and [dict] with [str] keys.  A [dict] is kept as an association
    list in insertion order; Python dicts hold each key once ([wf_json]
    below).  A [str] is the byte string of its UTF-8 encoding. *)
Unset Elimination Schemes.
Inductive json : Type :=
| JNull
| JBool (b : bool)
| JInt (z : Z)
| JFloat (f : float)
| JStr (s : string)
| JList (l : list json)
| JDict (d : list (string * json)).
Set Elimination Schemes.

(** Structural induction that reaches under lists and dicts. *)
Section JsonInd.
Variable P : json -> Prop.
Hypothesis Hnull : P JNull.
Hypothesis Hbool : forall b, P (JBool b).
Hypothesis Hint : forall z, P (JInt z).
Hypothesis Hfloat : forall f, P (JFloat f).
Hypothesis Hstr : forall s, P (JStr s).
Hypothesis Hlist : forall l, Forall P l -> P (JList l).
Hypothesis Hdict : forall d, Forall (fun kv => P (snd kv)) d -> P (JDict d).

Fixpoint json_ind (v : json) : P v :=
  match v with
  | JNull => Hnull
  | JBool b => Hbool b
  | JInt z => Hint z
  | JFloat f => Hfloat f
  | JStr s => Hstr s
  | JList l =>
      Hlist l
        ((fix go (l : list json) : Forall P l :=
            match l with
            | [] => Forall_nil P
            | x :: r => Forall_cons x (json_ind x) (go r)
            end) l)
  | JDict d =>
      Hdict d
        ((fix go (d : list (string * json)) :
            Forall (fun kv => P (snd kv)) d :=
            match d with
            | [] => Forall_nil _
            | kv :: r =>
                Forall_cons (P := fun kv => P (snd kv)) kv
                  (json_ind (snd kv)) (go r)
            end) d)
  end.
End JsonInd.

(** [isinstance(v, dict)], [isinstance(v, list)], [isinstance(v, str)] *)
Definition is_dict (v : json) : bool :=
  match v with JDict _ => true | _ => false end.
Definition is_list (v : json) : bool :=
  match v with JList _ => true | _ => false end.
Definition is_str (v : json) : bool :=
  match v with JStr _ => true | _ => false end.

(** Truth value testing: [None], [False], zero of either numeric type and
    the empty string, list and dict are false. *)
Definition truthy (v : json) : bool :=
  match v with
  | JNull => false
  | JBool b => b
  | JInt z => negb (z =? 0)
  | JFloat f => negb (PrimFloat.eqb f 0%float)
  | JStr s => negb (s =? "")%string
  | JList l => match l with [] => false | _ => true end
  | JDict d => match d with [] => false | _ => true end
  end.

(** Lookup of a [str] key in a dict. *)
Fixpoint lookup (k : string) (d : list (string * json)) : option json :=
  match d with
  | [] => None
  | (k', v) :: r => if (k =? k')%string then Some v else lookup k r
  end.

(** [d.get(k)] on a dict: the value, or [None]. *)
Definition dict_get (d : list (string * json)) (k : string) : json :=
  match lookup k d with
  | Some v => v
  | None => JNull
  end.

(** [v.get(k)]: only dicts have the method. *)
Definition py_get (v : json) (k : string) : result json :=
  match v with
  | JDict d => Ok (dict_get d k)
  | _ => Raise AttributeError
  end.

(** [v.get(k, default)] *)
Definition py_get_default (v : json) (k : string) (dflt : json) : result json :=
  match v with
  | JDict d => Ok (match lookup k d with Some x => x | None => dflt end)
  | _ => Raise AttributeError
  end.

(** [v[k]] with a [str] subscript [k]. *)
Definition py_getitem (v : json) (k : string) : result json :=
  match v with
  | JDict d =>
      match lookup k d with
      | Some x => Ok x
      | None => Raise KeyError
      end
  | _ => Raise TypeError
  end.

(** ** The Inventory Candidate Locator *)

(** The list [cands] that [try_extract_inventory] builds for [first]. *)
Definition candidates (first : json) : list json :=
  let cands : list json := [] in
  let cands :=
    match first with
    | JDict d =>
        let cands :=
          match dict_get d "data" with
          | JDict data =>
              if is_list (dict_get data "inventory")
              then cands ++ [dict_get data "inventory"]
              else cands
          | _ => cands
          end in
        if is_list (dict_get d "inventory")
        then cands ++ [dict_get d "inventory"]
        else cands
    | _ => cands
    end in
  if is_list first then cands ++ [first] else cands.

(** [for c in cands: if isinstance(c, list): return c] followed by
    [return []]. *)
Fixpoint first_list (cands : list json) : list json :=
  match cands with
  | [] => []
  | JList l :: _ => l
  | _ :: r => first_list r
  end.

Definition try_extract_inventory (args : list json) : list json :=
  match args with
  | [] => []
  | first :: _ => first_list (candidates first)
  end.

(** The same construction with every candidate labelled by the statement
    that appended it. *)
Inductive branch : Type :=
| DataInventory   (* cands.append(first["data"]["inventory"]) *)
| TopInventory    (* cands.append(first["inventory"]) *)
| FirstItself.    (* cands.append(first) *)

Definition labelled_candidates (first : json) : list (branch * json) :=
  let cands : list (branch * json) := [] in
  let cands :=
    match first with
    | JDict d =>
        let cands :=
          match dict_get d "data" with
          | JDict data =>
              if is_list (dict_get data "inventory")
              then cands ++ [(DataInventory, dict_get data "inventory")]
              else cands
          | _ => cands
          end in
        if is_list (dict_get d "inventory")
        then cands ++ [(TopInventory, dict_get d "inventory")]
        else cands
    | _ => cands
    end in
  if is_list first then cands ++ [(FirstItself, first)] else cands.

Fixpoint first_list_branch (cands : list (branch * json)) : option branch :=
  match cands with
  | [] => None
  | (b, JList _) :: _ => Some b
  | _ :: r => first_list_branch r
  end.

(** The statement whose candidate [try_extract_inventory] returns, if any. *)
Definition returned_through (args : list json) : option branch :=
  match args with
  | [] => None
  | first :: _ => first_list_branch (labelled_candidates first)
  end.

(** ** Numbers *)

(** The [float] nearest to an integer, ties to even; [infinity] when the
    integer is out of range. *)
Definition float_of_Z (z : Z) : float :=
  SF2Prim (binary_normalize prec emax z 0 false).

(** The integer part of a finite [float], rounding toward zero. *)
Definition float_trunc (f : float) : result Z :=
  match Prim2SF f with
  | S754_nan => Raise ValueError
  | S754_infinity _ => Raise OverflowError
  | S754_zero _ => Ok 0
  | S754_finite s m e =>
      let a := Z.shiftl (Zpos m) e in
      Ok (if s then - a else a)
  end.

(** Python compares an [int] with a [float] by value, without rounding. *)
Definition Z_eq_float (z : Z) (f : float) : bool :=
  match Prim2SF f with
  | S754_nan | S754_infinity _ => false
  | S754_zero _ => z =? 0
  | S754_finite s m e =>
      let a := if s then Zneg m else Zpos m in
      if 0 <=? e then z =? a * 2 ^ e else z * 2 ^ (- e) =? a
  end.

(** [==] on two floats, as the containers apply it: a value is equal to
    itself ([PyObject_RichCompareBool] tests identity first), and the only
    NaN a decoded document holds is the one object the [json] module keeps
    for the literal [NaN]. *)
Definition float_eq (f g : float) : bool :=
  PrimFloat.eqb f g || (is_nan f && is_nan g).

Definition Z_of_bool (b : bool) : Z := if b then 1 else 0.

(** [a == b] for the values above, as [in], [dict] lookup and [tuple]
    comparison use it. [bool] is a subclass of [int]. *)
Fixpoint py_eq (a b : json) {struct a} : bool :=
  match a, b with
  | JNull, JNull => true
  | JBool x, JBool y => Z_of_bool x =? Z_of_bool y
  | JBool x, JInt y => Z_of_bool x =? y
  | JBool x, JFloat g => Z_eq_float (Z_of_bool x) g
  | JInt x, JBool y => x =? Z_of_bool y
  | JInt x, JInt y => x =? y
  | JInt x, JFloat g => Z_eq_float x g
  | JFloat f, JBool y => Z_eq_float (Z_of_bool y) f
  | JFloat f, JInt y => Z_eq_float y f
  | JFloat f, JFloat g => float_eq f g
  | JStr s, JStr t => (s =? t)%string
  | JList l, JList m =>
      (fix go (l m : list json) {struct l} : bool :=
         match l, m with
         | [], [] => true
         | x :: l', y :: m' => py_eq x y && go l' m'
         | _, _ => false
         end) l m
  | JDict d, JDict e =>
      (List.length d =? List.length e)%nat
      && (fix go (d : list (string * json)) : bool :=
            match d with
            | [] => true
            | (k, v) :: d' =>
                match lookup k e with
                | Some w => py_eq v w
                | None => false
                end && go d'
            end) d
  | _, _ => false
  end.

(** ** The Inventory Aggregator *)

(** One entry of the aggregate: [{"amount": int, "total_price": float}]. *)
Record tally : Type := { amount : Z; total_price : float }.

(** The aggregate [agg]: a dict from item name to entry, in insertion
    order. *)
Definition aggregate : Type := list (json * tally).

(** Only immutable values can be dict keys. *)
Definition hashable (v : json) : bool :=
  match v with
  | JList _ | JDict _ => false
  | _ => true
  end.

(** [rec = agg.setdefault(name, {"amount": 0, "total_price": 0.0})]
    followed by [rec["amount"] += qty] and [rec["total_price"] += price],
    for a hashable [name]: the entry stored under a key equal to [name] is
    updated in place, or a fresh one is added at the end. *)
Fixpoint add_to_entry (name : json) (qty : Z) (price : float)
    (agg : aggregate) : aggregate :=
  match agg with
  | [] =>
      [(name, {| amount := 0 + qty; total_price := (0 + price)%float |})]
  | (k, r) :: rest =>
      if py_eq k name
      then (k, {| amount := amount r + qty;
                  total_price := (total_price r + price)%float |}) :: rest
      else (k, r) :: add_to_entry name qty price rest
  end.

(** [a or b] where evaluating either side may raise: [b] is evaluated only
    when [a] is false. *)
Definition or_else (a b : result json) : result json :=
  x <- a ;; if truthy x then Ok x else b.

(** How a call that mutates the aggregate ends, and the aggregate it leaves
    behind. *)
Inductive outcome : Type :=
| Returns (agg : aggregate)
| Raises (e : exn) (agg : aggregate).

Section Aggregator.
(** [float(s)] and [int(s)] for a [str] argument; [None] stands for
    [ValueError]. *)
Variable str_to_float : string -> option float.
Variable str_to_int : string -> option Z.

(** [float(x)] *)
Definition py_float (x : json) : result float :=
  match x with
  | JBool b => Ok (if b then 1%float else 0%float)
  | JInt z =>
      let f := float_of_Z z in
      if is_infinity f then Raise OverflowError else Ok f
  | JFloat f => Ok f
  | JStr s =>
      match str_to_float s with
      | Some f => Ok f
      | None => Raise ValueError
      end
  | JNull | JList _ | JDict _ => Raise TypeError
  end.

(** [int(x)] *)
Definition py_int (x : json) : result Z :=
  match x with
  | JBool b => Ok (Z_of_bool b)
  | JInt z => Ok z
  | JFloat f => float_trunc f
  | JStr s =>
      match str_to_int s with
      | Some z => Ok z
      | None => Raise ValueError
      end
  | JNull | JList _ | JDict _ => Raise TypeError
  end.

(** [it.get("name") or it.get("market_hash_name") or it.get("title")
    or "UNKNOWN"] *)
Definition item_name (it : json) : result json :=
  or_else (py_get it "name")
    (or_else (py_get it "market_hash_name")
       (or_else (py_get it "title") (Ok (JStr "UNKNOWN")))).

(** [it.get("price") or it.get("price_cents") or 0] *)
Definition item_cents (it : json) : result json :=
  or_else (py_get it "price")
    (or_else (py_get it "price_cents") (Ok (JInt 0))).

(** [it.get("amount") or it.get("quantity") or 1] *)
Definition item_quantity (it : json) : result json :=
  or_else (py_get it "amount")
    (or_else (py_get it "quantity") (Ok (JInt 1))).

(** [try: price = float(cents) / 100.0 except Exception: price = 0.0] *)
Definition item_price (cents : json) : float :=
  try_except (f <- py_float cents ;; Ok (f / 100)%float) 0%float.

(** The body of the loop of [merge_inventory] for one [it]. *)
Definition merge_item (agg : aggregate) (it : json) : result aggregate :=
  name <- item_name it ;;
  cents <- item_cents it ;;
  let price := item_price cents in
  q <- item_quantity it ;;
  qty <- py_int q ;;
  if hashable name
  then Ok (add_to_entry name qty price agg)
  else Raise TypeError.

Fixpoint merge_inventory (agg : aggregate) (items : list json) : outcome :=
  match items with
  | [] => Returns agg
  | it :: rest =>
      match merge_item agg it with
      | Ok agg' => merge_inventory agg' rest
      | Raise e => Raises e agg
      end
  end.
End Aggregator.

(** ** The Frame Extractor *)

(** [s[n:]] *)
Fixpoint string_drop (n : nat) (s : string) : string :=
  match n, s with
  | O, _ => s
  | S n', String _ r => string_drop n' r
  | S _, EmptyString => EmptyString
  end.

(** What a generator does when it is iterated: it yields values one at a
    time and then either finishes or raises. *)
Inductive gen (A : Type) : Type :=
| Stop
| Yield (a : A) (rest : gen A)
| Throw (e : exn).
Arguments Stop {A}.
Arguments Yield {A} a rest.
Arguments Throw {A} e.

Section Decoding.
(** [json.loads(s)] for a [str] argument: the decoded document, or the
    exception raised. *)
Variable json_loads : string -> result json.

(** [json.loads(x)] for any argument. *)
Definition py_json_loads (x : json) : result json :=
  match x with
  | JStr s => json_loads s
  | _ => Raise TypeError
  end.

(** [json.loads(entry["message"])["message"]] *)
Definition entry_message (e : json) : result json :=
  raw <- py_getitem e "message" ;;
  doc <- py_json_loads raw ;;
  py_getitem doc "message".

(** The loop of [safe_get_perf] over [raw], appending to [out]. *)
Fixpoint collect_messages (raw : list json) (out : list json) : list json :=
  match raw with
  | [] => out
  | e :: rest =>
      match entry_message e with
      | Ok msg => collect_messages rest (out ++ [msg])
      | Raise _ => collect_messages rest out
      end
  end.

(** [safe_get_perf(driver)], given what [driver.get_log("performance")]
    does. *)
Definition safe_get_perf (get_log : result (list json)) : result (list json) :=
  let out := [] in
  match get_log with
  | Raise _ => Ok out
  | Ok raw => Ok (collect_messages raw out)
  end.

(** [m["params"]["response"]["payloadData"]] *)
Definition payload_data (m : json) : result json :=
  p <- py_getitem m "params" ;;
  r <- py_getitem p "response" ;;
  py_getitem r "payloadData".

(** The loop of [iter_ws_frames] over the messages. *)
Fixpoint ws_frames (msgs : list json) : gen (string * json) :=
  match msgs with
  | [] => Stop
  | m :: rest =>
      match py_get_default m "method" (JStr "") with
      | Raise e => Throw e
      | Ok method =>
          if py_eq method (JStr "Network.webSocketFrameReceived") then
            match payload_data m with
            | Ok payload => Yield ("in", payload) (ws_frames rest)
            | Raise e => Throw e
            end
          else if py_eq method (JStr "Network.webSocketFrameSent") then
            match payload_data m with
            | Ok payload => Yield ("out", payload) (ws_frames rest)
            | Raise e => Throw e
            end
          else ws_frames rest
      end
  end.

Definition iter_ws_frames (get_log : result (list json)) : gen (string * json) :=
  match safe_get_perf get_log with
  | Ok msgs => ws_frames msgs
  | Raise e => Throw e
  end.

(** ** The Socket.IO Decoder *)

(** [parse_socketio(payload)]: the pair [(arr[0], arr[1:])] or [None]. *)
Definition parse_socketio (payload : json) : result (option (json * list json)) :=
  match payload with
  | JStr s =>
      if negb (prefix "42" s) then Ok None
      else
        match
          arr <- json_loads (string_drop 2 s) ;;
          match arr with
          | JList (x :: xs) => Ok (Some (x, xs))
          | _ => Ok None
          end
        with
        | Ok r => Ok r
        | Raise _ => Ok None
        end
  | _ => Ok None
  end.
End Decoding.

(** ** Signatures and the Dedup Filter *)

(** [int.__repr__] *)
Definition int_repr (z : Z) : string :=
  DecimalString.NilZero.string_of_int (Z.to_int z).

Definition hex_digit (n : N) : ascii :=
  if (n <? 10)%N then ascii_of_N (48 + n) else ascii_of_N (87 + n).

(** The replacement [json.encoder] makes for one character of a string
    when [ensure_ascii] is false: the quote, the backslash and the control
    characters are escaped, everything else is kept. *)
Definition escape_char (c : ascii) : string :=
  let n := N_of_ascii c in
  if (n =? 34)%N then String "\" (String c "")
  else if (n =? 92)%N then "\\"
  else if (n =? 8)%N then "\b"
  else if (n =? 12)%N then "\f"
  else if (n =? 10)%N then "\n"
  else if (n =? 13)%N then "\r"
  else if (n =? 9)%N then "\t"
  else if (n <? 32)%N then
    String "\" (String "u" (String "0" (String "0"
      (String (hex_digit (n / 16)) (String (hex_digit (n mod 16)) "")))))
  else String c "".

Fixpoint escape_string (s : string) : string :=
  match s with
  | EmptyString => EmptyString
  | String c r => (escape_char c ++ escape_string r)%string
  end.

Definition quote : string := String "034" "".

(** [encode_basestring(s)] *)
Definition encode_basestring (s : string) : string :=
  (quote ++ escape_string s ++ quote)%string.

(** Insertion of a rendered member into members sorted by key. *)
Fixpoint insert_member (x : string * string) (l : list (string * string))
    : list (string * string) :=
  match l with
  | [] => [x]
  | y :: r =>
      if (fst x <=? fst y)%string then x :: y :: r
      else y :: insert_member x r
  end.

(** [sorted(...)] on the members of a dict, which differ in their keys. *)
Definition sort_members (l : list (string * string)) : list (string * string) :=
  fold_right insert_member [] l.

(** The tuples [(direction, name, serialized arguments)] kept in [seen]. *)
Definition signature : Type := string * json * string.

Section Signature.
(** [float.__repr__] *)
Variable float_repr : float -> string.

(** How [json.encoder] writes a float. *)
Definition floatstr (f : float) : string :=
  if is_nan f then "NaN"
  else if is_infinity f then
    (if PrimFloat.ltb f 0 then "-Infinity" else "Infinity")
  else float_repr f.

(** [json.dumps(v, ensure_ascii=False, sort_keys=True)]: the separators
    are [", "] and [": "], and the members of a dict are written in the
    order of their keys. *)
Fixpoint json_dumps (v : json) : string :=
  match v with
  | JNull => "null"
  | JBool true => "true"
  | JBool false => "false"
  | JInt z => int_repr z
  | JFloat f => floatstr f
  | JStr s => encode_basestring s
  | JList l => ("[" ++ concat ", " (map json_dumps l) ++ "]")%string
  | JDict d =>
      let members := map (fun kv => (fst kv, json_dumps (snd kv))) d in
      ("{" ++ concat ", "
                (map (fun m => encode_basestring (fst m) ++ ": " ++ snd m)
                   (sort_members members))
           ++ "}")%string
  end.

(** [sig = (direction, name, json.dumps(evt_args, ...))] *)
Definition make_signature (direction : string) (name : json)
    (evt_args : list json) : signature :=
  (direction, name, json_dumps (JList evt_args)).
End Signature.

(** [==] on two signature tuples. *)
Definition sig_eq (a b : signature) : bool :=
  match a, b with
  | (d1, n1, s1), (d2, n2, s2) =>
      (d1 =? d2)%string && py_eq n1 n2 && (s1 =? s2)%string
  end.

(** [sig in seen] *)
Definition contains (seen : list signature) (sig : signature) : bool :=
  existsb (fun x => sig_eq x sig) seen.

(** [d.append(x)] on a [deque] of bounded length [maxlen], written oldest
    first: the new element goes to the right end, and the leftmost one is
    dropped when the bound is exceeded. *)
Definition deque_append {A : Type} (maxlen : nat) (d : list A) (x : A) : list A :=
  let d' := d ++ [x] in
  if (maxlen <? List.length d')%nat then tl d' else d'.

(** [deque(maxlen=2000)] *)
Definition seen_maxlen : nat := 2000.

(** ** The console and the files *)

Definition INV_FILE : string := "inventory.json".
Definition OUT_FILE : string := "rustyloot_market.json".

(** What [save_json] is given to dump: [inv], or
    [{"inventory": inv, "market_sample": market_sample}]. *)
Inductive dumped : Type :=
| InvData (inv : aggregate)
| OutData (inv : aggregate) (market_sample : list json).

(** How the body of [save_json] ends: [open] and [json.dump] return; or
    [open] raises and the file is left alone; or [open] has emptied the
    file and [json.dump] raises after writing a part of the text. *)
Inductive written : Type :=
| Written
| NotOpened (e : exn)
| Broken (e : exn).

(** The exception [save_json] leaves with, if any. *)
Definition raised (o : written) : option exn :=
  match o with
  | Written => None
  | NotOpened e => Some e
  | Broken e => Some e
  end.

(** ** The polling loop of [main] *)

(** The variables the loop mutates: the [deque] [seen] and the dict
    [inv]. *)
Record state : Type := { seen : list signature; inv : aggregate }.

(** What the loop body did with one frame. *)
Inductive verdict : Type :=
| NotAnEvent   (* [if not evt: continue] *)
| Duplicate    (* [if sig in seen: continue] *)
| Processed.   (* the signature was appended and the event handled *)

(** How an iteration of the loop body ends. *)
Inductive step : Type :=
| Next (v : verdict) (st : state)
| Abort (e : exn) (st : state).

Section Loop.
Variable json_loads : string -> result json.
Variable float_repr : float -> string.
Variable str_to_float : string -> option float.
Variable str_to_int : string -> option Z.
(** What the environment does with the output of the loop body.
    [echo direction name evt_args] is the statement
    [print(f"[{stamp}] {direction} EVENT '{name}': {str(evt_args)[:500]}")]:
    [None] when it returns, the exception when the console refuses the
    text.  [write_json path data] is what [open(path, "w")] and
    [json.dump(data, f, ...)] do in [save_json(path, data)]. *)
Variable echo : string -> json -> list json -> option exn.
Variable write_json : string -> dumped -> written.

(** The part of the loop body that follows [name, evt_args = evt], as far
    as [seen] and [inv] go: [seen.append(sig)], the echo of the event on
    the console, and
    [if items: merge_inventory(inv, items); save_json(INV_FILE, inv)].
    The call of [logging.info] that ends it does not raise. *)
Definition handle_event (st : state) (direction : string) (name : json)
    (evt_args : list json) : step :=
  let sig := make_signature float_repr direction name evt_args in
  if contains (seen st) sig then Next Duplicate st
  else
    let seen' := deque_append seen_maxlen (seen st) sig in
    match echo direction name evt_args with
    | Some e => Abort e {| seen := seen'; inv := inv st |}
    | None =>
        let items := try_extract_inventory evt_args in
        match items with
        | [] => Next Processed {| seen := seen'; inv := inv st |}
        | _ :: _ =>
            match merge_inventory str_to_float str_to_int (inv st) items with
            | Returns agg =>
                match raised (write_json INV_FILE (InvData agg)) with
                | None => Next Processed {| seen := seen'; inv := agg |}
                | Some e => Abort e {| seen := seen'; inv := agg |}
                end
            | Raises e agg => Abort e {| seen := seen'; inv := agg |}
            end
        end
    end.

(** The loop body for one [(direction, payload)]. *)
Definition handle_frame (st : state) (frame : string * json) : step :=
  let (direction, payload) := frame in
  match parse_socketio json_loads payload with
  | Raise e => Abort e st
  | Ok None => Next NotAnEvent st
  | Ok (Some (name, evt_args)) => handle_event st direction name evt_args
  end.

(** [for direction, payload in iter_ws_frames(driver): ...]: the state
    after the loop and the exception that ended it, if any. *)
Fixpoint run_frames (st : state) (frames : gen (string * json))
    : state * option exn :=
  match frames with
  | Stop => (st, None)
  | Throw e => (st, Some e)
  | Yield frame rest =>
      match handle_frame st frame with
      | Next _ st' => run_frames st' rest
      | Abort e st' => (st', Some e)
      end
  end.

(** One tick of the [while] loop. *)
Definition poll (st : state) (get_log : result (list json)) : state * option exn :=
  run_frames st (iter_ws_frames json_loads get_log).
End Loop.

(** ** Reference implementations of the library functions

    The functions the program takes from the Python library, written out
    for ASCII text: [int] and [float] on a [str], [json.loads] and
    [float.__repr__].  The theorems below hold for any implementation; the
    worked examples run on these. *)

Module PyRef.

(** *** Decimal to binary *)

(** The [float] nearest to [n / d] for [0 <= n] and [0 < d], ties to
    even.  The quotient is taken with more than 53 bits and a sticky bit
    for the remainder. *)
Definition round_ratio (n d : Z) : spec_float :=
  if n =? 0 then S754_zero false
  else
    let s := Z.max 0 (Z.log2 d - Z.log2 n + 64) in
    let q := (n * 2 ^ s) / d in
    let sticky := if (n * 2 ^ s) mod d =? 0 then 0 else 1 in
    binary_normalize prec emax (2 * q + sticky) (- s - 1) false.

(** The [float] nearest to [(-1)^neg * m * 10^e]. *)
Definition dec_to_float (neg : bool) (m e : Z) : float :=
  let sf :=
    if m =? 0 then S754_zero false
    else if 0 <=? e then round_ratio (m * 10 ^ e) 1
    else round_ratio m (10 ^ (- e)) in
  let f := SF2Prim sf in
  if neg then (- f)%float else f.

(** *** Scanning *)

Definition is_digit (c : ascii) : bool :=
  let n := N_of_ascii c in ((48 <=? n) && (n <=? 57))%N.

Definition digit_val (c : ascii) : Z := Z.of_N (N_of_ascii c) - 48.

(** The ASCII whitespace [int] and [float] skip around a number. *)
Definition is_space (c : ascii) : bool :=
  let n := N_of_ascii c in
  (((9 <=? n) && (n <=? 13)) || (n =? 32))%N.

Fixpoint lstrip (s : string) : string :=
  match s with
  | String c r => if is_space c then lstrip r else s
  | EmptyString => EmptyString
  end.

Fixpoint rev_string (s acc : string) : string :=
  match s with
  | EmptyString => acc
  | String c r => rev_string r (String c acc)
  end.

Definition strip (s : string) : string :=
  rev_string (lstrip (rev_string (lstrip s) "")) "".

(** A run of digits in which single underscores may separate digits:
    the digits read (value and count) and the rest, or [None] when the
    text does not start with a digit or an underscore is misplaced. *)
Fixpoint digits_us (s : string) (acc : Z) (cnt : Z) (started : bool)
    : option (Z * Z * string) :=
  match s with
  | String c r =>
      if is_digit c then digits_us r (10 * acc + digit_val c) (cnt + 1) true
      else if (N_of_ascii c =? 95)%N then
        match started, r with
        | true, String c' _ => if is_digit c' then digits_us r acc cnt false else None
        | _, _ => None
        end
      else if started then Some (acc, cnt, s) else None
  | EmptyString => if started then Some (acc, cnt, s) else None
  end.

Definition take_sign (s : string) : bool * string :=
  match s with
  | String "-" r => (true, r)
  | String "+" r => (false, r)
  | _ => (false, s)
  end.

(** [int(s)] for ASCII text. *)
Definition str_to_int (s : string) : option Z :=
  let (neg, r) := take_sign (strip s) in
  match digits_us r 0 0 false with
  | Some (v, _, EmptyString) => Some (if neg then - v else v)
  | _ => None
  end.

Definition lower (c : ascii) : ascii :=
  let n := N_of_ascii c in
  if ((65 <=? n) && (n <=? 90))%N then ascii_of_N (n + 32) else c.

Fixpoint lower_string (s : string) : string :=
  match s with
  | EmptyString => EmptyString
  | String c r => String (lower c) (lower_string r)
  end.

(** The optional exponent part [e[+-]digits]. *)
Definition exponent_us (s : string) : option (Z * string) :=
  match s with
  | String c r =>
      if (lower c =? "e")%char then
        let (neg, r') := take_sign r in
        match digits_us r' 0 0 false with
        | Some (v, _, rest) => Some (if neg then - v else v, rest)
        | None => None
        end
      else Some (0, s)
  | EmptyString => Some (0, s)
  end.

(** [float(s)] for ASCII text. *)
Definition str_to_float (s : string) : option float :=
  let (neg, r) := take_sign (strip s) in
  let l := lower_string r in
  if ((l =? "inf") || (l =? "infinity"))%string
  then Some (if neg then neg_infinity else infinity)
  else if (l =? "nan")%string then Some nan
  else
    let int_part :=
      match r with
      | String "." _ => Some (0, 0, r)
      | _ => digits_us r 0 0 false
      end in
    match int_part with
    | None => None
    | Some (iv, ic, r1) =>
        let frac_part :=
          match r1 with
          | String "." r2 =>
              match r2 with
              | String c _ =>
                  if is_digit c then digits_us r2 iv 0 false
                  else if (0 <? ic) then Some (iv, 0, r2) else None
              | EmptyString => if (0 <? ic) then Some (iv, 0, r2) else None
              end
          | _ => Some (iv, 0, r1)
          end in
        match frac_part with
        | None => None
        | Some (m, fc, r3) =>
            match exponent_us r3 with
            | Some (ex, EmptyString) => Some (dec_to_float neg m (ex - fc))
            | _ => None
            end
        end
    end.

(** *** A JSON decoder *)

(** Whitespace between JSON tokens. *)
Definition is_json_ws (c : ascii) : bool :=
  let n := N_of_ascii c in
  ((n =? 32) || (n =? 9) || (n =? 10) || (n =? 13))%N.

Fixpoint skip_ws (s : string) : string :=
  match s with
  | String c r => if is_json_ws c then skip_ws r else s
  | EmptyString => EmptyString
  end.

Definition hex_val (c : ascii) : option N :=
  let n := N_of_ascii c in
  if ((48 <=? n) && (n <=? 57))%N then Some (n - 48)%N
  else if ((97 <=? n) && (n <=? 102))%N then Some (n - 87)%N
  else if ((65 <=? n) && (n <=? 70))%N then Some (n - 55)%N
  else None.

(** Four hexadecimal digits. *)
Definition hex4 (s : string) : option (N * string) :=
  match s with
  | String a (String b (String c (String d r))) =>
      match hex_val a, hex_val b, hex_val c, hex_val d with
      | Some x, Some y, Some z, Some w =>
          Some (((x * 16 + y) * 16 + z) * 16 + w, r)%N
      | _, _, _, _ => None
      end
  | _ => None
  end.

(** The UTF-8 encoding of a code point. *)
Definition utf8 (n : N) : string :=
  let byte k := ascii_of_N k in
  (if n <? 128 then String (byte n) ""
   else if n <? 2048 then
     String (byte (192 + n / 64)) (String (byte (128 + n mod 64)) "")
   else if n <? 65536 then
     String (byte (224 + n / 4096))
       (String (byte (128 + (n / 64) mod 64))
          (String (byte (128 + n mod 64)) ""))
   else
     String (byte (240 + n / 262144))
       (String (byte (128 + (n / 4096) mod 64))
          (String (byte (128 + (n / 64) mod 64))
             (String (byte (128 + n mod 64)) ""))))%N.

(** The code point a [\u] escape stands for, after its four digits [n]
    were read: a high surrogate followed by an escaped low surrogate
    makes one code point. *)
Definition join_surrogates (n : N) (r : string) : N * string :=
  if ((55296 <=? n) && (n <=? 56319))%N then
    match r with
    | String "\" (String "u" r') =>
        match hex4 r' with
        | Some (lo, r'') =>
            if ((56320 <=? lo) && (lo <=? 57343))%N
            then (65536 + (n - 55296) * 1024 + (lo - 56320), r'')%N
            else (n, r)
        | None => (n, r)
        end
    | _ => (n, r)
    end
  else (n, r).

(** The body of a string literal after its opening quote. *)
Fixpoint scan_string (fuel : nat) (s : string) (acc : string)
    : option (string * string) :=
  match fuel with
  | O => None
  | S fuel' =>
      match s with
      | EmptyString => None
      | String c r =>
          let n := N_of_ascii c in
          if (n =? 34)%N then Some (rev_string acc "", r)
          else if (n <? 32)%N then None
          else if (n =? 92)%N then
            match r with
            | String e r' =>
                let k := N_of_ascii e in
                let plain (b : N) :=
                  scan_string fuel' r' (String (ascii_of_N b) acc) in
                if (k =? 34)%N then plain 34%N
                else if (k =? 92)%N then plain 92%N
                else if (k =? 47)%N then plain 47%N
                else if (k =? 98)%N then plain 8%N
                else if (k =? 102)%N then plain 12%N
                else if (k =? 110)%N then plain 10%N
                else if (k =? 114)%N then plain 13%N
                else if (k =? 116)%N then plain 9%N
                else if (k =? 117)%N then
                  match hex4 r' with
                  | Some (u, r'') =>
                      let (cp, r3) := join_surrogates u r'' in
                      scan_string fuel' r3 (rev_string (utf8 cp) acc)
                  | None => None
                  end
                else None
            | EmptyString => None
            end
          else scan_string fuel' r (String c acc)
      end
  end.

(** A run of digits: value, count and rest. *)
Fixpoint digits (s : string) (acc cnt : Z) : Z * Z * string :=
  match s with
  | String c r =>
      if is_digit c then digits r (10 * acc + digit_val c) (cnt + 1)
      else (acc, cnt, s)
  | EmptyString => (acc, cnt, s)
  end.

(** A number: an optional minus sign, then a single zero or digits that
    do not start with zero, then an optional fraction (a point and
    digits) and an optional exponent.  It is an [int] unless it has a
    fraction or an exponent. *)
Definition scan_number (s : string) : option (json * string) :=
  let (neg, r) :=
    match s with
    | String "-" r => (true, r)
    | _ => (false, s)
    end in
  let int_part :=
    match r with
    | String "0" r' => Some (0, r')
    | String c _ =>
        if is_digit c then let '(v, _, r') := digits r 0 0 in Some (v, r')
        else None
    | EmptyString => None
    end in
  match int_part with
  | None => None
  | Some (iv, r1) =>
      let '(m, fc, r2, has_frac) :=
        match r1 with
        | String "." (String c _ as r') =>
            if is_digit c
            then let '(v, k, r'') := digits r' iv 0 in (v, k, r'', true)
            else (iv, 0, r1, false)
        | _ => (iv, 0, r1, false)
        end in
      let '(ex, r3, has_exp) :=
        match r2 with
        | String c r' =>
            if (lower c =? "e")%char then
              let '(eneg, r'') :=
                match r' with
                | String "-" t => (true, t)
                | String "+" t => (false, t)
                | _ => (false, r')
                end in
              match r'' with
              | String d _ =>
                  if is_digit d
                  then let '(v, _, t) := digits r'' 0 0 in
                       (if eneg then - v else v, t, true)
                  else (0, r2, false)
              | EmptyString => (0, r2, false)
              end
            else (0, r2, false)
        | EmptyString => (0, r2, false)
        end in
      if has_frac || has_exp
      then Some (JFloat (dec_to_float neg m (ex - fc)), r3)
      else Some (JInt (if neg then - iv else iv), r3)
  end.

(** [dict(pairs)]: a key that comes again keeps its place and takes the
    later value. *)
Fixpoint set_member (k : string) (v : json) (d : list (string * json))
    : list (string * json) :=
  match d with
  | [] => [(k, v)]
  | (k', v') :: r =>
      if (k =? k')%string then (k, v) :: r else (k', v') :: set_member k v r
  end.

Definition starts (p s : string) : option string :=
  if prefix p s then Some (string_drop (String.length p) s) else None.

(** One value at the head of [s], and what follows it. *)
Fixpoint scan_value (fuel : nat) (s : string) : option (json * string) :=
  match fuel with
  | O => None
  | S fuel' =>
      match s with
      | String c r =>
          let n := N_of_ascii c in
          if (n =? 34)%N then
            match scan_string (String.length r + 1) r "" with
            | Some (t, r') => Some (JStr t, r')
            | None => None
            end
          else if (n =? 123)%N then
            match skip_ws r with
            | String "}" r' => Some (JDict [], r')
            | r' => scan_members fuel' r' []
            end
          else if (n =? 91)%N then
            match skip_ws r with
            | String "]" r' => Some (JList [], r')
            | r' => scan_elements fuel' r' []
            end
          else
            match starts "null" s, starts "true" s, starts "false" s with
            | Some r', _, _ => Some (JNull, r')
            | _, Some r', _ => Some (JBool true, r')
            | _, _, Some r' => Some (JBool false, r')
            | _, _, _ =>
                match scan_number s with
                | Some res => Some res
                | None =>
                    match starts "NaN" s, starts "Infinity" s,
                          starts "-Infinity" s with
                    | Some r', _, _ => Some (JFloat nan, r')
                    | _, Some r', _ => Some (JFloat infinity, r')
                    | _, _, Some r' => Some (JFloat neg_infinity, r')
                    | _, _, _ => None
                    end
                end
            end
      | EmptyString => None
      end
  end

(** The elements of an array after [[] or [,]. *)
with scan_elements (fuel : nat) (s : string) (acc : list json)
    : option (json * string) :=
  match fuel with
  | O => None
  | S fuel' =>
      match scan_value fuel' s with
      | Some (v, r) =>
          match skip_ws r with
          | String "," r' => scan_elements fuel' (skip_ws r') (acc ++ [v])
          | String "]" r' => Some (JList (acc ++ [v]), r')
          | _ => None
          end
      | None => None
      end
  end

(** The members of an object after [{] or [,]. *)
with scan_members (fuel : nat) (s : string) (acc : list (string * json))
    : option (json * string) :=
  match fuel with
  | O => None
  | S fuel' =>
      match s with
      | String "034" r =>
          match scan_string (String.length r + 1) r "" with
          | Some (k, r1) =>
              match skip_ws r1 with
              | String ":" r2 =>
                  match scan_value fuel' (skip_ws r2) with
                  | Some (v, r3) =>
                      match skip_ws r3 with
                      | String "," r4 =>
                          scan_members fuel' (skip_ws r4) (set_member k v acc)
                      | String "}" r4 => Some (JDict (set_member k v acc), r4)
                      | _ => None
                      end
                  | None => None
                  end
              | _ => None
              end
          | None => None
          end
      | _ => None
      end
  end.

(** [json.loads(s)]: one value between optional whitespace. *)
Definition json_loads (s : string) : result json :=
  match scan_value (2 * String.length s + 2) (skip_ws s) with
  | Some (v, r) =>
      match skip_ws r with
      | EmptyString => Ok v
      | _ => Raise ValueError
      end
  | None => Raise ValueError
  end.

(** *** [float.__repr__] *)

(** [b ^ e] as a fraction. *)
Definition pow_frac (b e : Z) : Z * Z :=
  if 0 <=? e then (b ^ e, 1) else (1, b ^ (- e)).

(** The shortest decimal [d * 10^k] that reads back as the float
    [x * 2^e]: the interval of the reals that round to the float is
    [lo * 2^e .. hi * 2^e], with its ends when [incl].  The search goes
    from coarse to fine grids [10^k] and takes the grid point nearest
    to the float on the first grid that meets the interval. *)
Fixpoint shortest (fuel : nat) (k x lo hi e : Z) (incl : bool) : Z * Z :=
  match fuel with
  | O => (0, k)
  | S fuel' =>
      let '(p2, q2) := pow_frac 2 e in
      let '(p10, q10) := pow_frac 10 k in
      let num := p2 * q10 in
      let den := q2 * p10 in
      let below := (x * num) / den in
      let above := below + 1 in
      let inside d :=
        let v := d * den in
        if incl then (lo * num <=? v) && (v <=? hi * num)
        else (lo * num <? v) && (v <? hi * num) in
      let ok_below := (0 <? below) && inside below in
      let ok_above := inside above in
      let gap_below := x * num - below * den in
      let gap_above := above * den - x * num in
      if ok_below && ok_above then
        if gap_below <? gap_above then (below, k)
        else if gap_above <? gap_below then (above, k)
        else if Z.even below then (below, k) else (above, k)
      else if ok_below then (below, k)
      else if ok_above then (above, k)
      else shortest fuel' (k - 1) x lo hi e incl
  end.

Fixpoint zeros (n : nat) : string :=
  match n with
  | O => ""
  | S n' => String "0" (zeros n')
  end.

(** The digits [ds] with the decimal point after the first [decpt] of
    them, as [repr] lays them out. *)
Definition layout (ds : string) (decpt : Z) : string :=
  let n := Z.of_nat (String.length ds) in
  if (decpt <=? -4) || (16 <? decpt) then
    let x := decpt - 1 in
    let mant :=
      match ds with
      | String c EmptyString => ds
      | String c r => String c (String "." r)
      | EmptyString => ds
      end in
    let ex := int_repr (Z.abs x) in
    let sign := if x <? 0 then "-" else "+" in
    let pad := if Z.abs x <? 10 then "0" else "" in
    (mant ++ "e" ++ sign ++ pad ++ ex)%string
  else if decpt <=? 0 then
    ("0." ++ zeros (Z.to_nat (- decpt)) ++ ds)%string
  else if n <=? decpt then
    (ds ++ zeros (Z.to_nat (decpt - n)) ++ ".0")%string
  else
    (substring 0 (Z.to_nat decpt) ds ++ "."
       ++ substring (Z.to_nat decpt) (Z.to_nat (n - decpt)) ds)%string.

Definition float_repr (f : float) : string :=
  match Prim2SF f with
  | S754_nan => "nan"
  | S754_infinity s => if s then "-inf" else "inf"
  | S754_zero s => if s then "-0.0" else "0.0"
  | S754_finite s m e =>
      let x := 4 * Zpos m in
      let lo := if (Zpos m =? 2 ^ 52) && (-1074 <? e) then x - 1 else x - 2 in
      let k0 := (Z.log2 (Zpos m) + e + 1) * 30103 / 100000 + 2 in
      let '(d, k) := shortest 40 k0 x lo (x + 2) (e - 2) (Z.even (Zpos m)) in
      let ds := int_repr d in
      ((if s then "-" else "")
         ++ layout ds (Z.of_nat (String.length ds) + k))%string
  end.

(** *** The console and the files

    A console and files that encode text as UTF-8 with strict errors,
    which is what [print] and [open(..., encoding="utf-8")] meet on the
    runner.  Such a stream refuses a text with a surrogate code point in
    it, and [json.loads] builds one from an escape such as [\ud800] that
    has no partner.  Numbers are written in ASCII, and [str] of a list
    or of a dict escapes the surrogates of the strings inside; integers
    are taken to be short enough for [str]. *)

(** A surrogate code point is, in the bytes of a [str], the byte [0xED]
    followed by a byte from [0xA0] up. *)
Fixpoint has_surrogate (s : string) : bool :=
  match s with
  | String c ((String c' _) as r) =>
      ((N_of_ascii c =? 237)%N && (160 <=? N_of_ascii c')%N)
      || has_surrogate r
  | _ => false
  end.

(** [str(v)] cannot be encoded: [v] is a [str] with a surrogate. *)
Definition unencodable (v : json) : bool :=
  match v with
  | JStr s => has_surrogate s
  | _ => false
  end.

(** A document with a surrogate in one of its strings or keys. *)
Fixpoint holds_surrogate (v : json) : bool :=
  match v with
  | JStr s => has_surrogate s
  | JList l => existsb holds_surrogate l
  | JDict d =>
      existsb (fun kv => has_surrogate (fst kv) || holds_surrogate (snd kv)) d
  | _ => false
  end.

(** [print(f"[{stamp}] {direction} EVENT '{name}': {str(evt_args)[:500]}")] *)
Definition echo (direction : string) (name : json) (evt_args : list json)
    : option exn :=
  if unencodable name then Some UnicodeEncodeError else None.

(** [open(path, "w", encoding="utf-8")] and
    [json.dump(data, f, ensure_ascii=False, indent=2)]: the names are the
    keys of the object written, as they are. *)
Definition write_json (path : string) (data : dumped) : written :=
  match data with
  | InvData inv =>
      if existsb (fun kr => unencodable (fst kr)) inv
      then Broken UnicodeEncodeError else Written
  | OutData inv market_sample =>
      if existsb (fun kr => unencodable (fst kr)) inv
         || existsb holds_surrogate market_sample
      then Broken UnicodeEncodeError else Written
  end.

(** The prints that end [main]: a title, and a line with [{name}] for
    each of the first five entries, or one line when there is none. *)
Definition report (first5 : list (json * tally)) : option exn :=
  if existsb (fun kr => unencodable (fst kr)) first5
  then Some UnicodeEncodeError else None.
End PyRef.


(** ** Notions the properties are stated with *)

(** A decoded document holds every key of a dict once. *)
Fixpoint distinct_keys (ks : list string) : bool :=
  match ks with
  | [] => true
  | k :: r => negb (existsb (String.eqb k) r) && distinct_keys r
  end.

Fixpoint wf_json (v : json) : bool :=
  match v with
  | JList l => forallb wf_json l
  | JDict d =>
      distinct_keys (map fst d) && forallb (fun kv => wf_json (snd kv)) d
  | _ => true
  end.

(** Two documents with the same content: equal scalars, lists equal
    element by element, and dicts with the same keys bound to the same
    content, in whatever order the keys come. *)
Fixpoint same_content (a b : json) {struct a} : bool :=
  match a, b with
  | JNull, JNull => true
  | JBool x, JBool y => Bool.eqb x y
  | JInt x, JInt y => x =? y
  | JFloat f, JFloat g => PrimFloat.Leibniz.eqb f g
  | JStr s, JStr t => (s =? t)%string
  | JList l, JList m =>
      (fix go (l m : list json) {struct l} : bool :=
         match l, m with
         | [], [] => true
         | x :: l', y :: m' => same_content x y && go l' m'
         | _, _ => false
         end) l m
  | JDict d, JDict e =>
      (List.length d =? List.length e)%nat
      && (fix go (d : list (string * json)) : bool :=
            match d with
            | [] => true
            | (k, v) :: d' =>
                match lookup k e with
                | Some w => same_content v w
                | None => false
                end && go d'
            end) d
  | _, _ => false
  end.

(** The candidate the spec's checks (a), (b) and (c) name. *)
Definition data_inventory (first : json) : option (list json) :=
  match first with
  | JDict d =>
      match lookup "data" d with
      | Some (JDict data) =>
          match lookup "inventory" data with
          | Some (JList l) => Some l
          | _ => None
          end
      | _ => None
      end
  | _ => None
  end.

Definition top_inventory (first : json) : option (list json) :=
  match first with
  | JDict d =>
      match lookup "inventory" d with
      | Some (JList l) => Some l
      | _ => None
      end
  | _ => None
  end.

Definition first_as_list (first : json) : option (list json) :=
  match first with
  | JList l => Some l
  | _ => None
  end.

(** The locator as the spec words it: the first of (a), (b), (c) that
    applies to the first argument, and the empty list otherwise. *)
Definition locate_by_priority (args : list json) : list json :=
  match args with
  | [] => []
  | first :: _ =>
      match data_inventory first, top_inventory first, first_as_list first with
      | Some l, _, _ => l
      | None, Some l, _ => l
      | None, None, Some l => l
      | None, None, None => []
      end
  end.

(** The resolver of the spec's design notes, with "non-null": the value of
    the first key of [keys] that is present in [d] and not [None]. *)
Fixpoint first_non_null (keys : list string) (dflt : json)
    (d : list (string * json)) : json :=
  match keys with
  | [] => dflt
  | k :: r =>
      match lookup k d with
      | Some JNull | None => first_non_null r dflt d
      | Some v => v
      end
  end.

(** The same resolver with "true" in the place of "non-null". *)
Fixpoint first_truthy (keys : list string) (dflt : json)
    (d : list (string * json)) : json :=
  match keys with
  | [] => dflt
  | k :: r =>
      if truthy (dict_get d k) then dict_get d k else first_truthy r dflt d
  end.

(** [agg.get(name)] *)
Fixpoint find_entry (name : json) (agg : aggregate) : option tally :=
  match agg with
  | [] => None
  | (k, r) :: rest => if py_eq k name then Some r else find_entry name rest
  end.

(** The entry [setdefault] hands out for [name]. *)
Definition entry_or_zero (name : json) (agg : aggregate) : tally :=
  match find_entry name agg with
  | Some r => r
  | None => {| amount := 0; total_price := 0%float |}
  end.

(** No two of the signatures compare equal. *)
Fixpoint distinct_sigs (l : list signature) : bool :=
  match l with
  | [] => true
  | x :: r =>
      negb (existsb (fun y => sig_eq x y || sig_eq y x) r) && distinct_sigs r
  end.

(** The state an iteration of the loop body leaves. *)
Definition state_of (s : step) : state :=
  match s with
  | Next _ st => st
  | Abort _ st => st
  end.

(** What a log entry contributes to the result of [safe_get_perf]. *)
Definition emitted (json_loads : string -> result json) (e : json) : list json :=
  match entry_message json_loads e with
  | Ok msg => [msg]
  | Raise _ => []
  end.

(** The message of a well-formed log entry, in the words of the
    specification: the entry is an object whose ["message"] is a text
    (the outer layer), and the text is the JSON of an object that has a
    ["message"] (the inner layer).  [None] for every other entry. *)
Definition well_formed_message (json_loads : string -> result json)
    (e : json) : option json :=
  match e with
  | JDict d =>
      match lookup "message" d with
      | Some (JStr text) =>
          match json_loads text with
          | Ok (JDict doc) => lookup "message" doc
          | _ => None
          end
      | _ => None
      end
  | _ => None
  end.

(** The messages the well-formed entries of a log carry, in the order of
    the log. *)
Definition well_formed_messages (json_loads : string -> result json)
    (raw : list json) : list json :=
  flat_map (fun e => match well_formed_message json_loads e with
                     | Some msg => [msg]
                     | None => []
                     end) raw.

(** The exception that ends a generator, if one does. *)
Fixpoint thrown {A : Type} (g : gen A) : option exn :=
  match g with
  | Stop => None
  | Yield _ rest => thrown rest
  | Throw e => Some e
  end.

(** ** Worked inputs *)

Definition q (s : string) : string := (quote ++ s ++ quote)%string.

(** [{"name": "Widget", "price": 250, "amount": 2}] *)
Definition widget : json :=
  JDict [("name", JStr "Widget"); ("price", JInt 250); ("amount", JInt 2)].

(** [["priceUpdate",{"x":1}]] as text, and decoded. *)
Definition price_update_text : string :=
  ("[" ++ q "priceUpdate" ++ ",{" ++ q "x" ++ ":1}]")%string.

Definition price_update_doc : json :=
  JList [JStr "priceUpdate"; JDict [("x", JInt 1)]].

(** [all(f(x, y) for x, y in zip(l, m))] for lists of equal length. *)
Fixpoint forall2b {A B : Type} (f : A -> B -> bool) (l : list A) (m : list B)
    : bool :=
  match l, m with
  | [], [] => true
  | x :: l', y :: m' => f x y && forall2b f l' m'
  | _, _ => false
  end.

(** A record in which earlier candidates are present but false. *)
Definition falsy_record : list (string * json) :=
  [("name", JStr ""); ("market_hash_name", JStr "AK-47");
   ("price", JInt 0); ("price_cents", JInt 500);
   ("amount", JInt 0); ("quantity", JInt 3)].

(** [{"name": "Widget", "price": 250, "amount": "abc"}] *)
Definition bad_quantity : json :=
  JDict [("name", JStr "Widget"); ("price", JInt 250); ("amount", JStr "abc")].

Definition name_keys : list string := ["name"; "market_hash_name"; "title"].
Definition price_keys : list string := ["price"; "price_cents"].
Definition quantity_keys : list string := ["amount"; "quantity"].

(** A generator followed by another. *)
Fixpoint gen_app {A : Type} (g h : gen A) : gen A :=
  match g with
  | Stop => h
  | Yield a rest => Yield a (gen_app rest h)
  | Throw e => Throw e
  end.

(** An entry of the performance log whose message is [text]. *)
Definition log_entry (text : string) : json :=
  JDict [("level", JStr "INFO"); ("message", JStr text); ("timestamp", JInt 0)].

(** [{"message":{"method":m,"params":{"response":{"payloadData":p}}}}] as
    text. *)
Definition frame_text (method payload : string) : string :=
  ("{" ++ q "message" ++ ":{" ++ q "method" ++ ":" ++ q method ++ ","
       ++ q "params" ++ ":{" ++ q "response" ++ ":{" ++ q "payloadData" ++ ":"
       ++ encode_basestring payload ++ "}}}}")%string.

(** The message [frame_text method payload] is the text of. *)
Definition frame_msg (method payload : string) : json :=
  JDict [("method", JStr method);
         ("params",
          JDict [("response", JDict [("payloadData", JStr payload)])])].

(** [{"message":{"method":"Network.webSocketFrameReceived",
    "params":{"requestId":"7"}}}]: a received frame with no response. *)
Definition bare_frame_text : string :=
  ("{" ++ q "message" ++ ":{" ++ q "method" ++ ":"
       ++ q "Network.webSocketFrameReceived" ++ ","
       ++ q "params" ++ ":{" ++ q "requestId" ++ ":" ++ q "7" ++ "}}}")%string.

Definition bare_frame_msg : json :=
  JDict [("method", JStr "Network.webSocketFrameReceived");
         ("params", JDict [("requestId", JStr "7")])].

Definition bare_frame_doc : json := JDict [("message", bare_frame_msg)].

(** The order [sorted] puts rendered members in: that of their keys. *)
Definition key_le (x y : string * string) : Prop :=
  (fst x <=? fst y)%string = true.

(** The last [n] elements of a list. *)
Definition lastn {A : Type} (n : nat) (l : list A) : list A :=
  skipn (List.length l - n) l.

(** The signatures [("in", i, "[]")] for [i] from [lo] up. *)
Definition numbered_sigs (lo len : nat) : list signature :=
  map (fun i => ("in", JInt (Z.of_nat i), "[]")) (seq lo len).

(** Two renderings of one event: the keys of the objects come in
    different orders. *)
Definition stock_args : list json :=
  [JDict [("id", JInt 7);
          ("data", JDict [("inventory", JList [widget]); ("page", JInt 1)])]].

Definition stock_args_reordered : list json :=
  [JDict [("data",
           JDict [("page", JInt 1);
                  ("inventory",
                   JList [JDict [("amount", JInt 2); ("name", JStr "Widget");
                                 ("price", JInt 250)]])]);
          ("id", JInt 7)]].

Definition empty_state : state := {| seen := []; inv := [] |}.

(** [42["inventory",{"data":{"inventory":[{"name":"Widget","price":250,
    "amount":2}]}}]] *)
Definition inventory_payload : string :=
  ("42[" ++ q "inventory" ++ ",{" ++ q "data" ++ ":{" ++ q "inventory" ++ ":[{"
         ++ q "name" ++ ":" ++ q "Widget" ++ "," ++ q "price" ++ ":250,"
         ++ q "amount" ++ ":2}]}}]")%string.

(** [42["inventory",{"inventory":[{"name":"Widget","price":250,
    "amount":"abc"}]}]] *)
Definition bad_quantity_payload : string :=
  ("42[" ++ q "inventory" ++ ",{" ++ q "inventory" ++ ":[{"
         ++ q "name" ++ ":" ++ q "Widget" ++ "," ++ q "price" ++ ":250,"
         ++ q "amount" ++ ":" ++ q "abc" ++ "}]}]")%string.

(** A log with an inventory event, a frame that is no event, an entry
    that is not JSON, and the inventory event once more. *)
Definition sample_log : list json :=
  [log_entry (frame_text "Network.webSocketFrameReceived" inventory_payload);
   log_entry (frame_text "Network.webSocketFrameSent" "2probe");
   log_entry "not json";
   log_entry (frame_text "Network.webSocketFrameReceived" inventory_payload)].

Section Events.
Variable float_repr : float -> string.
Variable str_to_float : string -> option float.
Variable str_to_int : string -> option Z.
Variable echo : string -> json -> list json -> option exn.
Variable write_json : string -> dumped -> written.

(** The loop of [main] over events that are already decoded: the verdict
    on each event handled, the state reached and the exception that ended
    the loop, if any. *)
Fixpoint run_events (st : state) (evs : list (string * json * list json))
    : list verdict * state * option exn :=
  match evs with
  | [] => ([], st, None)
  | (direction, name, evt_args) :: rest =>
      match handle_event float_repr str_to_float str_to_int echo write_json
              st direction name evt_args with
      | Next v st' =>
          let '(vs, st'', e) := run_events st' rest in (v :: vs, st'', e)
      | Abort e st' => ([], st', Some e)
      end
  end.
End Events.

(** The event ["tick"] with no argument, and the events named by the
    numbers from [lo] up. *)
Definition tick : string * json * list json := ("in", JStr "tick", []).

Definition numbered_events (lo len : nat) : list (string * json * list json) :=
  map (fun i => ("in", JInt (Z.of_nat i), [])) (seq lo len).

From Stdlib Require DecimalPos DecimalZ.

(** ** Further notions for the properties of the code *)

(** The sum of the [amount] fields of the aggregate. *)
Fixpoint total_amount (agg : aggregate) : Z :=
  match agg with
  | [] => 0
  | (_, r) :: rest => amount r + total_amount rest
  end.

(** [qty = int(it.get("amount") or it.get("quantity") or 1)] *)
Definition item_qty (str_to_int : string -> option Z) (it : json) : result Z :=
  q <- item_quantity it ;; py_int str_to_int q.

(** The aggregate a call of [merge_inventory] leaves, however it ends. *)
Definition aggregate_of (o : outcome) : aggregate :=
  match o with
  | Returns agg => agg
  | Raises _ agg => agg
  end.

(** [[widget, bad_quantity, widget]]: the second record stops the merge. *)
Definition mixed_items : list json := [widget; bad_quantity; widget].

(** The entry [agg.get(k)] stands for when it is read as a tally: a key
    that is absent has the zero entry [setdefault] would give it. *)
Definition tally_or_zero (o : option tally) : tally :=
  match o with
  | Some r => r
  | None => {| amount := 0; total_price := 0%float |}
  end.

(** Every key of the aggregate is a value a dict accepts as a key. *)
Definition hashable_keys (agg : aggregate) : Prop :=
  Forall (fun kr => hashable (fst kr) = true) agg.

Section Contribution.
Variable str_to_float : string -> option float.
Variable str_to_int : string -> option Z.

(** What one record does to the entry read under the key [k]: a record
    whose name equals [k] adds its quantity and its price, any other
    record leaves the entry as it is. *)
Definition contribution (k : json) (o : option tally) (it : json)
    : option tally :=
  match item_name it, item_cents it, item_qty str_to_int it with
  | Ok name, Ok cents, Ok qty =>
      if py_eq name k
      then Some {| amount := amount (tally_or_zero o) + qty;
                   total_price :=
                     (total_price (tally_or_zero o)
                      + item_price str_to_float cents)%float |}
      else o
  | _, _, _ => o
  end.
End Contribution.

(** [{"title": "Gadget", "price_cents": "75"}] *)
Definition gadget : json :=
  JDict [("title", JStr "Gadget"); ("price_cents", JStr "75")].

(** [{"name": "Coin", "price": cents}] *)
Definition coin (cents : Z) : json :=
  JDict [("name", JStr "Coin"); ("price", JInt cents)].

(** ** Further notions for the loop of [main] *)

(** The values a generator yields before it finishes or raises. *)
Fixpoint yielded {A : Type} (g : gen A) : list A :=
  match g with
  | Stop => []
  | Yield a rest => a :: yielded rest
  | Throw _ => []
  end.

(** No signature of the deque is equal to one that comes after it. *)
Definition no_repeat (l : list signature) : Prop :=
  ForallOrdPairs (fun x y => sig_eq x y = false) l.

(** The direction [iter_ws_frames] gives a message, if it takes it for a
    frame. *)
Definition direction_of (m : json) : option string :=
  match py_get_default m "method" (JStr "") with
  | Ok method =>
      if py_eq method (JStr "Network.webSocketFrameReceived") then Some "in"
      else if py_eq method (JStr "Network.webSocketFrameSent") then Some "out"
      else None
  | Raise _ => None
  end.

(** A message [iter_ws_frames] gets past: an object, with the payload at
    [params.response.payloadData] when it is a frame. *)
Definition well_shaped (m : json) : Prop :=
  is_dict m = true
  /\ (direction_of m <> None -> exists p, payload_data m = Ok p).

(** What a message contributes to the frames. *)
Definition frames_of (m : json) : list (string * json) :=
  match direction_of m, payload_data m with
  | Some d, Ok p => [(d, p)]
  | _, _ => []
  end.

(** ** The files the program writes *)

Definition LOG_FILE : string := "rustyloot_sniffer.log".

(** What a file holds after [save_json]: the whole text of the data, or,
    when [json.dump] raised, a beginning of that text. *)
Inductive content : Type :=
| Whole (data : dumped)
| Part (data : dumped).

(** The files by path, [LOG_FILE] apart: what [save_json] last left in
    each. *)
Definition disk : Type := string -> option content.

Definition no_files : disk := fun _ => None.

Definition put (path : string) (c : content) (fs : disk) : disk :=
  fun p => if (p =? path)%string then Some c else fs p.

(** The records [logging.info] appends to [LOG_FILE], and sends to the
    console, from [seen = deque(maxlen=2000)] on.  The [logging] module
    keeps the failures of its handlers to itself, so these calls
    return. *)
Inductive log_record : Type :=
| Listening                    (* line 161 *)
| InventorySaved (count : nat) (* line 182, with [len(inv)] *)
| Finished.                    (* line 190 *)

(** The variables of the loop together with the files and the records
    logged. *)
Record world : Type :=
  { vars : state; files : disk; journal : list log_record }.

(** How an iteration of the loop body ends, files included. *)
Inductive wstep : Type :=
| WNext (v : verdict) (w : world)
| WAbort (e : exn) (w : world).

Definition world_of (s : wstep) : world :=
  match s with
  | WNext _ w => w
  | WAbort _ w => w
  end.

(** The world [main] has reached at line 162, with the files [fs]. *)
Definition start_world (fs : disk) : world :=
  let inv0 : aggregate := [] in
  let seen0 : list signature := [] in
  {| vars := {| seen := seen0; inv := inv0 |};
     files := fs;
     journal := [Listening] |}.

Section Persistence.
Variable json_loads : string -> result json.
Variable float_repr : float -> string.
Variable str_to_float : string -> option float.
Variable str_to_int : string -> option Z.
Variable echo : string -> json -> list json -> option exn.
Variable write_json : string -> dumped -> written.
(** What the prints that end [main] do, given [first5]: [None] when they
    return, the exception when the console refuses a line. *)
Variable report : list (json * tally) -> option exn.

(** [save_json(path, data)]: the file is opened with mode ["w"], which
    empties it, and [data] is dumped into it; the files afterwards and
    the exception raised, if any. *)
Definition save_json (path : string) (data : dumped) (fs : disk)
    : disk * option exn :=
  match write_json path data with
  | Written => (put path (Whole data) fs, None)
  | NotOpened e => (fs, Some e)
  | Broken e => (put path (Part data) fs, Some e)
  end.

(** The loop body from [sig = ...] on, files and log included. *)
Definition handle_event_io (w : world) (direction : string) (name : json)
    (evt_args : list json) : wstep :=
  let sig := make_signature float_repr direction name evt_args in
  if contains (seen (vars w)) sig then WNext Duplicate w
  else
    let seen' := deque_append seen_maxlen (seen (vars w)) sig in
    match echo direction name evt_args with
    | Some e =>
        WAbort e
          {| vars := {| seen := seen'; inv := inv (vars w) |};
             files := files w; journal := journal w |}
    | None =>
        let items := try_extract_inventory evt_args in
        match items with
        | [] =>
            WNext Processed
              {| vars := {| seen := seen'; inv := inv (vars w) |};
                 files := files w; journal := journal w |}
        | _ :: _ =>
            match merge_inventory str_to_float str_to_int
                    (inv (vars w)) items with
            | Returns agg =>
                match save_json INV_FILE (InvData agg) (files w) with
                | (fs, None) =>
                    WNext Processed
                      {| vars := {| seen := seen'; inv := agg |};
                         files := fs;
                         journal :=
                           journal w ++ [InventorySaved (List.length agg)] |}
                | (fs, Some e) =>
                    WAbort e
                      {| vars := {| seen := seen'; inv := agg |};
                         files := fs; journal := journal w |}
                end
            | Raises e agg =>
                WAbort e
                  {| vars := {| seen := seen'; inv := agg |};
                     files := files w; journal := journal w |}
            end
        end
    end.

Definition handle_frame_io (w : world) (frame : string * json) : wstep :=
  let (direction, payload) := frame in
  match parse_socketio json_loads payload with
  | Raise e => WAbort e w
  | Ok None => WNext NotAnEvent w
  | Ok (Some (name, evt_args)) => handle_event_io w direction name evt_args
  end.

Fixpoint run_frames_io (w : world) (frames : gen (string * json))
    : world * option exn :=
  match frames with
  | Stop => (w, None)
  | Throw e => (w, Some e)
  | Yield frame rest =>
      match handle_frame_io w frame with
      | WNext _ w' => run_frames_io w' rest
      | WAbort e w' => (w', Some e)
      end
  end.

Definition poll_io (w : world) (get_log : result (list json))
    : world * option exn :=
  run_frames_io w (iter_ws_frames json_loads get_log).

(** The [while] loop: one element of [ticks] for each time the condition
    on the clock holds, saying what [driver.get_log] does then. *)
Fixpoint run_ticks (w : world) (ticks : list (result (list json)))
    : world * option exn :=
  match ticks with
  | [] => (w, None)
  | get_log :: rest =>
      match poll_io w get_log with
      | (w', None) => run_ticks w' rest
      | (w', Some e) => (w', Some e)
      end
  end.

(** [main] from [seen = deque(maxlen=2000)] to [return 0], started with
    the files [fs]: the loop, the final dump, its record in the log and
    the report on the console.  An exception leaves through [finally]
    and skips what follows it. *)
Definition main_listen (fs : disk) (ticks : list (result (list json)))
    : world * result Z :=
  let market_sample : list json := [] in
  match run_ticks (start_world fs) ticks with
  | (w, None) =>
      match save_json OUT_FILE (OutData (inv (vars w)) market_sample)
              (files w) with
      | (fs', None) =>
          let w' := {| vars := vars w; files := fs';
                       journal := journal w ++ [Finished] |} in
          match report (firstn 5 (inv (vars w))) with
          | None => (w', Ok 0)
          | Some e => (w', Raise e)
          end
      | (fs', Some e) =>
          ({| vars := vars w; files := fs'; journal := journal w |}, Raise e)
      end
  | (w, Some e) => (w, Raise e)
  end.
End Persistence.

(** [[[widget, bad_quantity]]]: an event whose inventory is the
    widget followed by a record whose quantity [int] rejects. *)
Definition partly_bad_args : list json := [JList [widget; bad_quantity]].


(** An iteration of the loop body with the files and the log
    forgotten. *)
Definition erase (s : wstep) : step :=
  match s with
  | WNext v w => Next v (vars w)
  | WAbort e w => Abort e (vars w)
  end.


(** Of the files that are not the log, only [INV_FILE] may differ
    between those of [w] and [fs0]. *)
Definition only_inv_file (fs0 : disk) (w : world) : Prop :=
  forall p, p <> INV_FILE -> p <> LOG_FILE -> files w p = fs0 p.

(** The records between the first and the last of a run are those of
    the saves of the inventory. *)
Definition save_records (l : list log_record) : Prop :=
  Forall (fun r => exists n, r = InventorySaved n) l.

(** A log whose only frame is an inventory event with a quantity [int]
    rejects. *)
Definition bad_quantity_log : list json :=
  [log_entry (frame_text "Network.webSocketFrameReceived" bad_quantity_payload)].

Definition empty_world : world :=
  {| vars := empty_state; files := no_files; journal := [] |}.

(** A name with the surrogate [\ud800] in it. *)
Definition lone_surrogate : json :=
  JStr (String (ascii_of_N 237) (String (ascii_of_N 160)
          (String (ascii_of_N 128) ""))).

(** ** Reading a serialized document back

    What the properties of [json.dumps] below are stated and proved
    with: the characters that can follow a value in a document, the shape
    of the tokens, and the inverse of the escaping of one character. *)

(** The characters [,], []] and [}] that follow a value inside a list or
    an object. *)
Definition is_delim (c : ascii) : bool :=
  let n := N_of_ascii c in
  (n =? 44)%N || (n =? 93)%N || (n =? 125)%N.

(** The rest of a document after a value: nothing, or a delimiter
    first. *)
Definition token_end (s : string) : bool :=
  match s with
  | EmptyString => true
  | String c _ => is_delim c
  end.

Fixpoint string_forallb (p : ascii -> bool) (s : string) : bool :=
  match s with
  | EmptyString => true
  | String c r => p c && string_forallb p r
  end.

Fixpoint string_existsb (p : ascii -> bool) (s : string) : bool :=
  match s with
  | EmptyString => false
  | String c r => p c || string_existsb p r
  end.

Definition is_digit (c : ascii) : bool :=
  let n := N_of_ascii c in (48 <=? n)%N && (n <=? 57)%N.

(** The characters of [int.__repr__]: digits and [-]. *)
Definition is_int_char (c : ascii) : bool :=
  is_digit c || (N_of_ascii c =? 45)%N.

(** [.] and [e], one of which every [float.__repr__] of a finite number
    holds. *)
Definition is_float_mark (c : ascii) : bool :=
  let n := N_of_ascii c in (n =? 46)%N || (n =? 101)%N.

(** The characters of [float.__repr__] on a finite number: digits, [-],
    [+], [.] and [e]. *)
Definition is_float_char (c : ascii) : bool :=
  is_int_char c || (N_of_ascii c =? 43)%N || is_float_mark c.

(** The shape of [float.__repr__] on a finite number, as in [1.5],
    [-0.0], [1e+16] and [2.5e-07]. *)
Definition float_token (s : string) : bool :=
  string_forallb is_float_char s && string_existsb is_float_mark s.

(** The finite floats of a document, which [json.dumps] writes with
    [float.__repr__]. *)
Fixpoint floats_of (v : json) : list float :=
  match v with
  | JFloat f => if is_nan f || is_infinity f then [] else [f]
  | JList l => flat_map floats_of l
  | JDict d => flat_map (fun kv => floats_of (snd kv)) d
  | _ => []
  end.

(** The value of a hexadecimal digit in lower case. *)
Definition hex_value (c : ascii) : N :=
  let n := N_of_ascii c in
  if (n <? 58)%N then n - 48 else n - 87.

(** The character a serialized string starts with and what follows its
    encoding; [None] at the closing quote. *)
Definition unescape_head (s : string) : option (ascii * string) :=
  match s with
  | EmptyString => None
  | String c r =>
      let n := N_of_ascii c in
      if (n =? 34)%N then None
      else if (n =? 92)%N then
        match r with
        | EmptyString => None
        | String c' r' =>
            let n' := N_of_ascii c' in
            if (n' =? 34)%N then Some (c', r')
            else if (n' =? 92)%N then Some (c', r')
            else if (n' =? 98)%N then Some (ascii_of_N 8, r')
            else if (n' =? 102)%N then Some (ascii_of_N 12, r')
            else if (n' =? 110)%N then Some (ascii_of_N 10, r')
            else if (n' =? 114)%N then Some (ascii_of_N 13, r')
            else if (n' =? 116)%N then Some (ascii_of_N 9, r')
            else
              match r' with
              | String _ (String _ (String h1 (String h2 r''))) =>
                  Some (ascii_of_N (16 * hex_value h1 + hex_value h2), r'')
              | _ => None
              end
        end
      else Some (c, r)
  end.

(** What follows the first element of a list or an object: each further
    element after [", "], then the closing bracket and the rest. *)
Fixpoint render_tail (close : string) (items : list string) (rest : string)
    : string :=
  match items with
  | [] => (close ++ rest)%string
  | x :: r => (", " ++ x ++ render_tail close r rest)%string
  end.

(** A member of an object as [json.dumps] writes it. *)
Definition render_member (m : string * string) : string :=
  (encode_basestring (fst m) ++ ": " ++ snd m)%string.

(** The kinds of text a value is written as. *)
Inductive shape : Type := SAtom | SStr | SList | SDict.

Definition shape_of_json (v : json) : shape :=
  match v with
  | JStr _ => SStr
  | JList _ => SList
  | JDict _ => SDict
  | _ => SAtom
  end.

(** The kind of value a text starts with, read off its first
    character; none for the empty text, a delimiter or a space. *)
Definition shape_of_text (s : string) : option shape :=
  match s with
  | EmptyString => None
  | String c _ =>
      let n := N_of_ascii c in
      if is_delim c || (n =? 32)%N then None
      else if (n =? 34)%N then Some SStr
      else if (n =? 91)%N then Some SList
      else if (n =? 123)%N then Some SDict
      else Some SAtom
  end.

(** The finite floats in the arguments of a list of events. *)
Definition event_floats (evs : list (string * json * list json))
    : list float :=
  flat_map (fun ev => floats_of (JList (snd ev))) evs.

(** [[2.5, {"b": [1, "x"], "a": null}]] and the same arguments with the
    keys of the object in the other order. *)
Definition mixed_args : list json :=
  [JFloat 2.5%float;
   JDict [("b", JList [JInt 1; JStr "x"]); ("a", JNull)]].

Definition mixed_args_reordered : list json :=
  [JFloat 2.5%float;
   JDict [("a", JNull); ("b", JList [JInt 1; JStr "x"])]].


(** * Properties *)

(** ** The Inventory Candidate Locator *)

Lemma dict_get_lookup (d : list (string * json)) (k : string) :
  dict_get d k = match lookup k d with Some v => v | None => JNull end.
Proof. reflexivity. Qed.

(** Forgetting the labels gives back the candidates of the source. *)
Lemma labelled_candidates_erase (first : json) :
  map snd (labelled_candidates first) = candidates first.
Proof.
  unfold labelled_candidates, candidates.
  destruct first as [ | | | | | l | d]; simpl; try reflexivity.
  destruct (dict_get d "data") as [ | | | | | | data];
    try (destruct (is_list (dict_get d "inventory")); reflexivity).
  destruct (is_list (dict_get data "inventory"));
    destruct (is_list (dict_get d "inventory")); reflexivity.
Qed.

(** The label is the one of the candidate that [first_list] returns. *)
Lemma first_list_branch_sound (cands : list (branch * json)) :
  match first_list_branch cands with
  | Some b =>
      exists l, In (b, JList l) cands /\ first_list (map snd cands) = l
  | None => first_list (map snd cands) = []
  end.
Proof.
  induction cands as [ | [b c] r IH]; simpl; [reflexivity | ].
  destruct c as [ | | | | | l | ]; simpl;
    try (destruct (first_list_branch r);
         [destruct IH as (l & Hin & E); exists l; auto | exact IH]).
  exists l. auto.
Qed.

Lemma returned_through_sound (args : list json) (b : branch) :
  returned_through args = Some b ->
  exists first rest l,
    args = first :: rest
    /\ In (b, JList l) (labelled_candidates first)
    /\ try_extract_inventory args = l.
Proof.
  destruct args as [ | first rest]; [discriminate | ].
  unfold returned_through, try_extract_inventory. intros H.
  pose proof (first_list_branch_sound (labelled_candidates first)) as S.
  rewrite H, labelled_candidates_erase in S.
  destruct S as (l & Hin & E). exists first, rest, l. auto.
Qed.

(** C4: the locator returns the first candidate in the order (a)
    [data.inventory], (b) [inventory], (c) the first argument itself when
    it is a list, and the empty list when none applies or there is no
    argument; so when the first argument is an object that has both a
    nested [data.inventory] list [la] and a top-level [inventory] list
    [lb], the result is [la] (and hence not [lb] whenever the two
    differ). *)
Theorem try_extract_inventory_priority (args : list json) :
  try_extract_inventory args = locate_by_priority args
  /\ (forall d data la lb rest,
        args = JDict d :: rest ->
        lookup "data" d = Some (JDict data) ->
        lookup "inventory" data = Some (JList la) ->
        lookup "inventory" d = Some (JList lb) ->
        try_extract_inventory args = la
        /\ (la <> lb -> try_extract_inventory args <> lb)).
Proof.
  assert (Hspec : forall a, try_extract_inventory a = locate_by_priority a).
  { intros [ | first rest]; [reflexivity | ].
    unfold try_extract_inventory, locate_by_priority, candidates,
      data_inventory, top_inventory, first_as_list.
    destruct first as [ | | | | | l | d]; simpl; try reflexivity.
    rewrite !dict_get_lookup.
    destruct (lookup "data" d) as [[ | | | | | | data] | ];
      destruct (lookup "inventory" d) as [[ | | | | | lb | ] | ];
      simpl; try reflexivity;
      rewrite !dict_get_lookup;
      destruct (lookup "inventory" data) as [[ | | | | | la | ] | ];
      reflexivity. }
  split; [apply Hspec | ].
  intros d data la lb rest -> Hdata Hla Hlb.
  assert (E : try_extract_inventory (JDict d :: rest) = la).
  { rewrite Hspec. unfold locate_by_priority, data_inventory.
    rewrite Hdata, Hla. reflexivity. }
  split; [exact E | rewrite E; auto].
Qed.

(** The priority example of the spec: [{"data": {"inventory": [A]},
    "inventory": [B]}] gives [[A]]. *)
Lemma try_extract_inventory_priority_witness :
  try_extract_inventory
    [JDict [("data", JDict [("inventory", JList [JStr "A"])]);
            ("inventory", JList [JStr "B"])]]
  = [JStr "A"].
Proof.
  apply (proj2 (try_extract_inventory_priority
                  [JDict [("data", JDict [("inventory", JList [JStr "A"])]);
                          ("inventory", JList [JStr "B"])]])
           [("data", JDict [("inventory", JList [JStr "A"])]);
            ("inventory", JList [JStr "B"])]
           [("inventory", JList [JStr "A"])]
           [JStr "A"] [JStr "B"] []);
    reflexivity.
Defined.

(** C5, as stated, fails: with a first argument that is a list the result
    comes from the statement [cands.append(first)]. *)
Lemma fallback_branch_reached :
  returned_through [JList [widget]] = Some FirstItself
  /\ try_extract_inventory [JList [widget]] = [widget].
Proof. split; reflexivity. Qed.

(** C5, amended: the fallback branch is taken exactly when the first
    argument is itself a list; the object checks then contribute no
    candidate, and the result is that list. *)
Theorem fallback_branch_iff_first_is_list (args : list json) :
  returned_through args = Some FirstItself
  <-> exists l rest, args = JList l :: rest
                     /\ labelled_candidates (JList l) = [(FirstItself, JList l)]
                     /\ try_extract_inventory args = l.
Proof.
  split.
  - destruct args as [ | first rest]; [discriminate | ].
    destruct first as [ | | | | | l | d]; simpl; try discriminate.
    + intros _. exists l, rest. repeat split.
    + unfold labelled_candidates; simpl.
      destruct (dict_get d "data") as [ | | | | | | data]; simpl;
        try (destruct (dict_get d "inventory"); simpl; discriminate).
      destruct (dict_get data "inventory"); simpl;
        destruct (dict_get d "inventory"); simpl; discriminate.
  - intros (l & rest & -> & _ & _). reflexivity.
Qed.

(** ** The Inventory Aggregator *)

Lemma float_eq_refl (f : float) : float_eq f f = true.
Proof.
  unfold float_eq, is_nan. destruct (PrimFloat.eqb f f); reflexivity.
Qed.

Lemma py_eq_refl_hashable (v : json) :
  hashable v = true -> py_eq v v = true.
Proof.
  destruct v as [ | b | z | f | s | l | d]; simpl; intros H;
    try discriminate; auto using Z.eqb_refl, float_eq_refl, String.eqb_refl.
Qed.

(** After the update, the entry for [name] is the former one (or the zero
    entry) with [qty] and [price] added. *)
Lemma find_entry_add (name : json) (qty : Z) (price : float) (agg : aggregate) :
  hashable name = true ->
  find_entry name (add_to_entry name qty price agg)
  = Some {| amount := amount (entry_or_zero name agg) + qty;
            total_price := (total_price (entry_or_zero name agg) + price)%float |}.
Proof.
  intros Hh. unfold entry_or_zero.
  induction agg as [ | [k r] rest IH]; simpl.
  - rewrite (py_eq_refl_hashable name Hh). reflexivity.
  - destruct (py_eq k name) eqn:E; simpl; rewrite E; [reflexivity | exact IH].
Qed.

Lemma or_else_dict (d : list (string * json)) (k : string) (b : result json) :
  or_else (py_get (JDict d) k) b
  = if truthy (dict_get d k) then Ok (dict_get d k) else b.
Proof. reflexivity. Qed.

(** The three [or] chains of [merge_inventory] on a dict. *)
Lemma item_fields_resolve (d : list (string * json)) :
  item_name (JDict d) = Ok (first_truthy name_keys (JStr "UNKNOWN") d)
  /\ item_cents (JDict d) = Ok (first_truthy price_keys (JInt 0) d)
  /\ item_quantity (JDict d) = Ok (first_truthy quantity_keys (JInt 1) d).
Proof.
  unfold item_name, item_cents, item_quantity.
  rewrite !or_else_dict. simpl.
  repeat split;
    repeat (match goal with |- context [truthy ?x] => destruct (truthy x) end;
            try reflexivity).
Qed.

(** C8, as stated, fails: a candidate that is present and not [None] but
    false is passed over.  In [falsy_record] the first non-null name is
    the empty string, the first non-null price is [0] and the first
    non-null quantity is [0], and the code takes ["AK-47"], [500] and
    [3]. *)
Lemma falsy_candidate_skipped :
  first_non_null name_keys (JStr "UNKNOWN") falsy_record = JStr ""
  /\ item_name (JDict falsy_record) = Ok (JStr "AK-47")
  /\ first_non_null price_keys (JInt 0) falsy_record = JInt 0
  /\ item_cents (JDict falsy_record) = Ok (JInt 500)
  /\ first_non_null quantity_keys (JInt 1) falsy_record = JInt 0
  /\ item_quantity (JDict falsy_record) = Ok (JInt 3).
Proof. repeat split; reflexivity. Qed.

(** C8, amended: each field is the first true value among its candidate
    keys, a candidate that is absent, [None] or false (such as [""] or
    [0]) being passed over, with the defaults ["UNKNOWN"], [0] and [1].
    The last two parts spell out what "first true value" means. *)
Theorem item_fields_first_truthy (d : list (string * json)) :
  item_name (JDict d) = Ok (first_truthy name_keys (JStr "UNKNOWN") d)
  /\ item_cents (JDict d) = Ok (first_truthy price_keys (JInt 0) d)
  /\ item_quantity (JDict d) = Ok (first_truthy quantity_keys (JInt 1) d)
  /\ (forall keys dflt,
        Forall (fun k => truthy (dict_get d k) = false) keys ->
        first_truthy keys dflt d = dflt)
  /\ (forall skipped k later dflt,
        Forall (fun k' => truthy (dict_get d k') = false) skipped ->
        truthy (dict_get d k) = true ->
        first_truthy (skipped ++ k :: later) dflt d = dict_get d k).
Proof.
  destruct (item_fields_resolve d) as (Hn & Hc & Hq).
  repeat split; try assumption.
  - intros keys dflt H. induction H as [ | k r Hk _ IH]; simpl;
      [reflexivity | rewrite Hk; exact IH].
  - intros skipped k later dflt H Hk.
    induction H as [ | k' r Hk' _ IH]; simpl;
      [rewrite Hk; reflexivity | rewrite Hk'; exact IH].
Qed.

(** On [falsy_record] the name is the value of the second candidate. *)
Lemma item_fields_first_truthy_witness :
  item_name (JDict falsy_record) = Ok (dict_get falsy_record "market_hash_name").
Proof.
  destruct (item_fields_first_truthy falsy_record) as (Hname & _ & _ & _ & Hfirst).
  exact (eq_trans Hname
           (f_equal Ok
              (Hfirst ["name"] "market_hash_name" ["title"] (JStr "UNKNOWN")
                 (Forall_cons "name" eq_refl (Forall_nil _)) eq_refl))).
Defined.

Section AggregatorProps.
Variable str_to_float : string -> option float.
Variable str_to_int : string -> option Z.

(** What [merge_item] does when it returns. *)
Lemma merge_item_ok (agg agg' : aggregate) (it : json) :
  merge_item str_to_float str_to_int agg it = Ok agg' ->
  exists name cents q qty,
    item_name it = Ok name
    /\ item_cents it = Ok cents
    /\ item_quantity it = Ok q
    /\ py_int str_to_int q = Ok qty
    /\ hashable name = true
    /\ agg' = add_to_entry name qty (item_price str_to_float cents) agg.
Proof.
  unfold merge_item.
  destruct (item_name it) as [name | ]; simpl; [ | discriminate].
  destruct (item_cents it) as [cents | ]; simpl; [ | discriminate].
  destruct (item_quantity it) as [q | ]; simpl; [ | discriminate].
  destruct (py_int str_to_int q) as [qty | ] eqn:Hi; simpl; [ | discriminate].
  destruct (hashable name) eqn:Hh; [ | discriminate].
  intros [= <-]. exists name, cents, q, qty. repeat split; assumption.
Qed.

(** C1: merging the Widget record into the empty aggregate gives
    [{"Widget": {"amount": 2, "total_price": 2.5}}]; and whenever a record
    is merged, the entry under its name gains the record's quantity in
    [amount] and, once, the record's price [float(cents) / 100.0] (or
    [0.0] when the conversion fails) in [total_price], the quantity taking
    no part in the price. *)
Theorem merge_inventory_adds_price_once :
  merge_inventory str_to_float str_to_int [] [widget]
  = Returns [(JStr "Widget", {| amount := 2; total_price := 2.5%float |})]
  /\ (forall agg it agg',
        merge_item str_to_float str_to_int agg it = Ok agg' ->
        exists name cents q qty,
          item_name it = Ok name
          /\ item_cents it = Ok cents
          /\ item_quantity it = Ok q
          /\ py_int str_to_int q = Ok qty
          /\ item_price str_to_float cents
             = match py_float str_to_float cents with
               | Ok f => (f / 100)%float
               | Raise _ => 0%float
               end
          /\ find_entry name agg'
             = Some {| amount := amount (entry_or_zero name agg) + qty;
                       total_price :=
                         (total_price (entry_or_zero name agg)
                          + item_price str_to_float cents)%float |}
          /\ (forall rest,
                merge_inventory str_to_float str_to_int agg (it :: rest)
                = merge_inventory str_to_float str_to_int agg' rest)).
Proof.
  split; [reflexivity | ].
  intros agg it agg' H.
  destruct (merge_item_ok agg agg' it H)
    as (name & cents & q & qty & Hn & Hc & Hq & Hi & Hh & ->).
  exists name, cents, q, qty. repeat split; auto.
  - unfold item_price. destruct (py_float str_to_float cents); reflexivity.
  - apply find_entry_add, Hh.
  - intros rest. simpl. rewrite H. reflexivity.
Qed.

(** The price half of C2: a price that [float] rejects counts as [0.0]. *)
Lemma item_price_default (cents : json) (e : exn) :
  py_float str_to_float cents = Raise e ->
  item_price str_to_float cents = 0%float.
Proof. unfold item_price. intros ->. reflexivity. Qed.

(** The price never stops a record: [merge_item] raises only where the
    record is not an object, its quantity is rejected by [int], or its
    name cannot be a key. *)
Lemma merge_item_raises (agg : aggregate) (it : json) (e : exn) :
  merge_item str_to_float str_to_int agg it = Raise e ->
  is_dict it = false
  \/ (exists q, item_quantity it = Ok q /\ py_int str_to_int q = Raise e)
  \/ (exists name, item_name it = Ok name /\ hashable name = false).
Proof.
  destruct it as [ | | | | | | d]; simpl; auto. intros H. right.
  unfold merge_item in H.
  destruct (item_fields_resolve d) as (Hn & Hc & Hq).
  rewrite Hn, Hc, Hq in H. cbn [bind] in H.
  destruct (py_int str_to_int (first_truthy quantity_keys (JInt 1) d))
    as [qty | e'] eqn:Hi; cbn [bind] in H.
  - destruct (hashable (first_truthy name_keys (JStr "UNKNOWN") d)) eqn:Hh;
      [discriminate | ].
    right. eexists. split; [exact Hn | exact Hh].
  - injection H as <-. left. eexists. split; [exact Hq | exact Hi].
Qed.
End AggregatorProps.

(** The Widget record merged by the reference conversions. *)
Lemma merge_inventory_adds_price_once_witness :
  exists agg',
    merge_item PyRef.str_to_float PyRef.str_to_int [] widget = Ok agg'
    /\ exists name,
         item_name widget = Ok name
         /\ find_entry name agg'
            = Some {| amount := 0 + 2; total_price := (0 + 2.5)%float |}.
Proof.
  eexists. split; [reflexivity | ].
  destruct (proj2 (merge_inventory_adds_price_once
                     PyRef.str_to_float PyRef.str_to_int)
              [] widget _ eq_refl)
    as (name & cents & q & qty & Hn & Hc & Hq & Hi & _ & Hf & _).
  exists name. split; [exact Hn | ].
  injection Hc as <-. injection Hq as <-. injection Hi as <-.
  exact Hf.
Defined.

(** ** The Frame Extractor and the Socket.IO Decoder *)

Lemma thrown_app_throw {A : Type} (g h : gen A) (e : exn) :
  thrown (gen_app g (gen_app (Throw e) h)) <> None.
Proof. induction g; simpl; auto; discriminate. Qed.

Lemma gen_app_throw {A : Type} (g h : gen A) (e : exn) :
  gen_app g (gen_app (Throw e) h) = gen_app g (Throw e).
Proof. induction g; simpl; congruence. Qed.

Section DecodingProps.
Variable json_loads : string -> result json.

Lemma collect_messages_app (raw out : list json) :
  collect_messages json_loads raw out
  = out ++ flat_map (emitted json_loads) raw.
Proof.
  revert out. induction raw as [ | e rest IH]; intros out; simpl.
  - symmetry. apply app_nil_r.
  - unfold emitted at 1. destruct (entry_message json_loads e) as [msg | x].
    + rewrite IH, <- app_assoc. reflexivity.
    + apply IH.
Qed.

(** What the code extracts from an entry is what the specification calls
    the message of a well-formed entry. *)
Lemma entry_message_well_formed (e msg : json) :
  entry_message json_loads e = Ok msg
  <-> well_formed_message json_loads e = Some msg.
Proof.
  unfold entry_message, well_formed_message.
  destruct e as [ | b | z | f | s | l | d]; simpl;
    try (split; discriminate).
  destruct (lookup "message" d) as [[ | b | z | f | text | l | d'] | ];
    simpl; try (split; discriminate).
  destruct (json_loads text) as [[ | b | z | f | s | l | doc] | x]; simpl;
    try (split; discriminate).
  destruct (lookup "message" doc) as [m | ]; simpl;
    [split; intros [= ->]; reflexivity | split; discriminate].
Qed.

Lemma emitted_well_formed (e : json) :
  emitted json_loads e
  = match well_formed_message json_loads e with
    | Some msg => [msg]
    | None => []
    end.
Proof.
  unfold emitted.
  destruct (well_formed_message json_loads e) as [msg | ] eqn:E.
  - apply entry_message_well_formed in E. rewrite E. reflexivity.
  - destruct (entry_message json_loads e) as [msg | x] eqn:E';
      [ | reflexivity].
    apply entry_message_well_formed in E'. congruence.
Qed.

(** C9: [safe_get_perf] always returns, with no message when the log
    cannot be read.  What it returns for a log is the messages of the
    well-formed entries, in the order of the log, where an entry is
    well-formed when it is an object whose ["message"] is a text that is
    the JSON of an object with a ["message"]: an entry that is not (the
    text is not JSON, or the document has no ["message"]) is dropped, and
    every well-formed entry before and after it is emitted.  What the
    code extracts from an entry is the message of a well-formed entry and
    nothing else. *)
Theorem safe_get_perf_isolates_failures :
  (forall get_log, exists out, safe_get_perf json_loads get_log = Ok out)
  /\ (forall e, safe_get_perf json_loads (Raise e) = Ok [])
  /\ (forall raw,
        safe_get_perf json_loads (Ok raw)
        = Ok (well_formed_messages json_loads raw))
  /\ (forall before bad after,
        well_formed_message json_loads bad = None ->
        safe_get_perf json_loads (Ok (before ++ bad :: after))
        = Ok (well_formed_messages json_loads before
                ++ well_formed_messages json_loads after))
  /\ (forall before good after msg,
        well_formed_message json_loads good = Some msg ->
        safe_get_perf json_loads (Ok (before ++ good :: after))
        = Ok (well_formed_messages json_loads before
                ++ msg :: well_formed_messages json_loads after))
  /\ (forall d text x,
        lookup "message" d = Some (JStr text) ->
        json_loads text = Raise x ->
        well_formed_message json_loads (JDict d) = None)
  /\ (forall d text doc msg,
        lookup "message" d = Some (JStr text) ->
        json_loads text = Ok (JDict doc) ->
        lookup "message" doc = Some msg ->
        well_formed_message json_loads (JDict d) = Some msg)
  /\ (forall e msg,
        entry_message json_loads e = Ok msg
        <-> well_formed_message json_loads e = Some msg).
Proof.
  assert (E : forall raw,
             safe_get_perf json_loads (Ok raw)
             = Ok (well_formed_messages json_loads raw)).
  { intros raw. unfold safe_get_perf, well_formed_messages.
    rewrite collect_messages_app. simpl. f_equal.
    induction raw as [ | e rest IH]; simpl; [reflexivity | ].
    rewrite emitted_well_formed, IH. reflexivity. }
  split; [ | split; [ | split; [ | split; [ | split; [ | split; [ | split]]]]]].
  - intros [raw | x]; eexists; [apply E | reflexivity].
  - reflexivity.
  - exact E.
  - intros before bad after H. rewrite E. unfold well_formed_messages.
    rewrite flat_map_app. simpl. rewrite H. reflexivity.
  - intros before good after msg H. rewrite E. unfold well_formed_messages.
    rewrite flat_map_app. simpl. rewrite H. reflexivity.
  - intros d text x Hd Ht. unfold well_formed_message. rewrite Hd, Ht.
    reflexivity.
  - intros d text doc msg Hd Ht Hm. unfold well_formed_message.
    rewrite Hd, Ht. exact Hm.
  - apply entry_message_well_formed.
Qed.

Lemma parse_socketio_prefixed (s : string) :
  prefix "42" s = true ->
  parse_socketio json_loads (JStr s)
  = match json_loads (string_drop 2 s) with
    | Ok (JList (x :: xs)) => Ok (Some (x, xs))
    | _ => Ok None
    end.
Proof.
  intros H. unfold parse_socketio. rewrite H. cbn [negb].
  destruct (json_loads (string_drop 2 s)) as [[ | | | | | [ | x xs] | ] | e];
    reflexivity.
Qed.

Lemma parse_socketio_unprefixed (s : string) :
  prefix "42" s = false -> parse_socketio json_loads (JStr s) = Ok None.
Proof. intros H. unfold parse_socketio. rewrite H. reflexivity. Qed.

(** C3: [parse_socketio] never raises; it returns an event exactly for a
    [str] payload that starts with ["42"] and whose remainder decodes to
    a non-empty list, the event being the first element and the list of
    the others; every other payload gives [None]; and the payload
    [42["priceUpdate",{"x":1}]] decodes to the event ["priceUpdate"] with
    the arguments [[{"x": 1}]]. *)
Theorem parse_socketio_event_iff :
  (forall payload, exists r, parse_socketio json_loads payload = Ok r)
  /\ (forall payload name args,
        parse_socketio json_loads payload = Ok (Some (name, args))
        <-> exists s,
              payload = JStr s
              /\ prefix "42" s = true
              /\ json_loads (string_drop 2 s) = Ok (JList (name :: args)))
  /\ (forall payload,
        is_str payload = false ->
        parse_socketio json_loads payload = Ok None)
  /\ (forall s,
        prefix "42" s = false ->
        parse_socketio json_loads (JStr s) = Ok None)
  /\ (forall s e,
        json_loads (string_drop 2 s) = Raise e ->
        parse_socketio json_loads (JStr s) = Ok None)
  /\ (forall s v,
        json_loads (string_drop 2 s) = Ok v ->
        (forall x xs, v <> JList (x :: xs)) ->
        parse_socketio json_loads (JStr s) = Ok None)
  /\ (json_loads price_update_text = Ok price_update_doc ->
      parse_socketio json_loads (JStr ("42" ++ price_update_text))
      = Ok (Some (JStr "priceUpdate", [JDict [("x", JInt 1)]]))).
Proof.
  repeat split.
  - intros payload.
    destruct payload as [ | | | | s | | ]; try (eexists; reflexivity).
    destruct (prefix "42" s) eqn:Hp.
    + rewrite (parse_socketio_prefixed s Hp).
      destruct (json_loads (string_drop 2 s))
        as [[ | | | | | [ | x xs] | ] | e]; eexists; reflexivity.
    + rewrite (parse_socketio_unprefixed s Hp). eexists; reflexivity.
  - destruct payload as [ | | | | s | | ]; try discriminate.
    destruct (prefix "42" s) eqn:Hp.
    + rewrite (parse_socketio_prefixed s Hp).
      destruct (json_loads (string_drop 2 s))
        as [[ | | | | | [ | x xs] | ] | e] eqn:Hl; try discriminate.
      intros [= <- <-]. exists s. auto.
    + rewrite (parse_socketio_unprefixed s Hp). discriminate.
  - intros (s & -> & Hp & Hl).
    rewrite (parse_socketio_prefixed s Hp), Hl. reflexivity.
  - intros payload H. destruct payload; try reflexivity; discriminate.
  - apply parse_socketio_unprefixed.
  - intros s e H. destruct (prefix "42" s) eqn:Hp.
    + rewrite (parse_socketio_prefixed s Hp), H. reflexivity.
    + apply parse_socketio_unprefixed, Hp.
  - intros s v H Hv. destruct (prefix "42" s) eqn:Hp.
    + rewrite (parse_socketio_prefixed s Hp), H.
      destruct v as [ | | | | | [ | x xs] | ]; try reflexivity.
      exfalso. apply (Hv x xs). reflexivity.
    + apply parse_socketio_unprefixed, Hp.
  - intros H.
    rewrite (parse_socketio_prefixed ("42" ++ price_update_text) eq_refl).
    change (string_drop 2 ("42" ++ price_update_text)) with price_update_text.
    rewrite H. reflexivity.
Qed.
End DecodingProps.

(** The reference decoder on the payload of the spec. *)
Lemma parse_socketio_event_iff_witness :
  parse_socketio PyRef.json_loads (JStr ("42" ++ price_update_text))
  = Ok (Some (JStr "priceUpdate", [JDict [("x", JInt 1)]])).
Proof.
  apply (proj2 (proj2 (proj2 (proj2 (proj2 (proj2
           (parse_socketio_event_iff PyRef.json_loads))))))).
  vm_compute. reflexivity.
Defined.

(** A log of three entries, the second of which is not JSON: the
    messages of the first and of the third are returned. *)
Lemma safe_get_perf_isolates_failures_witness :
  safe_get_perf PyRef.json_loads
    (Ok ([log_entry (frame_text "Network.webSocketFrameReceived" "2")]
           ++ log_entry "not json"
           :: [log_entry (frame_text "Network.webSocketFrameSent" "3")]))
  = Ok [frame_msg "Network.webSocketFrameReceived" "2";
        frame_msg "Network.webSocketFrameSent" "3"].
Proof.
  rewrite (proj1 (proj2 (proj2 (proj2
             (safe_get_perf_isolates_failures PyRef.json_loads))))
             [log_entry (frame_text "Network.webSocketFrameReceived" "2")]
             (log_entry "not json")
             [log_entry (frame_text "Network.webSocketFrameSent" "3")]
             ltac:(vm_compute; reflexivity)).
  vm_compute. reflexivity.
Defined.

(** ** Equality and content of documents *)

Lemma py_eq_JList (l m : list json) :
  py_eq (JList l) (JList m) = forall2b py_eq l m.
Proof.
  revert m. induction l as [ | x l IH]; intros [ | y m]; try reflexivity.
  simpl in *. rewrite <- IH. reflexivity.
Qed.

Lemma py_eq_JDict (d e : list (string * json)) :
  py_eq (JDict d) (JDict e)
  = (List.length d =? List.length e)%nat
    && forallb (fun kv => match lookup (fst kv) e with
                          | Some w => py_eq (snd kv) w
                          | None => false
                          end) d.
Proof.
  simpl. f_equal. induction d as [ | [k v] d IH]; simpl; [reflexivity | ].
  rewrite IH. reflexivity.
Qed.

Lemma same_content_JList (l m : list json) :
  same_content (JList l) (JList m) = forall2b same_content l m.
Proof.
  revert m. induction l as [ | x l IH]; intros [ | y m]; try reflexivity.
  simpl in *. rewrite <- IH. reflexivity.
Qed.

Lemma same_content_JDict (d e : list (string * json)) :
  same_content (JDict d) (JDict e)
  = (List.length d =? List.length e)%nat
    && forallb (fun kv => match lookup (fst kv) e with
                          | Some w => same_content (snd kv) w
                          | None => false
                          end) d.
Proof.
  simpl. f_equal. induction d as [ | [k v] d IH]; simpl; [reflexivity | ].
  rewrite IH. reflexivity.
Qed.

Lemma distinct_keys_NoDup (ks : list string) :
  distinct_keys ks = true <-> NoDup ks.
Proof.
  induction ks as [ | k r IH]; simpl.
  - split; [constructor | reflexivity].
  - rewrite andb_true_iff, negb_true_iff, IH. split.
    + intros [Hk Hr]. constructor; [ | exact Hr].
      intros Hin. assert (existsb (String.eqb k) r = true); [ | congruence].
      apply existsb_exists. exists k. split; [exact Hin | apply String.eqb_refl].
    + intros H. inversion H as [ | ? ? Hk Hr]; subst. split; [ | exact Hr].
      destruct (existsb (String.eqb k) r) eqn:E; [ | reflexivity].
      apply existsb_exists in E. destruct E as (k' & Hin & Heq).
      apply String.eqb_eq in Heq. subst. contradiction.
Qed.

Lemma lookup_Some_In (k : string) (v : json) (d : list (string * json)) :
  lookup k d = Some v -> In (k, v) d.
Proof.
  induction d as [ | [k' v'] d IH]; simpl; [discriminate | ].
  destruct (String.eqb_spec k k') as [-> | Hne].
  - intros [= ->]. left. reflexivity.
  - intros H. right. apply IH, H.
Qed.

Lemma lookup_None_notin (k : string) (d : list (string * json)) :
  lookup k d = None <-> ~ In k (map fst d).
Proof.
  induction d as [ | [k' v'] d IH]; simpl; [tauto | ].
  destruct (String.eqb_spec k k') as [-> | Hne].
  - split; [discriminate | intros H; exfalso; auto].
  - rewrite IH. split; [intros H [E | Hin]; [congruence | auto] | tauto].
Qed.

Lemma In_lookup (k : string) (v : json) (d : list (string * json)) :
  NoDup (map fst d) -> In (k, v) d -> lookup k d = Some v.
Proof.
  induction d as [ | [k' v'] d IH]; simpl; [tauto | ].
  intros Hnd Hin. inversion Hnd as [ | ? ? Hk Hr]; subst.
  destruct Hin as [[= -> ->] | Hin].
  - rewrite String.eqb_refl. reflexivity.
  - destruct (String.eqb_spec k k') as [-> | Hne]; [ | auto].
    exfalso. apply Hk. apply (in_map fst) in Hin. exact Hin.
Qed.

Lemma wf_JDict (d : list (string * json)) :
  wf_json (JDict d) = true ->
  NoDup (map fst d) /\ forall k v, In (k, v) d -> wf_json v = true.
Proof.
  simpl. rewrite andb_true_iff, distinct_keys_NoDup, forallb_forall.
  intros [Hnd Hall]. split; [exact Hnd | ].
  intros k v Hin. apply (Hall (k, v) Hin).
Qed.

Lemma wf_JList (l : list json) :
  wf_json (JList l) = true -> Forall (fun x => wf_json x = true) l.
Proof. simpl. rewrite forallb_forall, Forall_forall. auto. Qed.

(** What [same_content] says of two dicts. *)
Lemma same_content_dict_lookup (d e : list (string * json)) :
  same_content (JDict d) (JDict e) = true ->
  List.length d = List.length e
  /\ forall k v, In (k, v) d ->
       exists w, lookup k e = Some w /\ same_content v w = true.
Proof.
  rewrite same_content_JDict, andb_true_iff, Nat.eqb_eq, forallb_forall.
  intros [Hlen Hall]. split; [exact Hlen | ].
  intros k v Hin. specialize (Hall (k, v) Hin). simpl in Hall.
  destruct (lookup k e) as [w | ]; [ | discriminate]. exists w. auto.
Qed.

(** Two dicts with the same content have the same keys. *)
Lemma same_content_dict_keys (d e : list (string * json)) (k : string) :
  NoDup (map fst d) ->
  same_content (JDict d) (JDict e) = true ->
  lookup k d = None -> lookup k e = None.
Proof.
  intros Hnd Hsame Hnone.
  destruct (same_content_dict_lookup d e Hsame) as [Hlen Hall].
  assert (Hincl : incl (map fst d) (map fst e)).
  { intros k' Hin. apply in_map_iff in Hin. destruct Hin as ([k'' v] & <- & Hin).
    destruct (Hall k'' v Hin) as (w & Hw & _).
    apply lookup_Some_In in Hw. apply (in_map fst) in Hw. exact Hw. }
  assert (Hback : incl (map fst e) (map fst d)).
  { apply NoDup_length_incl; [exact Hnd | | exact Hincl].
    rewrite !length_map, Hlen. apply Nat.le_refl. }
  apply lookup_None_notin. intros Hin. apply lookup_None_notin in Hnone.
  apply Hnone, Hback, Hin.
Qed.

Lemma same_content_shape (a b : json) :
  same_content a b = true ->
  match a with
  | JList _ => exists m, b = JList m
  | JDict _ => exists e, b = JDict e
  | _ => a = b
  end.
Proof.
  destruct a, b; simpl; try discriminate; intros H; eauto.
  - apply Bool.eqb_prop in H. congruence.
  - apply Z.eqb_eq in H. congruence.
  - apply FloatAxioms.Leibniz.eqb_spec in H. congruence.
  - apply String.eqb_eq in H. congruence.
Qed.

(** [==] does not tell apart two documents with the same content. *)
Lemma py_eq_same_content (x : json) :
  forall a b,
    same_content a b = true -> wf_json a = true -> wf_json b = true ->
    py_eq x a = py_eq x b.
Proof.
  induction x as [ | bx | zx | fx | sx | l IH | d IH] using json_ind;
    intros a b Hsame Ha Hb;
    pose proof (same_content_shape a b Hsame) as Hshape;
    destruct a as [ | ? | ? | ? | ? | la | da];
    try (rewrite <- Hshape; reflexivity);
    try (destruct Hshape as [? ->]; reflexivity).
  - (* two lists against a list *)
    destruct Hshape as [lb ->]. rewrite !py_eq_JList.
    rewrite same_content_JList in Hsame.
    apply wf_JList in Ha. apply wf_JList in Hb.
    revert la lb Hsame Ha Hb.
    induction IH as [ | x l Hx _ IHl]; intros la lb Hsame Ha Hb.
    + destruct la, lb; simpl in *; try reflexivity; discriminate.
    + destruct la as [ | y la], lb as [ | y' lb]; simpl in *;
        try reflexivity; try discriminate.
      apply andb_true_iff in Hsame. destruct Hsame as [Hy Hrest].
      inversion Ha; subst. inversion Hb; subst.
      rewrite (Hx y y') by assumption.
      rewrite (IHl la lb) by assumption. reflexivity.
  - (* two dicts against a dict *)
    destruct Hshape as [db ->]. rewrite !py_eq_JDict.
    destruct (same_content_dict_lookup da db Hsame) as [Hlen Hall].
    destruct (wf_JDict da Ha) as [Hnda Hwa].
    destruct (wf_JDict db Hb) as [Hndb Hwb].
    rewrite Hlen. f_equal.
    induction IH as [ | [k v] d Hv _ IHd]; simpl; [reflexivity | ].
    rewrite IHd. f_equal.
    destruct (lookup k da) as [w | ] eqn:Hw.
    + apply lookup_Some_In in Hw.
      destruct (Hall k w Hw) as (w' & Hw' & Hww). rewrite Hw'.
      apply Hv; [exact Hww | apply (Hwa k w Hw) | ].
      apply (Hwb k w'), lookup_Some_In, Hw'.
    + rewrite (same_content_dict_keys da db k Hnda Hsame Hw). reflexivity.
Qed.

Lemma py_eq_refl (a : json) : wf_json a = true -> py_eq a a = true.
Proof.
  induction a as [ | b | z | f | s | l IH | d IH] using json_ind; intros Hwf;
    try (apply py_eq_refl_hashable; reflexivity).
  - rewrite py_eq_JList. apply wf_JList in Hwf.
    induction IH as [ | x l Hx _ IHl]; simpl; [reflexivity | ].
    inversion Hwf; subst. rewrite Hx, IHl by assumption. reflexivity.
  - rewrite py_eq_JDict, Nat.eqb_refl. simpl.
    destruct (wf_JDict d Hwf) as [Hnd Hw].
    apply forallb_forall. intros [k v] Hin. simpl.
    rewrite (In_lookup k v d Hnd Hin).
    rewrite Forall_forall in IH. apply (IH (k, v) Hin), (Hw k v Hin).
Qed.

Lemma same_content_py_eq (a b : json) :
  same_content a b = true -> wf_json a = true -> wf_json b = true ->
  py_eq a b = true.
Proof.
  intros Hsame Ha Hb.
  rewrite <- (py_eq_same_content a a b Hsame Ha Hb). apply py_eq_refl, Ha.
Qed.

(** ** Sorting the members of a dict *)

Lemma string_compare_le_trans (a b c : string) :
  (a ?= b)%string <> Gt -> (b ?= c)%string <> Gt -> (a ?= c)%string <> Gt.
Proof.
  revert b c. induction a as [ | x a IH]; intros [ | y b] [ | z c]; simpl;
    try congruence.
  unfold Ascii.compare.
  destruct (N.compare_spec (N_of_ascii x) (N_of_ascii y)) as [Exy | Lxy | Gxy];
    destruct (N.compare_spec (N_of_ascii y) (N_of_ascii z)) as [Eyz | Lyz | Gyz];
    destruct (N.compare_spec (N_of_ascii x) (N_of_ascii z)) as [Exz | Lxz | Gxz];
    try congruence; try lia.
  apply IH.
Qed.

Lemma string_leb_trans (a b c : string) :
  (a <=? b)%string = true -> (b <=? c)%string = true ->
  (a <=? c)%string = true.
Proof.
  unfold String.leb. intros Hab Hbc.
  pose proof (string_compare_le_trans a b c) as H.
  destruct (a ?= b)%string; destruct (b ?= c)%string;
    destruct (a ?= c)%string; try reflexivity; try discriminate;
    exfalso; apply H; congruence.
Qed.

Lemma insert_member_perm (x : string * string) (l : list (string * string)) :
  Permutation (insert_member x l) (x :: l).
Proof.
  induction l as [ | y r IH]; simpl; [reflexivity | ].
  destruct (fst x <=? fst y)%string; [reflexivity | ].
  rewrite IH. apply perm_swap.
Qed.

Lemma sort_members_perm (l : list (string * string)) :
  Permutation (sort_members l) l.
Proof.
  induction l as [ | x r IH]; simpl; [reflexivity | ].
  rewrite insert_member_perm, IH. reflexivity.
Qed.

Lemma insert_member_sorted (x : string * string) (l : list (string * string)) :
  StronglySorted key_le l -> StronglySorted key_le (insert_member x l).
Proof.
  induction 1 as [ | y r Hr IH Hy]; simpl.
  - repeat constructor.
  - destruct (fst x <=? fst y)%string eqn:E.
    + constructor; [constructor; assumption | ].
      constructor; [exact E | ].
      eapply Forall_impl; [ | exact Hy].
      intros z Hz. unfold key_le in *. eapply string_leb_trans; eassumption.
    + constructor; [exact IH | ].
      assert (Hyx : key_le y x).
      { unfold key_le. destruct (String.leb_total (fst x) (fst y)); congruence. }
      eapply Permutation_Forall;
        [symmetry; apply insert_member_perm | constructor; assumption].
Qed.

Lemma sort_members_sorted (l : list (string * string)) :
  StronglySorted key_le (sort_members l).
Proof.
  induction l as [ | x r IH]; simpl;
    [constructor | apply insert_member_sorted, IH].
Qed.

(** Members with distinct keys have one sorted arrangement. *)
Lemma sorted_members_unique (l m : list (string * string)) :
  StronglySorted key_le l -> StronglySorted key_le m ->
  NoDup (map fst l) -> Permutation l m -> l = m.
Proof.
  intros Hl. revert m. induction Hl as [ | x l Hl IH Hx]; intros m Hm Hnd Hp.
  - apply Permutation_nil in Hp. congruence.
  - destruct Hm as [ | y m Hm Hy].
    + symmetry in Hp. apply Permutation_nil in Hp. discriminate.
    + assert (Exy : x = y).
      { assert (Hxin : In x (y :: m)).
        { eapply Permutation_in; [exact Hp | left; reflexivity]. }
        assert (Hyin : In y (x :: l)).
        { eapply Permutation_in; [symmetry; exact Hp | left; reflexivity]. }
        destruct Hxin as [E | Hxm]; [congruence | ].
        destruct Hyin as [E | Hyl]; [congruence | ].
        rewrite Forall_forall in Hx, Hy.
        pose proof (Hx y Hyl) as Hxy. pose proof (Hy x Hxm) as Hyx.
        assert (Ek : fst x = fst y) by (apply String.leb_antisym; assumption).
        exfalso. inversion Hnd as [ | ? ? Hnotin _]; subst.
        apply Hnotin. rewrite Ek. apply in_map, Hyl. }
      subst y. f_equal. apply IH; [exact Hm | | ].
      * inversion Hnd; assumption.
      * eapply Permutation_cons_inv, Hp.
Qed.

Lemma sort_members_permutation (l m : list (string * string)) :
  NoDup (map fst l) -> Permutation l m -> sort_members l = sort_members m.
Proof.
  intros Hnd Hp. apply sorted_members_unique.
  - apply sort_members_sorted.
  - apply sort_members_sorted.
  - eapply Permutation_NoDup; [ | exact Hnd].
    apply Permutation_map. symmetry. apply sort_members_perm.
  - rewrite sort_members_perm, Hp. symmetry. apply sort_members_perm.
Qed.

(** ** Signatures *)

Section SignatureProps.
Variable float_repr : float -> string.

(** The serialization with sorted keys depends on the content only. *)
Lemma json_dumps_same_content (a : json) :
  forall b,
    same_content a b = true -> wf_json a = true -> wf_json b = true ->
    json_dumps float_repr a = json_dumps float_repr b.
Proof.
  induction a as [ | ba | za | fa | sa | la IH | da IH] using json_ind;
    intros b Hsame Ha Hb;
    pose proof (same_content_shape _ b Hsame) as Hshape;
    try (rewrite <- Hshape; reflexivity).
  - destruct Hshape as [lb ->].
    assert (E : map (json_dumps float_repr) la = map (json_dumps float_repr) lb).
    { rewrite same_content_JList in Hsame.
      apply wf_JList in Ha. apply wf_JList in Hb.
      revert lb Hsame Hb.
      induction IH as [ | x l Hx _ IHl]; intros [ | y lb] Hsame Hb;
        simpl in *; try reflexivity; try discriminate.
      apply andb_true_iff in Hsame. destruct Hsame as [Hy Hrest].
      inversion Ha; subst. inversion Hb; subst.
      rewrite (Hx y), (IHl ltac:(assumption) lb) by assumption. reflexivity. }
    simpl. rewrite E. reflexivity.
  - destruct Hshape as [db ->].
    destruct (same_content_dict_lookup da db Hsame) as [Hlen Hall].
    destruct (wf_JDict da Ha) as [Hnda Hwa].
    destruct (wf_JDict db Hb) as [Hndb Hwb].
    set (render := fun kv : string * json =>
                     (fst kv, json_dumps float_repr (snd kv))).
    assert (Hkeys : forall d, map fst (map render d) = map fst d).
    { intros d. rewrite map_map. reflexivity. }
    assert (E : sort_members (map render da) = sort_members (map render db)).
    { apply sort_members_permutation; [rewrite Hkeys; exact Hnda | ].
      apply NoDup_Permutation_bis.
      + apply (NoDup_map_inv fst). rewrite Hkeys. exact Hnda.
      + rewrite !length_map, Hlen. apply Nat.le_refl.
      + intros m Hm. apply in_map_iff in Hm.
        destruct Hm as ([k v] & <- & Hin).
        destruct (Hall k v Hin) as (w & Hw & Hvw).
        apply lookup_Some_In in Hw.
        rewrite Forall_forall in IH.
        pose proof (IH (k, v) Hin w Hvw (Hwa k v Hin) (Hwb k w Hw)) as Ev.
        simpl in Ev. unfold render at 1. simpl. rewrite Ev.
        apply (in_map render _ (k, w)), Hw. }
    simpl. fold render. rewrite E. reflexivity.
Qed.

Lemma sig_eq_refl (s : signature) :
  wf_json (snd (fst s)) = true -> sig_eq s s = true.
Proof.
  destruct s as [[d n] t]. simpl. intros Hn.
  rewrite !String.eqb_refl, (py_eq_refl n Hn). reflexivity.
Qed.
End SignatureProps.

(** ** The Dedup Filter *)

Lemma tl_skipn {A : Type} (l : list A) : tl l = skipn 1 l.
Proof. destruct l; reflexivity. Qed.

Lemma lastn_short {A : Type} (n : nat) (l : list A) :
  (List.length l <= n)%nat -> lastn n l = l.
Proof.
  intros H. unfold lastn.
  replace (List.length l - n)%nat with 0%nat by lia. reflexivity.
Qed.

Lemma lastn_length {A : Type} (n : nat) (l : list A) :
  (List.length (lastn n l) <= n)%nat.
Proof. unfold lastn. rewrite length_skipn. lia. Qed.

Lemma lastn_app_exact {A : Type} (n : nat) (pre l : list A) :
  List.length l = n -> lastn n (pre ++ l) = l.
Proof.
  intros H. unfold lastn. rewrite length_app, skipn_app.
  replace (List.length pre + List.length l - n)%nat
    with (List.length pre) by lia.
  rewrite skipn_all, Nat.sub_diag. reflexivity.
Qed.

(** Appending to the last [n] elements keeps the last [n] elements. *)
Lemma deque_append_lastn {A : Type} (n : nat) (d : list A) (x : A) :
  deque_append n (lastn n d) x = lastn n (d ++ [x]).
Proof.
  unfold deque_append.
  destruct (Nat.le_gt_cases (List.length d) n) as [Hle | Hgt].
  - rewrite (lastn_short n d Hle).
    destruct (n <? List.length (d ++ [x]))%nat eqn:E.
    + apply Nat.ltb_lt in E. rewrite length_app in E. simpl in E.
      assert (Hn : List.length d = n) by lia.
      rewrite tl_skipn. unfold lastn. rewrite length_app.
      change (List.length [x]) with 1%nat.
      replace (List.length d + 1 - n)%nat with 1%nat by lia. reflexivity.
    + apply Nat.ltb_ge in E. symmetry. apply lastn_short, E.
  - assert (E : (n <? List.length (lastn n d ++ [x]))%nat = true).
    { apply Nat.ltb_lt. unfold lastn.
      rewrite length_app, length_skipn. simpl. lia. }
    rewrite E, tl_skipn. unfold lastn.
    rewrite length_app. change (List.length [x]) with 1%nat.
    replace (List.length d + 1 - n)%nat
      with (1 + (List.length d - n))%nat by lia.
    rewrite <- skipn_skipn. f_equal.
    rewrite skipn_app.
    replace (List.length d - n - List.length d)%nat with 0%nat by lia.
    reflexivity.
Qed.

(** A deque that starts within its bound holds the last [n] of all it was
    given. *)
Lemma deque_fold_lastn {A : Type} (n : nat) (l d : list A) :
  (List.length d <= n)%nat ->
  fold_left (deque_append n) l d = lastn n (d ++ l).
Proof.
  intros Hd. rewrite <- (lastn_short n d Hd) at 1. clear Hd. revert d.
  induction l as [ | x r IH]; intros d; simpl.
  - rewrite app_nil_r. reflexivity.
  - rewrite deque_append_lastn, IH, <- app_assoc. reflexivity.
Qed.

(** The element appended is the last of a deque of positive bound. *)
Lemma deque_append_snoc {A : Type} (n : nat) (d : list A) (x : A) :
  (0 < n)%nat -> exists pre, deque_append n d x = pre ++ [x].
Proof.
  intros Hn. unfold deque_append.
  destruct (n <? List.length (d ++ [x]))%nat eqn:E; [ | exists d; reflexivity].
  destruct d as [ | y d]; simpl in *.
  - apply Nat.ltb_lt in E. lia.
  - exists d. reflexivity.
Qed.

Lemma deque_append_last {A : Type} (n : nat) (d : list A) (x : A) :
  (0 < n)%nat -> In x (deque_append n d x).
Proof.
  intros Hn. destruct (deque_append_snoc n d x Hn) as [pre ->].
  apply in_elt.
Qed.

(** C7: the deque never holds more than 2000 signatures; and after 2001
    signatures, no two of them equal, were appended one after the other,
    it holds exactly the last 2000: the first is not reported present,
    each of the others is. *)
Theorem dedup_filter_evicts_oldest :
  (forall sigs d : list (string * json * string),
      (List.length d <= seen_maxlen)%nat ->
      (List.length (fold_left (deque_append seen_maxlen) sigs d)
       <= seen_maxlen)%nat)
  /\ (forall d first rest,
        (List.length d <= seen_maxlen)%nat ->
        List.length rest = seen_maxlen ->
        distinct_sigs (first :: rest) = true ->
        forallb (fun s => wf_json (snd (fst s))) rest = true ->
        let d' := fold_left (deque_append seen_maxlen) (first :: rest) d in
        d' = rest
        /\ contains d' first = false
        /\ (forall s, In s rest -> contains d' s = true)).
Proof.
  split.
  - intros sigs d Hd. rewrite (deque_fold_lastn _ _ _ Hd). apply lastn_length.
  - intros d first rest Hd Hlen Hdist Hwf d'.
    assert (E : d' = rest).
    { unfold d'. rewrite (deque_fold_lastn _ _ _ Hd).
      change (d ++ first :: rest) with (d ++ [first] ++ rest).
      rewrite app_assoc. apply lastn_app_exact, Hlen. }
    rewrite E. split; [reflexivity | split].
    + simpl in Hdist. apply andb_true_iff in Hdist. destruct Hdist as [Hf _].
      apply negb_true_iff in Hf. unfold contains.
      destruct (existsb (fun x => sig_eq x first) rest) eqn:Ex; [ | reflexivity].
      apply existsb_exists in Ex. destruct Ex as (y & Hy & Hyf).
      assert (existsb (fun y => sig_eq first y || sig_eq y first) rest = true);
        [ | congruence].
      apply existsb_exists. exists y. split; [exact Hy | ].
      rewrite Hyf. apply orb_true_r.
    + intros s Hs. unfold contains. apply existsb_exists. exists s.
      split; [exact Hs | ]. apply sig_eq_refl.
      rewrite forallb_forall in Hwf. apply (Hwf s Hs).
Qed.

(** From the empty deque, the signatures numbered 0 to 2000: number 0 is
    gone. *)
Lemma dedup_filter_evicts_oldest_witness :
  contains
    (fold_left (deque_append seen_maxlen) (numbered_sigs 0 2001) [])
    ("in", JInt 0, "[]")
  = false.
Proof.
  apply (proj2 dedup_filter_evicts_oldest []
           ("in", JInt 0, "[]") (numbered_sigs 1 2000)).
  - apply Nat.le_0_l.
  - vm_compute. reflexivity.
  - vm_compute. reflexivity.
  - vm_compute. reflexivity.
Defined.

(** ** The loop body *)

Lemma contains_congr (l : list signature) (s t : signature) :
  (forall x, sig_eq x s = sig_eq x t) -> contains l s = contains l t.
Proof.
  intros H. unfold contains. induction l as [ | x l IH]; simpl;
    [reflexivity | rewrite H, IH; reflexivity].
Qed.

Section LoopProps.
Variable float_repr : float -> string.
Variable str_to_float : string -> option float.
Variable str_to_int : string -> option Z.
Variable echo : string -> json -> list json -> option exn.
Variable write_json : string -> dumped -> written.

(** The deque after the loop body has handled an event. *)
Lemma handle_event_seen (st : state) (direction : string) (name : json)
    (evt_args : list json) :
  seen (state_of (handle_event float_repr str_to_float str_to_int
      echo write_json
                    st direction name evt_args))
  = if contains (seen st) (make_signature float_repr direction name evt_args)
    then seen st
    else deque_append seen_maxlen (seen st)
           (make_signature float_repr direction name evt_args).
Proof.
  unfold handle_event.
  destruct (contains (seen st) _); [reflexivity | ].
  destruct (echo direction name evt_args); [reflexivity | ].
  destruct (try_extract_inventory evt_args); [reflexivity | ].
  destruct (merge_inventory _ _ _ _); [ | reflexivity].
  destruct (raised _); reflexivity.
Qed.

Lemma deque_append_keeps {A : Type} (n : nat) (pre post : list A) (s x : A) :
  (List.length post + 1 < n)%nat ->
  exists pre', deque_append n (pre ++ s :: post) x = pre' ++ s :: (post ++ [x]).
Proof.
  intros H. unfold deque_append.
  replace ((pre ++ s :: post) ++ [x]) with (pre ++ s :: (post ++ [x]))
    by (rewrite <- app_assoc; reflexivity).
  destruct (n <? List.length (pre ++ s :: post ++ [x]))%nat eqn:E.
  - destruct pre as [ | y pre]; simpl.
    + apply Nat.ltb_lt in E. simpl in E. rewrite length_app in E.
      simpl in E. lia.
    + exists pre. reflexivity.
  - exists pre. reflexivity.
Qed.

(** A signature stays in the deque while fewer than 2000 events have
    been handled since it was appended. *)
Lemma run_events_keeps (mid : list (string * json * list json)) :
  forall st vs st2 s pre post,
    seen st = pre ++ s :: post ->
    (List.length post + List.length mid < seen_maxlen)%nat ->
    run_events float_repr str_to_float str_to_int
        echo write_json st mid = (vs, st2, None) ->
    In s (seen st2).
Proof.
  induction mid as [ | [[d n] a] rest IH]; intros st vs st2 s pre post Hs Hlen.
  - simpl. intros [= _ <-]. rewrite Hs. apply in_elt.
  - simpl. simpl in Hlen.
    pose proof (handle_event_seen st d n a) as Hseen.
    destruct (handle_event float_repr str_to_float str_to_int
        echo write_json st d n a)
      as [v st' | e st']; [ | discriminate].
    cbn [state_of] in Hseen.
    destruct (run_events float_repr str_to_float str_to_int
        echo write_json st' rest)
      as [[vs' st''] e'] eqn:Hrun.
    intros [= _ <- ->].
    destruct (contains (seen st) (make_signature float_repr d n a)).
    + apply (IH st' vs' st'' s pre post);
        [rewrite Hseen; exact Hs | lia | exact Hrun].
    + destruct (deque_append_keeps seen_maxlen pre post s
                  (make_signature float_repr d n a)) as [pre' Hpre]; [lia | ].
      apply (IH st' vs' st'' s pre' (post ++ [make_signature float_repr d n a]));
        [rewrite Hseen, Hs; exact Hpre
        | rewrite length_app; simpl; lia
        | exact Hrun].
Qed.

(** C6, amended: two events with the same direction and with names and
    arguments of the same content, whatever the order of the keys in
    their objects, have signatures that compare equal, the serialized
    arguments being the same string (so the tuples are the same when the
    names are); the loop body skips the second as a duplicate when it
    comes right after the first, and also when the first was new and
    fewer than 2000 events were handled in between. *)
Theorem same_event_is_skipped (st : state) (direction : string)
    (n1 n2 : json) (a1 a2 : list json) :
  wf_json n1 = true -> wf_json n2 = true ->
  wf_json (JList a1) = true -> wf_json (JList a2) = true ->
  same_content n1 n2 = true ->
  same_content (JList a1) (JList a2) = true ->
  json_dumps float_repr (JList a1) = json_dumps float_repr (JList a2)
  /\ sig_eq (make_signature float_repr direction n1 a1)
            (make_signature float_repr direction n2 a2) = true
  /\ (n1 = n2 ->
      make_signature float_repr direction n1 a1
      = make_signature float_repr direction n2 a2)
  /\ handle_event float_repr str_to_float str_to_int echo write_json
       (state_of (handle_event float_repr str_to_float str_to_int
           echo write_json
                    st direction n1 a1))
       direction n2 a2
     = Next Duplicate
         (state_of (handle_event float_repr str_to_float str_to_int
             echo write_json
                      st direction n1 a1))
  /\ (forall mid vs st2,
        contains (seen st) (make_signature float_repr direction n1 a1) = false ->
        (List.length mid < seen_maxlen)%nat ->
        run_events float_repr str_to_float str_to_int echo write_json
          (state_of (handle_event float_repr str_to_float str_to_int
              echo write_json
                       st direction n1 a1))
          mid
        = (vs, st2, None) ->
        handle_event float_repr str_to_float str_to_int
            echo write_json st2 direction n2 a2
        = Next Duplicate st2).
Proof.
  intros Hn1 Hn2 Ha1 Ha2 Hn Ha.
  pose proof (json_dumps_same_content float_repr _ _ Ha Ha1 Ha2) as Hd.
  assert (Hx : forall x,
             sig_eq x (make_signature float_repr direction n1 a1)
             = sig_eq x (make_signature float_repr direction n2 a2)).
  { intros [[d n] t]. unfold make_signature, sig_eq.
    rewrite Hd, (py_eq_same_content n n1 n2 Hn Hn1 Hn2). reflexivity. }
  assert (Hs : sig_eq (make_signature float_repr direction n1 a1)
                 (make_signature float_repr direction n2 a2) = true).
  { rewrite <- Hx. apply sig_eq_refl, Hn1. }
  assert (Hdup : forall st',
             contains (seen st') (make_signature float_repr direction n1 a1)
             = true ->
             handle_event float_repr str_to_float str_to_int echo write_json
               st' direction n2 a2
             = Next Duplicate st').
  { intros st' Hc. unfold handle_event.
    rewrite <- (contains_congr _ _ _ Hx), Hc. reflexivity. }
  assert (Hin : forall l,
             In (make_signature float_repr direction n1 a1) l ->
             contains l (make_signature float_repr direction n1 a1) = true).
  { intros l Hl. unfold contains. apply existsb_exists.
    exists (make_signature float_repr direction n1 a1).
    split; [exact Hl | apply sig_eq_refl, Hn1]. }
  split; [exact Hd | split; [exact Hs | split; [ | split]]].
  - intros <-. unfold make_signature. rewrite Hd. reflexivity.
  - apply Hdup. rewrite handle_event_seen.
    destruct (contains (seen st) (make_signature float_repr direction n1 a1))
      eqn:E; [exact E | ].
    apply Hin, deque_append_last. unfold seen_maxlen. lia.
  - intros mid vs st2 Hnew Hlen Hrun. apply Hdup, Hin.
    pose proof (handle_event_seen st direction n1 a1) as Hseen.
    rewrite Hnew in Hseen.
    assert (Hlast : exists pre,
               seen (state_of (handle_event float_repr str_to_float str_to_int
                   echo write_json
                                 st direction n1 a1))
               = pre ++ [make_signature float_repr direction n1 a1]).
    { rewrite Hseen. apply deque_append_snoc. unfold seen_maxlen. lia. }
    destruct Hlast as [pre Hpre].
    apply (run_events_keeps mid _ vs st2 _ pre [] Hpre); [simpl; lia | exact Hrun].
Qed.



End LoopProps.

(** The duplicate of an event with reordered keys, on the reference
    library. *)
Lemma same_event_is_skipped_witness :
  handle_event PyRef.float_repr PyRef.str_to_float PyRef.str_to_int
      PyRef.echo PyRef.write_json
    (state_of (handle_event PyRef.float_repr PyRef.str_to_float
                 PyRef.str_to_int
                     PyRef.echo PyRef.write_json empty_state "in" (JStr "inventory")
                 stock_args))
    "in" (JStr "inventory") stock_args_reordered
  = Next Duplicate
      (state_of (handle_event PyRef.float_repr PyRef.str_to_float
                   PyRef.str_to_int
                       PyRef.echo PyRef.write_json empty_state "in" (JStr "inventory")
                   stock_args)).
Proof.
  exact (proj1 (proj2 (proj2 (proj2 (same_event_is_skipped
                  PyRef.float_repr PyRef.str_to_float PyRef.str_to_int
                      PyRef.echo PyRef.write_json
                  empty_state "in" (JStr "inventory") (JStr "inventory")
                  stock_args stock_args_reordered
                  eq_refl eq_refl eq_refl eq_refl eq_refl eq_refl))))).
Defined.

(** C6, as stated, fails: the deque keeps 2000 signatures, so when 2000
    other events come between an event and its repetition, the
    repetition is processed again. *)
Lemma repetition_processed_after_eviction :
  fst (fst (run_events PyRef.float_repr PyRef.str_to_float PyRef.str_to_int
      PyRef.echo PyRef.write_json
              empty_state (tick :: numbered_events 1 2000 ++ [tick])))
  = repeat Processed 2002.
Proof. vm_compute. reflexivity. Qed.

(** Right after the event, its repetition is a duplicate. *)
Example repetition_skipped :
  fst (fst (run_events PyRef.float_repr PyRef.str_to_float PyRef.str_to_int
      PyRef.echo PyRef.write_json
              empty_state [tick; tick]))
  = [Processed; Duplicate].
Proof. reflexivity. Qed.

Section FailingInput.
Variable float_repr : float -> string.
Variable str_to_float : string -> option float.
Variable str_to_int : string -> option Z.
Variable echo : string -> json -> list json -> option exn.
Variable write_json : string -> dumped -> written.

(** C2, the code at the failing input: a quantity that is not a number
    makes [merge_inventory] raise [ValueError], and the loop body ends
    with an exception, which is this [ValueError] whenever the echo of
    the event has returned; a price that is not a number does count as
    [0.0]. *)
Theorem non_numeric_quantity_raises (agg : aggregate) (st : state)
    (direction : string) (name : json) :
  str_to_int "abc" = None ->
  merge_inventory str_to_float str_to_int agg [bad_quantity]
  = Raises ValueError agg
  /\ (contains (seen st)
        (make_signature float_repr direction name [JList [bad_quantity]])
      = false ->
      exists e st',
        handle_event float_repr str_to_float str_to_int echo write_json
          st direction name [JList [bad_quantity]]
        = Abort e st'
        /\ (echo direction name [JList [bad_quantity]] = None ->
            e = ValueError))
  /\ (forall cents e,
        py_float str_to_float cents = Raise e ->
        item_price str_to_float cents = 0%float).
Proof.
  intros Habc.
  assert (E : forall g,
             merge_inventory str_to_float str_to_int g [bad_quantity]
             = Raises ValueError g).
  { intros g. unfold merge_inventory, merge_item, bad_quantity. simpl.
    rewrite Habc. reflexivity. }
  split; [apply E | split].
  - intros Hc. unfold handle_event. rewrite Hc.
    destruct (echo direction name [JList [bad_quantity]]) as [e | ].
    + eexists. eexists. split; [reflexivity | discriminate].
    + change (try_extract_inventory [JList [bad_quantity]])
        with [bad_quantity].
      cbv iota. rewrite E. eexists. eexists. split; reflexivity.
  - intros cents e. apply item_price_default.
Qed.
End FailingInput.

(** [int("abc")] fails in the reference library, and the merge raises. *)
Lemma non_numeric_quantity_raises_witness :
  merge_inventory PyRef.str_to_float PyRef.str_to_int [] [bad_quantity]
  = Raises ValueError [].
Proof.
  apply (proj1 (non_numeric_quantity_raises
                  PyRef.float_repr PyRef.str_to_float PyRef.str_to_int
                      PyRef.echo PyRef.write_json
                  [] empty_state "in" JNull eq_refl)).
Defined.

Section PollProps.
Variable json_loads : string -> result json.
Variable float_repr : float -> string.
Variable str_to_float : string -> option float.
Variable str_to_int : string -> option Z.
Variable echo : string -> json -> list json -> option exn.
Variable write_json : string -> dumped -> written.

Lemma ws_frames_app (l m : list json) :
  ws_frames (l ++ m) = gen_app (ws_frames l) (ws_frames m).
Proof.
  induction l as [ | x l IH]; simpl; [reflexivity | ].
  destruct (py_get_default x "method" (JStr "")) as [method | e];
    [ | reflexivity].
  destruct (py_eq method (JStr "Network.webSocketFrameReceived")).
  - destruct (payload_data x); simpl; congruence.
  - destruct (py_eq method (JStr "Network.webSocketFrameSent")); [ | exact IH].
    destruct (payload_data x); simpl; congruence.
Qed.

Lemma iter_ws_frames_ok (raw : list json) :
  iter_ws_frames json_loads (Ok raw)
  = ws_frames (flat_map (emitted json_loads) raw).
Proof.
  unfold iter_ws_frames, safe_get_perf. rewrite collect_messages_app.
  reflexivity.
Qed.

(** C10: there is a log entry whose text is JSON with a ["message"] whose
    method is ["Network.webSocketFrameReceived"] and which has no
    [params.response.payloadData], on which [iter_ws_frames] raises
    [KeyError]: nothing after that entry is yielded, and the poll that
    reads it ends with the exception. *)
Theorem bare_frame_aborts_poll :
  json_loads bare_frame_text = Ok bare_frame_doc ->
  exists entry msg,
    entry = log_entry bare_frame_text
    /\ entry_message json_loads entry = Ok msg
    /\ py_get_default msg "method" (JStr "")
       = Ok (JStr "Network.webSocketFrameReceived")
    /\ payload_data msg = Raise KeyError
    /\ (forall after,
          iter_ws_frames json_loads (Ok (entry :: after)) = Throw KeyError)
    /\ (forall before after,
          thrown (iter_ws_frames json_loads (Ok (before ++ entry :: after)))
          <> None
          /\ iter_ws_frames json_loads (Ok (before ++ entry :: after))
             = iter_ws_frames json_loads (Ok (before ++ [entry])))
    /\ (forall st after,
          poll json_loads float_repr str_to_float str_to_int echo write_json
            st (Ok (entry :: after))
          = (st, Some KeyError)).
Proof.
  intros Hdoc.
  assert (Hmsg : entry_message json_loads (log_entry bare_frame_text)
                 = Ok bare_frame_msg).
  { unfold entry_message, log_entry. simpl. rewrite Hdoc. reflexivity. }
  assert (Hem : emitted json_loads (log_entry bare_frame_text)
                = [bare_frame_msg]).
  { unfold emitted. rewrite Hmsg. reflexivity. }
  assert (Hthrow : forall rest,
             ws_frames (bare_frame_msg :: rest)
             = gen_app (Throw KeyError) (ws_frames rest)).
  { intros rest. reflexivity. }
  assert (Hone : forall after,
             iter_ws_frames json_loads (Ok (log_entry bare_frame_text :: after))
             = Throw KeyError).
  { intros after. rewrite iter_ws_frames_ok. simpl. rewrite Hem. reflexivity. }
  exists (log_entry bare_frame_text), bare_frame_msg.
  repeat split; try reflexivity; try assumption.
  - rewrite iter_ws_frames_ok, flat_map_app, ws_frames_app. simpl.
    rewrite Hem. simpl app. rewrite Hthrow. apply thrown_app_throw.
  - rewrite !iter_ws_frames_ok, !flat_map_app, !ws_frames_app. simpl.
    rewrite Hem. simpl app. rewrite !Hthrow, !gen_app_throw. reflexivity.
  - intros st after. unfold poll. rewrite Hone. reflexivity.
Qed.
End PollProps.

(** The reference decoder reads the bare frame, and the poll aborts. *)
Lemma bare_frame_aborts_poll_witness :
  exists entry msg,
    entry = log_entry bare_frame_text
    /\ entry_message PyRef.json_loads entry = Ok msg
    /\ py_get_default msg "method" (JStr "")
       = Ok (JStr "Network.webSocketFrameReceived")
    /\ payload_data msg = Raise KeyError
    /\ (forall after,
          iter_ws_frames PyRef.json_loads (Ok (entry :: after))
          = Throw KeyError)
    /\ (forall before after,
          thrown (iter_ws_frames PyRef.json_loads
                    (Ok (before ++ entry :: after)))
          <> None
          /\ iter_ws_frames PyRef.json_loads (Ok (before ++ entry :: after))
             = iter_ws_frames PyRef.json_loads (Ok (before ++ [entry])))
    /\ (forall st after,
          poll PyRef.json_loads PyRef.float_repr PyRef.str_to_float
            PyRef.str_to_int
                PyRef.echo PyRef.write_json st (Ok (entry :: after))
          = (st, Some KeyError)).
Proof.
  apply (bare_frame_aborts_poll PyRef.json_loads PyRef.float_repr
           PyRef.str_to_float PyRef.str_to_int PyRef.echo PyRef.write_json).
  vm_compute. reflexivity.
Defined.

(** ** Worked runs on the reference library *)

(** Aggregation is not idempotent: the same record merged twice counts
    twice. *)
Example merge_widget_twice :
  merge_inventory PyRef.str_to_float PyRef.str_to_int [] [widget; widget]
  = Returns [(JStr "Widget", {| amount := 4; total_price := 5%float |})].
Proof. vm_compute. reflexivity. Qed.

(** The frames of [sample_log]: the entry that is not JSON is dropped. *)
Example sample_log_frames :
  iter_ws_frames PyRef.json_loads (Ok sample_log)
  = Yield ("in", JStr inventory_payload)
      (Yield ("out", JStr "2probe")
         (Yield ("in", JStr inventory_payload) Stop)).
Proof. vm_compute. reflexivity. Qed.

(** One poll over [sample_log]: the inventory event is merged once, its
    repetition is skipped, and nothing is raised. *)
Example sample_log_poll :
  poll PyRef.json_loads PyRef.float_repr PyRef.str_to_float PyRef.str_to_int
      PyRef.echo PyRef.write_json
    empty_state (Ok sample_log)
  = ({| seen :=
          [make_signature PyRef.float_repr "in" (JStr "inventory")
             [JDict [("data", JDict [("inventory", JList [widget])])]]];
        inv := [(JStr "Widget", {| amount := 2; total_price := 2.5%float |})] |},
     None).
Proof. vm_compute. reflexivity. Qed.

(** A poll that meets a quantity that is not a number: the event is
    recorded as seen, nothing is merged, [ValueError] ends the poll and
    the inventory event that follows is not handled. *)
Example bad_quantity_poll :
  poll PyRef.json_loads PyRef.float_repr PyRef.str_to_float PyRef.str_to_int
      PyRef.echo PyRef.write_json
    empty_state
    (Ok [log_entry (frame_text "Network.webSocketFrameReceived"
                      bad_quantity_payload);
         log_entry (frame_text "Network.webSocketFrameReceived"
                      inventory_payload)])
  = ({| seen :=
          [make_signature PyRef.float_repr "in" (JStr "inventory")
             [JDict [("inventory", JList [bad_quantity])]]];
        inv := [] |},
     Some ValueError).
Proof. vm_compute. reflexivity. Qed.


(** * Further properties of the code *)

(** ** [merge_inventory] *)

Section MergeProps.
Variable str_to_float : string -> option float.
Variable str_to_int : string -> option Z.

(** X1: merging the concatenation of two lists is merging the first and
    then, when that returned, the second into what the first left; when
    the first raised, the second is not looked at. *)
Theorem merge_inventory_app (agg : aggregate) (l1 l2 : list json) :
  merge_inventory str_to_float str_to_int agg (l1 ++ l2)
  = match merge_inventory str_to_float str_to_int agg l1 with
    | Returns agg1 => merge_inventory str_to_float str_to_int agg1 l2
    | Raises e agg1 => Raises e agg1
    end.
Proof.
  revert agg. induction l1 as [ | it l1 IH]; intros agg; simpl;
    [reflexivity | ].
  destruct (merge_item str_to_float str_to_int agg it) as [agg' | e];
    [apply IH | reflexivity].
Qed.

(** Whether a record raises, and what, does not depend on the aggregate. *)
Lemma merge_item_raise_any (agg agg' : aggregate) (it : json) (e : exn) :
  merge_item str_to_float str_to_int agg it = Raise e ->
  merge_item str_to_float str_to_int agg' it = Raise e.
Proof.
  unfold merge_item.
  destruct (item_name it) as [name | ]; simpl; [ | auto].
  destruct (item_cents it) as [cents | ]; simpl; [ | auto].
  destruct (item_quantity it) as [q | ]; simpl; [ | auto].
  destruct (py_int str_to_int q) as [qty | ]; simpl; [ | auto].
  destruct (hashable name); [discriminate | auto].
Qed.

(** The records accepted before a record that raises are merged, and
    nothing after them is. *)
Lemma merge_inventory_raise_at (agg agg1 : aggregate)
    (good rest : list json) (bad : json) (e : exn) :
  merge_inventory str_to_float str_to_int agg good = Returns agg1 ->
  merge_item str_to_float str_to_int agg1 bad = Raise e ->
  merge_inventory str_to_float str_to_int agg (good ++ bad :: rest)
  = Raises e agg1.
Proof.
  revert agg. induction good as [ | it good IH]; intros agg; simpl.
  - intros [= <-] Hbad. rewrite Hbad. reflexivity.
  - destruct (merge_item str_to_float str_to_int agg it) as [agg' | e'];
      [apply IH | discriminate].
Qed.

(** X2: a record that raises stops the merge where it stands: the records
    before it are merged into the aggregate, the record itself and those
    after it are not, and the exception is the one the record raises on
    any aggregate. *)
Theorem merge_inventory_stops_at_failure (agg agg1 : aggregate)
    (good rest : list json) (bad : json) (e : exn) :
  merge_inventory str_to_float str_to_int agg good = Returns agg1 ->
  merge_item str_to_float str_to_int agg bad = Raise e ->
  merge_inventory str_to_float str_to_int agg (good ++ bad :: rest)
  = Raises e agg1.
Proof.
  intros Hgood Hbad.
  apply merge_inventory_raise_at; [exact Hgood | ].
  apply (merge_item_raise_any agg agg1 bad e Hbad).
Qed.

(** X3: a record makes [merge_inventory] raise in three cases only, and
    the aggregate and the price play no part in them: the record is not
    an object ([AttributeError]); [int] rejects its quantity (the
    exception of [int]); or its name is a list or an object, which
    cannot be a key ([TypeError]). *)
Theorem merge_item_raises_iff (agg : aggregate) (it : json) (e : exn) :
  merge_item str_to_float str_to_int agg it = Raise e
  <-> (is_dict it = false /\ e = AttributeError)
      \/ (is_dict it = true /\ item_qty str_to_int it = Raise e)
      \/ (exists name qty,
            item_name it = Ok name /\ item_qty str_to_int it = Ok qty
            /\ hashable name = false /\ e = TypeError).
Proof.
  unfold item_qty.
  destruct it as [ | | | | | | d];
    try (simpl; split;
         [intros [= <-]; left; split; reflexivity
         | intros [[_ ->] | [[H _] | (n & q & H & _)]];
           [reflexivity | discriminate | discriminate]]).
  destruct (item_fields_resolve d) as (Hn & Hc & Hq).
  unfold merge_item. rewrite Hn, Hc, Hq. cbn [bind is_dict].
  destruct (py_int str_to_int (first_truthy quantity_keys (JInt 1) d))
    as [qty | e'] eqn:Hi; cbn [bind].
  - destruct (hashable (first_truthy name_keys (JStr "UNKNOWN") d)) eqn:Hh.
    + split; [discriminate | ].
      intros [[H _] | [[_ H] | (n & q & Hn' & _ & H & _)]];
        [discriminate | discriminate | ].
      assert (n = first_truthy name_keys (JStr "UNKNOWN") d) by congruence.
      congruence.
    + split.
      * intros [= <-]. right. right. eexists. eexists.
        repeat split; [exact Hh].
      * intros [[H _] | [[_ H] | (n & q & _ & _ & _ & ->)]];
          [discriminate | discriminate | reflexivity].
  - split.
    + intros [= <-]. right. left. split; reflexivity.
    + intros [[H _] | [[_ [= ->]] | (n & q & _ & H & _)]];
        [discriminate | reflexivity | discriminate].
Qed.

Lemma add_to_entry_keys (name : json) (qty : Z) (price : float)
    (agg : aggregate) :
  exists added,
    map fst (add_to_entry name qty price agg) = map fst agg ++ added
    /\ (List.length added <= 1)%nat.
Proof.
  induction agg as [ | [k r] rest IH]; simpl.
  - exists [name]. split; [reflexivity | simpl; lia].
  - destruct (py_eq k name).
    + exists []. rewrite app_nil_r. split; [reflexivity | simpl; lia].
    + destruct IH as (added & E & Hlen). exists added. simpl.
      rewrite E. split; [reflexivity | exact Hlen].
Qed.

(** X4: the aggregate only grows: however [merge_inventory] ends, the
    keys it leaves are the former keys, unchanged and in their order,
    followed by at most one new key for each item. *)
Theorem merge_inventory_keeps_keys (agg : aggregate) (items : list json) :
  exists added,
    map fst (aggregate_of (merge_inventory str_to_float str_to_int agg items))
    = map fst agg ++ added
    /\ (List.length added <= List.length items)%nat.
Proof.
  revert agg. induction items as [ | it rest IH]; intros agg; simpl.
  - exists []. rewrite app_nil_r. split; [reflexivity | simpl; lia].
  - destruct (merge_item str_to_float str_to_int agg it) as [agg' | e] eqn:E.
    + destruct (merge_item_ok _ _ agg agg' it E)
        as (name & cents & q & qty & _ & _ & _ & _ & _ & ->).
      destruct (add_to_entry_keys name qty (item_price str_to_float cents) agg)
        as (a1 & E1 & H1).
      destruct (IH (add_to_entry name qty (item_price str_to_float cents) agg))
        as (a2 & E2 & H2).
      exists (a1 ++ a2). rewrite E2, E1, <- app_assoc.
      split; [reflexivity | rewrite length_app; lia].
    + exists []. simpl. rewrite app_nil_r. split; [reflexivity | lia].
Qed.

Lemma total_amount_add (name : json) (qty : Z) (price : float)
    (agg : aggregate) :
  total_amount (add_to_entry name qty price agg) = total_amount agg + qty.
Proof.
  induction agg as [ | [k r] rest IH]; simpl; [lia | ].
  destruct (py_eq k name); simpl; [lia | rewrite IH; lia].
Qed.

(** X5: when [merge_inventory] returns, the amounts of the aggregate have
    grown, in total, by the sum of the quantities of the items, each
    quantity being [int(it.get("amount") or it.get("quantity") or 1)]. *)
Theorem merge_inventory_total_amount (agg agg' : aggregate)
    (items : list json) :
  merge_inventory str_to_float str_to_int agg items = Returns agg' ->
  exists qtys,
    Forall2 (fun it qty => item_qty str_to_int it = Ok qty) items qtys
    /\ total_amount agg' = total_amount agg + fold_right Z.add 0 qtys.
Proof.
  revert agg. induction items as [ | it rest IH]; intros agg; simpl.
  - intros [= <-]. exists []. split; [constructor | simpl; lia].
  - destruct (merge_item str_to_float str_to_int agg it) as [agg1 | e] eqn:E;
      [ | discriminate].
    intros H. destruct (IH agg1 H) as (qtys & Hq & Ht).
    destruct (merge_item_ok _ _ agg agg1 it E)
      as (name & cents & q & qty & _ & _ & Hiq & Hi & _ & ->).
    exists (qty :: qtys). split.
    + constructor; [ | exact Hq]. unfold item_qty. rewrite Hiq. exact Hi.
    + rewrite Ht, total_amount_add. simpl. lia.
Qed.

(** X6: a record in which no candidate field holds a true value (the
    empty object is one) counts as one item named ["UNKNOWN"] of price
    [0.0]. *)
Theorem merge_item_defaults (agg : aggregate) (d : list (string * json)) :
  Forall (fun k => truthy (dict_get d k) = false)
    (name_keys ++ price_keys ++ quantity_keys) ->
  merge_item str_to_float str_to_int agg (JDict d)
  = Ok (add_to_entry (JStr "UNKNOWN") 1 0%float agg)
  /\ find_entry (JStr "UNKNOWN")
       (add_to_entry (JStr "UNKNOWN") 1 0%float agg)
     = Some {| amount := amount (entry_or_zero (JStr "UNKNOWN") agg) + 1;
               total_price :=
                 (total_price (entry_or_zero (JStr "UNKNOWN") agg) + 0)%float |}.
Proof.
  intros H.
  assert (Hk : forall k,
             In k (name_keys ++ price_keys ++ quantity_keys) ->
             truthy (dict_get d k) = false).
  { apply Forall_forall, H. }
  split; [ | apply find_entry_add; reflexivity].
  destruct (item_fields_resolve d) as (Hn & Hc & Hq).
  unfold merge_item. rewrite Hn, Hc, Hq. cbn [bind].
  unfold name_keys, price_keys, quantity_keys, first_truthy.
  rewrite !Hk by (simpl; tauto).
  reflexivity.
Qed.
End MergeProps.

(** The widget, then a record whose quantity [int] rejects, then the
    widget again. *)
Lemma merge_inventory_stops_at_failure_witness :
  merge_inventory PyRef.str_to_float PyRef.str_to_int [] mixed_items
  = Raises ValueError
      [(JStr "Widget", {| amount := 2; total_price := 2.5%float |})].
Proof.
  exact (merge_inventory_stops_at_failure
           PyRef.str_to_float PyRef.str_to_int [] _ [widget] [widget]
           bad_quantity ValueError eq_refl eq_refl).
Defined.

(** Two widgets: the total amount grows by 2 + 2. *)
Lemma merge_inventory_total_amount_witness :
  exists qtys,
    Forall2 (fun it qty => item_qty PyRef.str_to_int it = Ok qty)
      [widget; widget] qtys
    /\ total_amount
         [(JStr "Widget", {| amount := 4; total_price := 5%float |})]
       = total_amount [] + fold_right Z.add 0 qtys.
Proof.
  exact (merge_inventory_total_amount
           PyRef.str_to_float PyRef.str_to_int [] _ [widget; widget] eq_refl).
Defined.

(** The empty record. *)
Lemma merge_item_defaults_witness :
  merge_item PyRef.str_to_float PyRef.str_to_int [] (JDict [])
  = Ok (add_to_entry (JStr "UNKNOWN") 1 0%float []).
Proof.
  apply (proj1 (merge_item_defaults PyRef.str_to_float PyRef.str_to_int
                  [] [] ltac:(repeat constructor))).
Defined.

(** ** Equality of keys *)

Lemma digits2_pos_bounds (m : positive) :
  2 ^ (Zpos (digits2_pos m) - 1) <= Zpos m < 2 ^ Zpos (digits2_pos m).
Proof.
  induction m as [m IH | m IH | ]; simpl digits2_pos.
  - rewrite Pos2Z.inj_succ.
    replace (Z.succ (Zpos (digits2_pos m)) - 1) with (Z.succ (Zpos (digits2_pos m) - 1)) by lia.
    rewrite !Z.pow_succ_r by lia. lia.
  - rewrite Pos2Z.inj_succ.
    replace (Z.succ (Zpos (digits2_pos m)) - 1) with (Z.succ (Zpos (digits2_pos m) - 1)) by lia.
    rewrite !Z.pow_succ_r by lia. lia.
  - simpl. lia.
Qed.

(** A valid binary64 number has one mantissa and exponent. *)
Lemma valid_finite_unique (m1 m2 : positive) (e1 e2 : Z) :
  bounded prec emax m1 e1 = true ->
  bounded prec emax m2 e2 = true ->
  Zpos m1 * 2 ^ (e1 + 1074) = Zpos m2 * 2 ^ (e2 + 1074) ->
  m1 = m2 /\ e1 = e2.
Proof.
  unfold bounded, canonical_mantissa, fexp, emin, prec, emax.
  intros H1 H2 Hv.
  apply andb_true_iff in H1. destruct H1 as [H1 _].
  apply andb_true_iff in H2. destruct H2 as [H2 _].
  apply Z.eqb_eq in H1. apply Z.eqb_eq in H2.
  pose proof (digits2_pos_bounds m1) as B1.
  pose proof (digits2_pos_bounds m2) as B2.
  set (d1 := Zpos (digits2_pos m1)) in *.
  set (d2 := Zpos (digits2_pos m2)) in *.
  clearbody d1 d2.
  assert (H1' : Z.max (d1 + e1 - 53) (-1074) = e1) by exact H1.
  assert (H2' : Z.max (d2 + e2 - 53) (-1074) = e2) by exact H2.
  clear H1 H2.
  assert (Hd1 : d1 <= 53) by lia. assert (Hd2 : d2 <= 53) by lia.
  assert (He1 : -1074 <= e1) by lia. assert (He2 : -1074 <= e2) by lia.
  assert (P1 : Zpos m1 < 2 ^ 53).
  { eapply Z.lt_le_trans; [apply B1 | apply Z.pow_le_mono_r; lia]. }
  assert (P2 : Zpos m2 < 2 ^ 53).
  { eapply Z.lt_le_trans; [apply B2 | apply Z.pow_le_mono_r; lia]. }
  assert (K1 : 0 <= e1 + 1074) by (clear - He1; lia).
  assert (K2 : 0 <= e2 + 1074) by (clear - He2; lia).
  assert (Hp1 : 0 < 2 ^ (e1 + 1074)) by (apply Z.pow_pos_nonneg; lia).
  assert (Hp2 : 0 < 2 ^ (e2 + 1074)) by (apply Z.pow_pos_nonneg; lia).
  destruct (Z.lt_trichotomy e1 e2) as [Hlt | [Heq | Hgt]].
  - exfalso. assert (D : d2 = 53) by (clear - H2' Hlt He1; lia).
    assert (L2 : 2 ^ 52 <= Zpos m2).
    { replace 52 with (d2 - 1) by (clear - D; lia). apply B2. }
    assert (K : 0 <= e2 - e1 - 1) by (clear - Hlt; lia).
    replace (e2 + 1074) with ((e1 + 1074) + (1 + (e2 - e1 - 1))) in Hv
      by (clear; lia).
    rewrite (Z.pow_add_r 2 (e1 + 1074)) in Hv by (clear - K K1; lia).
    rewrite (Z.pow_add_r 2 1) in Hv by (clear - K; lia).
    assert (Hq : 0 < 2 ^ (e2 - e1 - 1)) by (apply Z.pow_pos_nonneg; lia).
    change (2 ^ 1) with 2 in Hv.
    generalize dependent (2 ^ (e1 + 1074)).
    generalize dependent (2 ^ (e2 - e1 - 1)).
    change (2 ^ 52) with 4503599627370496 in L2.
    change (2 ^ 53) with 9007199254740992 in P1.
    clear - L2 P1. intros a Ha b Hv Hb.
    assert (E : Zpos m1 = Zpos m2 * (2 * a)).
    { apply (Z.mul_reg_r _ _ b); [lia | ]. rewrite Hv. ring. }
    assert (Zpos m2 * 2 <= Zpos m2 * (2 * a)).
    { apply Z.mul_le_mono_nonneg_l; lia. }
    lia.
  - subst e2. split; [ | reflexivity].
    assert (Zpos m1 = Zpos m2) by (clear - Hv Hp1; nia). congruence.
  - exfalso. assert (D : d1 = 53) by (clear - H1' Hgt He2; lia).
    assert (L1 : 2 ^ 52 <= Zpos m1).
    { replace 52 with (d1 - 1) by (clear - D; lia). apply B1. }
    assert (K : 0 <= e1 - e2 - 1) by (clear - Hgt; lia).
    replace (e1 + 1074) with ((e2 + 1074) + (1 + (e1 - e2 - 1))) in Hv
      by (clear; lia).
    rewrite (Z.pow_add_r 2 (e2 + 1074)) in Hv by (clear - K K2; lia).
    rewrite (Z.pow_add_r 2 1) in Hv by (clear - K; lia).
    assert (Hq : 0 < 2 ^ (e1 - e2 - 1)) by (apply Z.pow_pos_nonneg; lia).
    change (2 ^ 1) with 2 in Hv.
    generalize dependent (2 ^ (e2 + 1074)).
    generalize dependent (2 ^ (e1 - e2 - 1)).
    change (2 ^ 52) with 4503599627370496 in L1.
    change (2 ^ 53) with 9007199254740992 in P2.
    clear - L1 P2. intros a Ha b Hv Hb. symmetry in Hv.
    assert (E : Zpos m2 = Zpos m1 * (2 * a)).
    { apply (Z.mul_reg_r _ _ b); [lia | ]. rewrite Hv. ring. }
    assert (Zpos m1 * 2 <= Zpos m1 * (2 * a)).
    { apply Z.mul_le_mono_nonneg_l; lia. }
    lia.
Qed.

Lemma SFeqb_refl (sf : spec_float) :
  sf <> S754_nan -> SFeqb sf sf = true.
Proof.
  destruct sf as [s | s | | s m e]; intros H; try congruence;
    unfold SFeqb, SFcompare; destruct s;
    rewrite ?Z.compare_refl, ?Pos.compare_cont_refl; reflexivity.
Qed.

Lemma SFeqb_true (sf sg : spec_float) :
  SFeqb sf sg = true ->
  (exists s s', sf = S754_zero s /\ sg = S754_zero s') \/ sf = sg.
Proof.
  unfold SFeqb, SFcompare.
  destruct sf as [s | s | | s m e], sg as [s' | s' | | s' m' e'];
    try destruct s; try destruct s'; try discriminate; eauto;
    destruct (Z.compare_spec e e') as [-> | | ]; try discriminate;
    change (Pos.compare_cont Eq m m') with (Pos.compare m m');
    destruct (Pos.compare_spec m m') as [-> | | ]; try discriminate; auto.
Qed.

Lemma float_eq_spec (f g : float) :
  float_eq f g
  = match Prim2SF f, Prim2SF g with
    | S754_nan, S754_nan => true
    | sf, sg => SFeqb sf sg
    end.
Proof.
  unfold float_eq, is_nan. rewrite !FloatAxioms.eqb_spec.
  destruct (Prim2SF f) as [s | s | | s m e] eqn:Ef;
    destruct (Prim2SF g) as [s' | s' | | s' m' e'] eqn:Eg;
    try reflexivity;
    repeat match goal with
      | |- context [SFeqb (S754_finite ?a ?b ?c) (S754_finite ?a ?b ?c)] =>
          rewrite (SFeqb_refl (S754_finite a b c)) by discriminate
      end;
    try destruct s; try destruct s'; simpl;
    rewrite ?andb_false_r, ?orb_false_r; reflexivity.
Qed.

(** What [Z_eq_float z f = true] says of [z] and of the float. *)
Lemma Z_eq_float_value (z : Z) (f : float) :
  Z_eq_float z f = true ->
  (exists s, Prim2SF f = S754_zero s /\ z = 0)
  \/ (exists s m e,
        Prim2SF f = S754_finite s m e
        /\ bounded prec emax m e = true
        /\ -1074 <= e
        /\ z * 2 ^ 1074 = (if s then Zneg m else Zpos m) * 2 ^ (e + 1074)).
Proof.
  unfold Z_eq_float. pose proof (FloatAxioms.Prim2SF_valid f) as Hv.
  destruct (Prim2SF f) as [s | s | | s m e]; try discriminate.
  - intros H. apply Z.eqb_eq in H. left. eauto.
  - simpl in Hv. intros H. right. exists s, m, e.
    assert (He : -1074 <= e).
    { unfold bounded, canonical_mantissa, fexp, emin, prec, emax in Hv.
      apply andb_true_iff in Hv. destruct Hv as [Hv _].
      apply Z.eqb_eq in Hv.
      assert (Hm : Z.max (Zpos (digits2_pos m) + e - 53) (-1074) = e)
        by exact Hv.
      clear - Hm. lia. }
    split; [reflexivity | split; [exact Hv | split; [exact He | ]]].
    destruct (0 <=? e) eqn:E0.
    + apply Z.leb_le in E0. apply Z.eqb_eq in H. subst z.
      rewrite Z.pow_add_r by lia. ring.
    + apply Z.leb_gt in E0. apply Z.eqb_eq in H. rewrite <- H.
      replace 1074 with (- e + (e + 1074)) at 1 by lia.
      rewrite Z.pow_add_r by lia. ring.
Qed.

Lemma Z_eq_float_unique (z z' : Z) (f : float) :
  Z_eq_float z f = true -> Z_eq_float z' f = true -> z = z'.
Proof.
  intros H H'.
  destruct (Z_eq_float_value z f H)
    as [(s & E & ->) | (s & m & e & E & _ & _ & V)];
    destruct (Z_eq_float_value z' f H')
      as [(s' & E' & ->) | (s' & m' & e' & E' & _ & _ & V')];
    try congruence.
  rewrite E in E'. injection E' as <- <- <-.
  rewrite <- V' in V. clear - V.
  assert (0 < 2 ^ 1074) by (apply Z.pow_pos_nonneg; lia).
  apply (Z.mul_reg_r _ _ (2 ^ 1074)); [lia | exact V].
Qed.

Lemma float_eq_Z_eq (f g : float) (z : Z) :
  float_eq f g = true -> Z_eq_float z f = Z_eq_float z g.
Proof.
  rewrite float_eq_spec. unfold Z_eq_float.
  destruct (Prim2SF f) as [s | s | | s m e] eqn:Ef;
    destruct (Prim2SF g) as [s' | s' | | s' m' e'] eqn:Eg;
    try reflexivity; intros H; apply SFeqb_true in H;
    destruct H as [(a & b & Ha & Hb) | H]; try discriminate.
  injection H as <- <- <-. reflexivity.
Qed.

Lemma Z_eq_float_both (z : Z) (f g : float) :
  Z_eq_float z f = true -> Z_eq_float z g = true -> float_eq f g = true.
Proof.
  intros H H'. rewrite float_eq_spec.
  destruct (Z_eq_float_value z f H)
    as [(s & E & Hz) | (s & m & e & E & B & He & V)];
    destruct (Z_eq_float_value z g H')
      as [(s' & E' & Hz') | (s' & m' & e' & E' & B' & He' & V')];
    rewrite E, E'.
  - reflexivity.
  - exfalso. subst z.
    assert (0 < 2 ^ (e' + 1074)) by (apply Z.pow_pos_nonneg; lia).
    clear - V' H0. destruct s'; nia.
  - exfalso. subst z.
    assert (0 < 2 ^ (e + 1074)) by (apply Z.pow_pos_nonneg; lia).
    clear - V H0. destruct s; nia.
  - assert (P : 0 < 2 ^ (e + 1074)) by (apply Z.pow_pos_nonneg; lia).
    assert (P' : 0 < 2 ^ (e' + 1074)) by (apply Z.pow_pos_nonneg; lia).
    rewrite V' in V.
    assert (Hs : s = s').
    { clear - V P P'. destruct s, s'; try reflexivity; exfalso; nia. }
    subst s'.
    assert (Hv : Zpos m * 2 ^ (e + 1074) = Zpos m' * 2 ^ (e' + 1074)).
    { clear - V. destruct s; lia. }
    destruct (valid_finite_unique m m' e e' B B' Hv) as [-> ->].
    apply SFeqb_refl. discriminate.
Qed.

Lemma float_eq_euclid (f g h : float) :
  float_eq f g = true -> float_eq f h = float_eq g h.
Proof.
  rewrite !float_eq_spec.
  destruct (Prim2SF f) as [s | s | | s m e] eqn:Ef;
    destruct (Prim2SF g) as [s' | s' | | s' m' e'] eqn:Eg;
    try discriminate; try reflexivity; intros H; apply SFeqb_true in H;
    destruct H as [(a & b & Ha & Hb) | H]; try discriminate;
    try (injection H; intros; subst; reflexivity).
Qed.

Lemma Z_eq_float_int_eqb (z z' : Z) (f : float) :
  Z_eq_float z f = true -> (z =? z') = Z_eq_float z' f.
Proof.
  intros H. destruct (Z_eq_float z' f) eqn:E.
  - apply Z.eqb_eq. eapply Z_eq_float_unique; eassumption.
  - apply Z.eqb_neq. intros <-. congruence.
Qed.

Lemma Z_eq_float_float_eq (z : Z) (f g : float) :
  Z_eq_float z f = true -> Z_eq_float z g = float_eq f g.
Proof.
  intros H. destruct (float_eq f g) eqn:E.
  - rewrite <- (float_eq_Z_eq f g z E). exact H.
  - destruct (Z_eq_float z g) eqn:E'; [ | reflexivity].
    rewrite (Z_eq_float_both z f g H E') in E. discriminate.
Qed.

(** On values that can be keys, [==] is an equivalence: two equal values
    are equal to the same values. *)
Lemma py_eq_hashable_euclid (a b c : json) :
  hashable a = true -> hashable b = true -> hashable c = true ->
  py_eq a b = true -> py_eq a c = py_eq b c.
Proof.
  destruct a as [ | x | x | f | s | | ]; try discriminate;
    destruct b as [ | y | y | g | t | | ]; try discriminate;
    intros _ _ Hc H; simpl in H;
    first
      [ apply Z.eqb_eq in H
      | apply String.eqb_eq in H
      | idtac ];
    destruct c as [ | w | w | h | u | | ]; try discriminate; simpl;
    try reflexivity;
    try (rewrite H; reflexivity);
    try (subst; reflexivity);
    first
      [ apply Z_eq_float_int_eqb; exact H
      | symmetry; apply Z_eq_float_int_eqb; exact H
      | apply Z_eq_float_float_eq; exact H
      | symmetry; apply Z_eq_float_float_eq; exact H
      | apply float_eq_Z_eq; exact H
      | apply float_eq_euclid; exact H
      | idtac ].
Qed.

Lemma py_eq_hashable_sym (a b : json) :
  hashable a = true -> hashable b = true -> py_eq a b = py_eq b a.
Proof.
  intros Ha Hb.
  destruct (py_eq a b) eqn:E1; destruct (py_eq b a) eqn:E2; try reflexivity.
  - rewrite <- (py_eq_hashable_euclid a b a Ha Hb Ha E1) in E2.
    rewrite (py_eq_refl_hashable a Ha) in E2. discriminate.
  - rewrite <- (py_eq_hashable_euclid b a b Hb Ha Hb E2) in E1.
    rewrite (py_eq_refl_hashable b Hb) in E1. discriminate.
Qed.

(** ** The entry kept under one key *)

Section EntryProps.
Variable str_to_float : string -> option float.
Variable str_to_int : string -> option Z.

Lemma add_to_entry_hashable (name : json) (qty : Z) (price : float)
    (agg : aggregate) :
  hashable name = true -> hashable_keys agg ->
  hashable_keys (add_to_entry name qty price agg).
Proof.
  intros Hn. unfold hashable_keys.
  induction agg as [ | [k r] rest IH]; simpl; intros H.
  - constructor; [exact Hn | constructor].
  - inversion H as [ | x l Hk Hrest]; subst.
    destruct (py_eq k name); constructor; auto.
Qed.

(** The update for [name] leaves the entry of every other key alone. *)
Lemma find_entry_add_other (name k : json) (qty : Z) (price : float)
    (agg : aggregate) :
  hashable name = true -> hashable k = true -> hashable_keys agg ->
  py_eq name k = false ->
  find_entry k (add_to_entry name qty price agg) = find_entry k agg.
Proof.
  intros Hn Hk Hagg Hne. unfold hashable_keys in Hagg.
  induction agg as [ | [k0 r] rest IH]; simpl.
  - rewrite Hne. reflexivity.
  - inversion Hagg as [ | x l Hk0 Hrest]; subst. simpl in Hk0.
    destruct (py_eq k0 name) eqn:E; simpl.
    + rewrite (py_eq_hashable_euclid k0 name k Hk0 Hn Hk E), Hne.
      reflexivity.
    + destruct (py_eq k0 k); [reflexivity | apply IH, Hrest].
Qed.

(** The update for [name] is seen under every key equal to [name]. *)
Lemma find_entry_add_same (name k : json) (qty : Z) (price : float)
    (agg : aggregate) :
  hashable name = true -> hashable k = true -> hashable_keys agg ->
  py_eq name k = true ->
  find_entry k (add_to_entry name qty price agg)
  = Some {| amount := amount (tally_or_zero (find_entry k agg)) + qty;
            total_price :=
              (total_price (tally_or_zero (find_entry k agg)) + price)%float |}.
Proof.
  intros Hn Hk Hagg He. unfold hashable_keys in Hagg.
  induction agg as [ | [k0 r] rest IH]; simpl.
  - rewrite He. reflexivity.
  - inversion Hagg as [ | x l Hk0 Hrest]; subst. simpl in Hk0.
    destruct (py_eq k0 name) eqn:E; simpl.
    + rewrite (py_eq_hashable_euclid k0 name k Hk0 Hn Hk E), He.
      reflexivity.
    + assert (E' : py_eq k0 k = false).
      { rewrite (py_eq_hashable_sym k0 k Hk0 Hk).
        rewrite <- (py_eq_hashable_euclid name k k0 Hn Hk Hk0 He).
        rewrite (py_eq_hashable_sym name k0 Hn Hk0). exact E. }
      rewrite E'. apply IH, Hrest.
Qed.

Lemma merge_item_contribution (agg agg' : aggregate) (it k : json) :
  hashable_keys agg -> hashable k = true ->
  merge_item str_to_float str_to_int agg it = Ok agg' ->
  hashable_keys agg'
  /\ find_entry k agg'
     = contribution str_to_float str_to_int k (find_entry k agg) it.
Proof.
  intros Hagg Hk H.
  destruct (merge_item_ok _ _ agg agg' it H)
    as (name & cents & q & qty & Hn & Hc & Hq & Hi & Hh & ->).
  split; [apply add_to_entry_hashable; assumption | ].
  unfold contribution, item_qty. rewrite Hn, Hc, Hq. cbn [bind]. rewrite Hi.
  destruct (py_eq name k) eqn:E.
  - apply find_entry_add_same; assumption.
  - apply find_entry_add_other; assumption.
Qed.

Lemma merge_inventory_fold (agg agg' : aggregate) (items : list json)
    (k : json) :
  hashable_keys agg -> hashable k = true ->
  merge_inventory str_to_float str_to_int agg items = Returns agg' ->
  hashable_keys agg'
  /\ find_entry k agg'
     = fold_left (contribution str_to_float str_to_int k) items
         (find_entry k agg).
Proof.
  intros Hagg Hk. revert agg Hagg.
  induction items as [ | it rest IH]; intros agg Hagg; simpl.
  - intros [= <-]. split; [exact Hagg | reflexivity].
  - destruct (merge_item str_to_float str_to_int agg it) as [agg1 | e] eqn:E;
      [ | discriminate].
    intros H.
    destruct (merge_item_contribution agg agg1 it k Hagg Hk E) as [H1 <-].
    apply IH; assumption.
Qed.

(** X7: however [merge_inventory] ends, the entry read under a key in
    the aggregate it leaves is the former one with the quantities and the
    prices of the records it merged whose name equals the key, added in
    the order of the list; the records of other names play no part in it,
    and a key none of them names keeps its entry, or stays absent.  The
    records merged are all of them when the call returns, and those
    before the record that raised when it raises. *)
Theorem merge_inventory_entry (agg : aggregate) (items : list json)
    (k : json) :
  hashable_keys agg -> hashable k = true ->
  exists merged rest,
    items = merged ++ rest
    /\ match merge_inventory str_to_float str_to_int agg items with
       | Returns _ => rest = []
       | Raises e _ =>
           exists bad rest',
             rest = bad :: rest'
             /\ merge_item str_to_float str_to_int agg bad = Raise e
       end
    /\ hashable_keys
         (aggregate_of (merge_inventory str_to_float str_to_int agg items))
    /\ find_entry k
         (aggregate_of (merge_inventory str_to_float str_to_int agg items))
       = fold_left (contribution str_to_float str_to_int k) merged
           (find_entry k agg).
Proof.
  intros Hagg Hk. revert agg Hagg.
  induction items as [ | it items IH]; intros agg Hagg; simpl.
  - exists [], []. repeat split; assumption.
  - destruct (merge_item str_to_float str_to_int agg it) as [agg1 | e] eqn:E.
    + destruct (merge_item_contribution agg agg1 it k Hagg Hk E) as [H1 H2].
      destruct (IH agg1 H1) as (merged & rest & -> & Hend & Hkeys & Hfind).
      exists (it :: merged), rest. split; [reflexivity | ].
      split; [ | split; [exact Hkeys | ]].
      * destruct (merge_inventory str_to_float str_to_int agg1
                    (merged ++ rest)) as [a | e a]; [exact Hend | ].
        destruct Hend as (bad & rest' & -> & Hbad).
        exists bad, rest'. split; [reflexivity | ].
        apply (merge_item_raise_any str_to_float str_to_int agg1 agg bad e Hbad).
      * rewrite Hfind, H2. reflexivity.
    + exists [], (it :: items). split; [reflexivity | ].
      split; [exists it, items; split; [reflexivity | exact E] | ].
      split; [exact Hagg | reflexivity].
Qed.

(** Whether a record is accepted does not depend on the aggregate. *)
Lemma merge_item_ok_any (agg agg' a : aggregate) (it : json) :
  merge_item str_to_float str_to_int agg it = Ok a ->
  exists a', merge_item str_to_float str_to_int agg' it = Ok a'.
Proof.
  intros H.
  destruct (merge_item str_to_float str_to_int agg' it) as [a' | e] eqn:E;
    [exists a'; reflexivity | ].
  rewrite (merge_item_raise_any str_to_float str_to_int agg' agg it e E) in H.
  discriminate.
Qed.

Lemma merge_inventory_returns_iff (agg : aggregate) (items : list json) :
  (exists agg', merge_inventory str_to_float str_to_int agg items = Returns agg')
  <-> Forall (fun it => exists a,
                merge_item str_to_float str_to_int [] it = Ok a) items.
Proof.
  revert agg. induction items as [ | it rest IH]; intros agg; simpl.
  - split; [constructor | eexists; reflexivity].
  - destruct (merge_item str_to_float str_to_int agg it) as [agg1 | e] eqn:E.
    + rewrite IH. split.
      * intros H. constructor; [ | exact H].
        apply (merge_item_ok_any agg [] agg1 it E).
      * intros H. inversion H; assumption.
    + split; [intros [a H]; discriminate | ].
      intros H. inversion H as [ | x l [a Ha] Hl]; subst.
      rewrite (merge_item_raise_any str_to_float str_to_int agg [] it e E) in Ha.
      discriminate.
Qed.

Lemma contribution_amount (k it : json) (o1 o2 : option tally) :
  amount (tally_or_zero o1) = amount (tally_or_zero o2) ->
  amount (tally_or_zero (contribution str_to_float str_to_int k o1 it))
  = amount (tally_or_zero (contribution str_to_float str_to_int k o2 it)).
Proof.
  intros H. unfold contribution.
  destruct (item_name it) as [name | ]; [ | exact H].
  destruct (item_cents it) as [cents | ]; [ | exact H].
  destruct (item_qty str_to_int it) as [qty | ]; [ | exact H].
  destruct (py_eq name k); [simpl; rewrite H; reflexivity | exact H].
Qed.

Lemma fold_contribution_amount (k : json) (items : list json) :
  forall o1 o2,
    amount (tally_or_zero o1) = amount (tally_or_zero o2) ->
    amount (tally_or_zero
              (fold_left (contribution str_to_float str_to_int k) items o1))
    = amount (tally_or_zero
                (fold_left (contribution str_to_float str_to_int k) items o2)).
Proof.
  induction items as [ | it rest IH]; intros o1 o2 H; simpl; [exact H | ].
  apply IH, contribution_amount, H.
Qed.

Lemma contribution_swap_amount (k x y : json) (o : option tally) :
  amount (tally_or_zero
            (contribution str_to_float str_to_int k
               (contribution str_to_float str_to_int k o x) y))
  = amount (tally_or_zero
              (contribution str_to_float str_to_int k
                 (contribution str_to_float str_to_int k o y) x)).
Proof.
  unfold contribution.
  destruct (item_name x) as [nx | ]; [ | reflexivity].
  destruct (item_cents x) as [cx | ]; [ | reflexivity].
  destruct (item_qty str_to_int x) as [qx | ]; [ | reflexivity].
  destruct (item_name y) as [ny | ]; [ | reflexivity].
  destruct (item_cents y) as [cy | ]; [ | reflexivity].
  destruct (item_qty str_to_int y) as [qy | ]; [ | reflexivity].
  destruct (py_eq nx k), (py_eq ny k); simpl; try reflexivity. lia.
Qed.

Lemma fold_contribution_perm (k : json) (l l' : list json) :
  Permutation l l' ->
  forall o,
    amount (tally_or_zero
              (fold_left (contribution str_to_float str_to_int k) l o))
    = amount (tally_or_zero
                (fold_left (contribution str_to_float str_to_int k) l' o)).
Proof.
  induction 1 as [ | x l l' HP IH | x y l | l l' l'' HP1 IH1 HP2 IH2];
    intros o; simpl.
  - reflexivity.
  - apply IH.
  - apply fold_contribution_amount, contribution_swap_amount.
  - rewrite IH1. apply IH2.
Qed.

(** X8: the order of the records matters to the prices and not to the
    amounts.  When [merge_inventory] returns on a list, it returns on
    every permutation of the list, and the amount read under every key is
    the same; the totals of the prices need not be, floating-point
    addition not being associative: three records of one name with the
    prices 10, 20 and 30 merged in the two opposite orders leave two
    different totals. *)
Theorem merge_inventory_amount_perm :
  (forall agg agg1 items items',
      hashable_keys agg ->
      Permutation items items' ->
      merge_inventory str_to_float str_to_int agg items = Returns agg1 ->
      exists agg2,
        merge_inventory str_to_float str_to_int agg items' = Returns agg2
        /\ forall k, hashable k = true ->
             amount (tally_or_zero (find_entry k agg2))
             = amount (tally_or_zero (find_entry k agg1)))
  /\ (exists items items' agg1 agg2,
        Permutation items items'
        /\ merge_inventory str_to_float str_to_int [] items = Returns agg1
        /\ merge_inventory str_to_float str_to_int [] items' = Returns agg2
        /\ PrimFloat.eqb
             (total_price (tally_or_zero (find_entry (JStr "Coin") agg1)))
             (total_price (tally_or_zero (find_entry (JStr "Coin") agg2)))
           = false).
Proof.
  split.
  - intros agg agg1 items items' Hagg HP H1.
    assert (H2 : exists agg2,
               merge_inventory str_to_float str_to_int agg items'
               = Returns agg2).
    { apply merge_inventory_returns_iff.
      apply (Permutation_Forall HP).
      apply (merge_inventory_returns_iff agg). exists agg1. exact H1. }
    destruct H2 as [agg2 H2]. exists agg2. split; [exact H2 | ].
    intros k Hk.
    rewrite (proj2 (merge_inventory_fold agg agg1 items k Hagg Hk H1)).
    rewrite (proj2 (merge_inventory_fold agg agg2 items' k Hagg Hk H2)).
    symmetry. apply fold_contribution_perm, HP.
  - exists [coin 10; coin 20; coin 30], [coin 30; coin 20; coin 10].
    eexists. eexists. split; [ | split; [ | split]].
    + apply (Permutation_rev [coin 10; coin 20; coin 30]).
    + reflexivity.
    + reflexivity.
    + vm_compute. reflexivity.
Qed.
End EntryProps.

(** The widget, a record that raises and the widget again, read under
    ["Widget"]. *)
Lemma merge_inventory_entry_witness :
  exists merged rest,
    mixed_items = merged ++ rest
    /\ match merge_inventory PyRef.str_to_float PyRef.str_to_int []
               mixed_items with
       | Returns _ => rest = []
       | Raises e _ =>
           exists bad rest',
             rest = bad :: rest'
             /\ merge_item PyRef.str_to_float PyRef.str_to_int [] bad = Raise e
       end
    /\ hashable_keys
         (aggregate_of
            (merge_inventory PyRef.str_to_float PyRef.str_to_int []
               mixed_items))
    /\ find_entry (JStr "Widget")
         (aggregate_of
            (merge_inventory PyRef.str_to_float PyRef.str_to_int []
               mixed_items))
       = fold_left
           (contribution PyRef.str_to_float PyRef.str_to_int (JStr "Widget"))
           merged (find_entry (JStr "Widget") []).
Proof.
  apply (merge_inventory_entry PyRef.str_to_float PyRef.str_to_int
           [] mixed_items (JStr "Widget") (Forall_nil _) eq_refl).
Defined.

(** A gadget and two widgets, in two orders. *)
Lemma merge_inventory_amount_perm_witness :
  exists agg2,
    merge_inventory PyRef.str_to_float PyRef.str_to_int []
      [gadget; widget; widget]
    = Returns agg2
    /\ forall k, hashable k = true ->
         amount (tally_or_zero (find_entry k agg2))
         = amount (tally_or_zero
                     (find_entry k
                        [(JStr "Widget",
                          {| amount := 4; total_price := 5%float |});
                         (JStr "Gadget",
                          {| amount := 1; total_price := 0.75%float |})])).
Proof.
  apply (proj1 (merge_inventory_amount_perm PyRef.str_to_float
                  PyRef.str_to_int)
           [] _ [widget; gadget; widget] [gadget; widget; widget]
           (Forall_nil _)
           (perm_swap gadget widget [widget])
           eq_refl).
Defined.

(** ** The loop of [main] *)

Lemma deque_append_bounded {A : Type} (n : nat) (d : list A) (x : A) :
  (List.length d <= n)%nat -> (List.length (deque_append n d x) <= n)%nat.
Proof.
  intros H. rewrite <- (lastn_short n d H), deque_append_lastn.
  apply lastn_length.
Qed.

Lemma deque_append_room {A : Type} (n : nat) (d : list A) (x : A) :
  (List.length d < n)%nat -> deque_append n d x = d ++ [x].
Proof.
  intros H. unfold deque_append.
  destruct (n <? List.length (d ++ [x]))%nat eqn:E; [ | reflexivity].
  apply Nat.ltb_lt in E. rewrite length_app in E. simpl in E. lia.
Qed.

Lemma no_repeat_snoc (l : list signature) (s : signature) :
  no_repeat l -> contains l s = false -> no_repeat (l ++ [s]).
Proof.
  unfold no_repeat, contains.
  induction 1 as [ | x l Hx Hl IH]; simpl; intros Hc.
  - constructor; [constructor | constructor].
  - apply orb_false_iff in Hc. destruct Hc as [Hxs Hc].
    constructor; [ | apply IH, Hc].
    apply Forall_app. split; [exact Hx | ].
    constructor; [exact Hxs | constructor].
Qed.

Lemma no_repeat_tl (l : list signature) : no_repeat l -> no_repeat (tl l).
Proof.
  unfold no_repeat. destruct 1; simpl; [constructor | assumption].
Qed.

Lemma no_repeat_append (l : list signature) (s : signature) :
  no_repeat l -> contains l s = false ->
  no_repeat (deque_append seen_maxlen l s).
Proof.
  intros Hl Hc. unfold deque_append.
  destruct (seen_maxlen <? List.length (l ++ [s]))%nat;
    [apply no_repeat_tl | ]; apply no_repeat_snoc; assumption.
Qed.

Section LoopInvariants.
Variable json_loads : string -> result json.
Variable float_repr : float -> string.
Variable str_to_float : string -> option float.
Variable str_to_int : string -> option Z.
Variable echo : string -> json -> list json -> option exn.
Variable write_json : string -> dumped -> written.

(** What every run of the loop body keeps true of the deque. *)
Lemma handle_event_deque (st : state) (direction : string) (name : json)
    (evt_args : list json) :
  (List.length (seen st) <= seen_maxlen)%nat /\ no_repeat (seen st) ->
  (List.length
     (seen (state_of (handle_event float_repr str_to_float str_to_int
         echo write_json
                        st direction name evt_args))) <= seen_maxlen)%nat
  /\ no_repeat
       (seen (state_of (handle_event float_repr str_to_float str_to_int
           echo write_json
                          st direction name evt_args))).
Proof.
  intros [Hb Hn]. rewrite handle_event_seen.
  destruct (contains (seen st) _) eqn:E; [split; assumption | ].
  split; [apply deque_append_bounded, Hb | apply no_repeat_append; assumption].
Qed.

Lemma run_frames_deque (frames : gen (string * json)) :
  forall st,
    (List.length (seen st) <= seen_maxlen)%nat /\ no_repeat (seen st) ->
    (List.length
       (seen (fst (run_frames json_loads float_repr str_to_float str_to_int
           echo write_json
                     st frames))) <= seen_maxlen)%nat
    /\ no_repeat
         (seen (fst (run_frames json_loads float_repr str_to_float str_to_int
             echo write_json
                       st frames))).
Proof.
  induction frames as [ | [direction payload] rest IH | e]; intros st H; simpl;
    try exact H.
  destruct (parse_socketio json_loads payload) as [[[name evt_args] | ] | e];
    [ | apply IH, H | exact H].
  pose proof (handle_event_deque st direction name evt_args H) as H'.
  destruct (handle_event float_repr str_to_float str_to_int echo write_json
              st direction name evt_args) as [v st' | e st'];
    [apply IH, H' | exact H'].
Qed.

(** X9: the deque stays a bounded set of signatures through every tick of
    the loop, however the tick ends: it never holds more than 2000
    signatures, and no signature in it is equal to one that was appended
    after it. *)
Theorem poll_keeps_deque (st : state) (get_log : result (list json)) :
  (List.length (seen st) <= seen_maxlen)%nat ->
  no_repeat (seen st) ->
  (List.length
     (seen (fst (poll json_loads float_repr str_to_float str_to_int
         echo write_json
                   st get_log))) <= seen_maxlen)%nat
  /\ no_repeat
       (seen (fst (poll json_loads float_repr str_to_float str_to_int
           echo write_json
                     st get_log))).
Proof.
  intros Hb Hn. unfold poll. apply run_frames_deque. split; assumption.
Qed.

Lemma handle_event_no_items (st : state) (direction : string) (name : json)
    (evt_args : list json) :
  try_extract_inventory evt_args = [] ->
  inv (state_of (handle_event float_repr str_to_float str_to_int
                   echo write_json st direction name evt_args))
  = inv st
  /\ (forall e st',
        handle_event float_repr str_to_float str_to_int echo write_json
          st direction name evt_args
        = Abort e st' ->
        echo direction name evt_args = Some e)
  /\ (forall e,
        contains (seen st)
          (make_signature float_repr direction name evt_args) = false ->
        echo direction name evt_args = Some e ->
        exists st',
          handle_event float_repr str_to_float str_to_int echo write_json
            st direction name evt_args
          = Abort e st')
  /\ (echo direction name evt_args = None ->
      exists v st',
        handle_event float_repr str_to_float str_to_int echo write_json
          st direction name evt_args
        = Next v st'
        /\ inv st' = inv st).
Proof.
  intros H. unfold handle_event. rewrite H.
  destruct (contains (seen st) _).
  - split; [reflexivity | split; [discriminate | split; [discriminate | ]]].
    intros _. eexists. eexists. split; reflexivity.
  - destruct (echo direction name evt_args) as [x | ].
    + split; [reflexivity | split; [ | split; [ | discriminate]]].
      * intros e st' [= <- _]. reflexivity.
      * intros e _ [= <-]. eexists. reflexivity.
    + split; [reflexivity | split; [discriminate | split; [discriminate | ]]].
      intros _. eexists. eexists. split; reflexivity.
Qed.

(** X10: an empty list under [data.inventory] hides the list under
    [inventory]: the locator returns the empty list whatever the
    top-level list holds, and the loop body, which merges only a
    non-empty result, leaves the inventory as it was.  The only
    exception it can end with is one the echo of the event raises, and
    it does end with it when the event is new; when the echo returns, it
    goes on to the next frame. *)
Theorem empty_data_inventory_masks (st : state) (direction : string)
    (name : json) (d data : list (string * json)) (rest : list json) :
  lookup "data" d = Some (JDict data) ->
  lookup "inventory" data = Some (JList []) ->
  try_extract_inventory (JDict d :: rest) = []
  /\ inv (state_of (handle_event float_repr str_to_float str_to_int
                      echo write_json st direction name (JDict d :: rest)))
     = inv st
  /\ (forall e st',
        handle_event float_repr str_to_float str_to_int echo write_json
          st direction name (JDict d :: rest)
        = Abort e st' ->
        echo direction name (JDict d :: rest) = Some e)
  /\ (forall e,
        contains (seen st)
          (make_signature float_repr direction name (JDict d :: rest))
        = false ->
        echo direction name (JDict d :: rest) = Some e ->
        exists st',
          handle_event float_repr str_to_float str_to_int echo write_json
            st direction name (JDict d :: rest)
          = Abort e st')
  /\ (echo direction name (JDict d :: rest) = None ->
      exists v st',
        handle_event float_repr str_to_float str_to_int echo write_json
          st direction name (JDict d :: rest)
        = Next v st'
        /\ inv st' = inv st).
Proof.
  intros Hd Hi.
  assert (H : try_extract_inventory (JDict d :: rest) = []).
  { unfold try_extract_inventory, candidates, dict_get.
    rewrite Hd, Hi. simpl.
    destruct (is_list match lookup "inventory" d with
                      | Some v => v
                      | None => JNull
                      end); reflexivity. }
  split; [exact H | apply handle_event_no_items, H].
Qed.
End LoopInvariants.

Lemma poll_keeps_deque_witness :
  (List.length
     (seen (fst (poll PyRef.json_loads PyRef.float_repr PyRef.str_to_float
                   PyRef.str_to_int
                       PyRef.echo PyRef.write_json empty_state (Ok sample_log))))
   <= seen_maxlen)%nat
  /\ no_repeat
       (seen (fst (poll PyRef.json_loads PyRef.float_repr PyRef.str_to_float
                     PyRef.str_to_int
                         PyRef.echo PyRef.write_json empty_state (Ok sample_log)))).
Proof.
  apply (poll_keeps_deque PyRef.json_loads PyRef.float_repr
           PyRef.str_to_float PyRef.str_to_int
               PyRef.echo PyRef.write_json empty_state (Ok sample_log)).
  - simpl. unfold seen_maxlen. lia.
  - constructor.
Defined.

(** [{"data": {"inventory": []}, "inventory": [widget]}], in an event
    whose name the console takes. *)
Lemma empty_data_inventory_masks_witness :
  exists v st',
    handle_event PyRef.float_repr PyRef.str_to_float PyRef.str_to_int
      PyRef.echo PyRef.write_json empty_state "in" (JStr "inventory")
      [JDict [("data", JDict [("inventory", JList [])]);
              ("inventory", JList [widget])]]
    = Next v st'
    /\ inv st' = inv empty_state.
Proof.
  apply (proj2 (proj2 (proj2 (proj2 (empty_data_inventory_masks
                  PyRef.float_repr PyRef.str_to_float PyRef.str_to_int
                  PyRef.echo PyRef.write_json
                  empty_state "in" (JStr "inventory")
                  [("data", JDict [("inventory", JList [])]);
                   ("inventory", JList [widget])]
                  [("inventory", JList [])] [] eq_refl eq_refl))))).
  reflexivity.
Defined.

(** ** [iter_ws_frames] *)

Lemma ws_frames_step (m : json) (rest : list json) :
  ws_frames (m :: rest)
  = match m with
    | JDict _ =>
        match direction_of m with
        | Some d =>
            match payload_data m with
            | Ok p => Yield (d, p) (ws_frames rest)
            | Raise e => Throw e
            end
        | None => ws_frames rest
        end
    | _ => Throw AttributeError
    end.
Proof.
  destruct m as [ | b | z | f | s | l | d]; try reflexivity.
  unfold direction_of. simpl.
  destruct (py_eq _ (JStr "Network.webSocketFrameReceived"));
    [reflexivity | ].
  destruct (py_eq _ (JStr "Network.webSocketFrameSent")); reflexivity.
Qed.

(** X11: [iter_ws_frames] gets through the messages without raising
    exactly when each of them is an object and each frame among them has
    its payload at [params.response.payloadData]; it then yields one pair
    for each frame, in the order of the messages, and nothing for the
    other messages; and whether it raises or not, a direction it yields
    is ["in"] or ["out"]. *)
Theorem ws_frames_total_iff (msgs : list json) :
  (thrown (ws_frames msgs) = None <-> Forall well_shaped msgs)
  /\ (Forall well_shaped msgs ->
      yielded (ws_frames msgs) = flat_map frames_of msgs)
  /\ Forall (fun f => fst f = "in"%string \/ fst f = "out"%string)
       (yielded (ws_frames msgs)).
Proof.
  assert (Hdir : forall m d, direction_of m = Some d ->
                             d = "in"%string \/ d = "out"%string).
  { intros m d. unfold direction_of.
    destruct (py_get_default m "method" (JStr "")) as [method | ];
      [ | discriminate].
    destruct (py_eq method (JStr "Network.webSocketFrameReceived"));
      [intros [= <-]; left; reflexivity | ].
    destruct (py_eq method (JStr "Network.webSocketFrameSent"));
      [intros [= <-]; right; reflexivity | discriminate]. }
  induction msgs as [ | m rest (IH1 & IH2 & IH3)].
  - repeat split; try constructor.
  - rewrite ws_frames_step. unfold well_shaped, frames_of in *.
    destruct m as [ | b | z | f | s | l | d];
      try (simpl; split; [split; [discriminate | ] | split; [ | constructor]];
           intros H; inversion H as [ | x l' [Hx _] Hl]; discriminate Hx).
    destruct (direction_of (JDict d)) as [dir | ] eqn:Ed.
    + destruct (payload_data (JDict d)) as [p | e] eqn:Ep; simpl.
      * split; [ | split].
        -- rewrite IH1. split.
           ++ intros H. constructor; [ | exact H].
              split; [reflexivity | ]. intros _. exists p. exact Ep.
           ++ intros H. inversion H; assumption.
        -- intros H. inversion H as [ | x l Hx Hl]; subst.
           rewrite Ed, Ep. simpl. f_equal. apply IH2, Hl.
        -- constructor; [apply (Hdir _ _ Ed) | exact IH3].
      * split; [ | split; [ | constructor]].
        -- split; [discriminate | ].
           intros H. inversion H as [ | x l [_ Hx] Hl]; subst.
           rewrite Ed in Hx. destruct Hx as [p Hp]; [discriminate | ].
           rewrite Ep in Hp. discriminate.
        -- intros H. inversion H as [ | x l [_ Hx] Hl]; subst.
           rewrite Ed in Hx. destruct Hx as [p Hp]; [discriminate | ].
           rewrite Ep in Hp. discriminate.
    + split; [ | split].
      * rewrite IH1. split.
        -- intros H. constructor; [ | exact H].
           split; [reflexivity | ]. intros Hne. rewrite Ed in Hne.
           contradiction.
        -- intros H. inversion H; assumption.
      * intros H. inversion H as [ | x l Hx Hl]; subst.
        cbn [flat_map]. rewrite Ed. simpl. apply IH2, Hl.
      * exact IH3.
Qed.

(** ** Reading the same frames again *)

Lemma contains_app (l l' : list signature) (s : signature) :
  contains (l ++ l') s = contains l s || contains l' s.
Proof. unfold contains. apply existsb_app. Qed.

Section Replay.
Variable json_loads : string -> result json.
Variable float_repr : float -> string.
Variable str_to_float : string -> option float.
Variable str_to_int : string -> option Z.
Variable echo : string -> json -> list json -> option exn.
Variable write_json : string -> dumped -> written.

(** While the deque has room, an event that is handled is found in the
    deque afterwards, and the deque has only grown at its right end. *)
Lemma handle_event_recorded (st st' : state) (v : verdict)
    (direction : string) (name : json) (evt_args : list json) :
  wf_json name = true ->
  (List.length (seen st) < seen_maxlen)%nat ->
  handle_event float_repr str_to_float str_to_int
      echo write_json st direction name evt_args
  = Next v st' ->
  (exists extra, seen st' = seen st ++ extra
                 /\ (List.length extra <= 1)%nat)
  /\ contains (seen st') (make_signature float_repr direction name evt_args)
     = true.
Proof.
  intros Hwf Hroom H.
  pose proof (handle_event_seen float_repr str_to_float str_to_int
      echo write_json
                st direction name evt_args) as Hs.
  rewrite H in Hs. simpl in Hs. rewrite Hs.
  destruct (contains (seen st) _) eqn:E.
  - split; [exists []; rewrite app_nil_r; split; [reflexivity | simpl; lia] | ].
    exact E.
  - rewrite (deque_append_room _ _ _ Hroom). split.
    + eexists. split; [reflexivity | simpl; lia].
    + rewrite contains_app. apply orb_true_iff. right.
      unfold contains. cbn [existsb].
      rewrite sig_eq_refl by exact Hwf. reflexivity.
Qed.

Lemma run_frames_replay (frames : gen (string * json)) :
  forall st st',
    Forall (fun f =>
              forall name evt_args,
                parse_socketio json_loads (snd f) = Ok (Some (name, evt_args)) ->
                wf_json name = true)
      (yielded frames) ->
    (List.length (seen st) + List.length (yielded frames) <= seen_maxlen)%nat ->
    run_frames json_loads float_repr str_to_float str_to_int
        echo write_json st frames
    = (st', None) ->
    (exists extra, seen st' = seen st ++ extra)
    /\ run_frames json_loads float_repr str_to_float str_to_int
        echo write_json st' frames
       = (st', None).
Proof.
  induction frames as [ | [direction payload] rest IH | e];
    intros st st' Hwf Hroom; simpl.
  - intros [= <-]. split; [exists []; rewrite app_nil_r | ]; reflexivity.
  - simpl in Hwf, Hroom. inversion Hwf as [ | x l Hname Hrest]; subst.
    simpl in Hname.
    destruct (parse_socketio json_loads payload)
      as [[[name evt_args] | ] | e] eqn:Ep; [ | | discriminate].
    + destruct (handle_event float_repr str_to_float str_to_int echo write_json
                  st direction name evt_args) as [v st1 | e st1] eqn:Eh;
        [ | discriminate].
      intros Hrun.
      destruct (handle_event_recorded st st1 v direction name evt_args
                  (Hname name evt_args eq_refl) ltac:(lia) Eh)
        as [(ex0 & Hs1 & Hlen) Hin].
      destruct (IH st1 st' Hrest ltac:(rewrite Hs1, length_app; lia) Hrun)
        as [(ex1 & Hs') Hre].
      split; [exists (ex0 ++ ex1); rewrite Hs', Hs1, app_assoc; reflexivity | ].
      unfold handle_event.
      replace (contains (seen st')
                 (make_signature float_repr direction name evt_args))
        with true; [exact Hre | ].
      rewrite Hs', contains_app, Hin. reflexivity.
    + intros Hrun.
      destruct (IH st st' Hrest ltac:(lia) Hrun) as [Hex Hre].
      split; assumption.
  - discriminate.
Qed.

(** X12: reading the same log a second time changes nothing: when a tick
    ends without an exception and the deque had room for every frame of
    the log, a tick that finds the same log leaves the deque and the
    inventory as the first tick left them, again without an exception.
    Event names are documents [json.loads] built, in which an object
    holds each key once. *)
Theorem poll_twice (st st' : state) (get_log : result (list json)) :
  Forall (fun f =>
            forall name evt_args,
              parse_socketio json_loads (snd f) = Ok (Some (name, evt_args)) ->
              wf_json name = true)
    (yielded (iter_ws_frames json_loads get_log)) ->
  (List.length (seen st)
   + List.length (yielded (iter_ws_frames json_loads get_log))
   <= seen_maxlen)%nat ->
  poll json_loads float_repr str_to_float str_to_int echo write_json st get_log
  = (st', None) ->
  poll json_loads float_repr str_to_float str_to_int echo write_json st' get_log
  = (st', None).
Proof.
  unfold poll. intros Hwf Hroom Hrun.
  apply (run_frames_replay _ st st' Hwf Hroom Hrun).
Qed.
End Replay.

Lemma poll_twice_witness :
  let st' :=
    fst (poll PyRef.json_loads PyRef.float_repr PyRef.str_to_float
           PyRef.str_to_int
               PyRef.echo PyRef.write_json empty_state (Ok sample_log)) in
  poll PyRef.json_loads PyRef.float_repr PyRef.str_to_float PyRef.str_to_int
      PyRef.echo PyRef.write_json
    st' (Ok sample_log)
  = (st', None).
Proof.
  apply (poll_twice PyRef.json_loads PyRef.float_repr PyRef.str_to_float
           PyRef.str_to_int
               PyRef.echo PyRef.write_json empty_state _ (Ok sample_log)).
  - match goal with
    | |- Forall _ ?l => let l' := eval vm_compute in l in change l with l'
    end.
    repeat (apply Forall_cons;
            [intros name evt_args H; vm_compute in H;
             first [discriminate H | injection H as <- _; reflexivity] | ]).
    apply Forall_nil.
  - apply Nat.leb_le. vm_compute. reflexivity.
  - vm_compute. reflexivity.
Defined.

(** ** The files *)

Lemma put_same (path : string) (c : content) (fs : disk) :
  put path c fs path = Some c.
Proof. unfold put. rewrite String.eqb_refl. reflexivity. Qed.

Lemma put_other (path p : string) (c : content) (fs : disk) :
  p <> path -> put path c fs p = fs p.
Proof.
  intros H. unfold put.
  destruct (String.eqb_spec p path); [contradiction | reflexivity].
Qed.

Section FileProps.
Variable json_loads : string -> result json.
Variable float_repr : float -> string.
Variable str_to_float : string -> option float.
Variable str_to_int : string -> option Z.
Variable echo : string -> json -> list json -> option exn.
Variable write_json : string -> dumped -> written.
Variable report : list (json * tally) -> option exn.

(** What [save_json] does to the files, by the way it ends. *)
Lemma save_json_spec (path : string) (data : dumped) (fs : disk) :
  snd (save_json write_json path data fs) = raised (write_json path data)
  /\ (forall p, p <> path -> fst (save_json write_json path data fs) p = fs p)
  /\ (snd (save_json write_json path data fs) = None ->
      fst (save_json write_json path data fs) path = Some (Whole data)).
Proof.
  unfold save_json.
  destruct (write_json path data) as [ | e | e]; simpl;
    repeat split; try discriminate; auto using put_other, put_same.
Qed.

(** With the files and the log forgotten, the loop body is the one on the
    variables alone. *)
Lemma handle_event_io_erase (w : world) (direction : string) (name : json)
    (evt_args : list json) :
  erase (handle_event_io float_repr str_to_float str_to_int echo write_json
           w direction name evt_args)
  = handle_event float_repr str_to_float str_to_int echo write_json
      (vars w) direction name evt_args.
Proof.
  unfold handle_event_io, handle_event.
  destruct (contains (seen (vars w)) _); [reflexivity | ].
  destruct (echo direction name evt_args); [reflexivity | ].
  destruct (try_extract_inventory evt_args); [reflexivity | ].
  destruct (merge_inventory _ _ _ _) as [agg | e agg]; [ | reflexivity].
  unfold save_json.
  destruct (write_json INV_FILE (InvData agg)); reflexivity.
Qed.


(** However the loop body ends, it has written to no file but [INV_FILE],
    and what it has logged is records of saves. *)
Lemma handle_event_io_kept (fs0 : disk) (j0 : list log_record) (w : world)
    (direction : string) (name : json) (evt_args : list json) :
  only_inv_file fs0 w
  /\ (exists saved, journal w = j0 ++ saved /\ save_records saved) ->
  only_inv_file fs0
    (world_of (handle_event_io float_repr str_to_float str_to_int
                 echo write_json w direction name evt_args))
  /\ (exists saved,
        journal (world_of (handle_event_io float_repr str_to_float str_to_int
                             echo write_json w direction name evt_args))
        = j0 ++ saved
        /\ save_records saved).
Proof.
  unfold handle_event_io, only_inv_file. intros [H Hj].
  destruct (contains (seen (vars w)) _); [split; assumption | ].
  destruct (echo direction name evt_args); [split; assumption | ].
  destruct (try_extract_inventory evt_args) as [ | it items];
    [split; assumption | ].
  destruct (merge_inventory _ _ _ _) as [agg | e agg]; [ | split; assumption].
  pose proof (save_json_spec INV_FILE (InvData agg) (files w))
    as (_ & Hother & _).
  destruct (save_json write_json INV_FILE (InvData agg) (files w))
    as [fs [e | ]]; simpl in *.
  - split; [ | exact Hj]. intros p Hp Hl. rewrite Hother by exact Hp. auto.
  - split; [intros p Hp Hl; rewrite Hother by exact Hp; auto | ].
    destruct Hj as (saved & -> & Hs).
    exists (saved ++ [InventorySaved (List.length agg)]).
    split; [symmetry; apply app_assoc | ].
    apply Forall_app. split; [exact Hs | ].
    constructor; [eexists; reflexivity | constructor].
Qed.

Lemma run_frames_io_kept (fs0 : disk) (j0 : list log_record)
    (frames : gen (string * json)) :
  forall w,
    only_inv_file fs0 w
    /\ (exists saved, journal w = j0 ++ saved /\ save_records saved) ->
    only_inv_file fs0
      (fst (run_frames_io json_loads float_repr str_to_float str_to_int
              echo write_json w frames))
    /\ (exists saved,
          journal (fst (run_frames_io json_loads float_repr str_to_float
                          str_to_int echo write_json w frames))
          = j0 ++ saved
          /\ save_records saved).
Proof.
  induction frames as [ | [direction payload] rest IH | e]; intros w H; simpl;
    try exact H.
  destruct (parse_socketio json_loads payload) as [[[name evt_args] | ] | e];
    [ | apply IH, H | exact H].
  pose proof (handle_event_io_kept fs0 j0 w direction name evt_args H) as H'.
  destruct (handle_event_io float_repr str_to_float str_to_int
              echo write_json w direction name evt_args) as [v w' | e w'];
    [apply IH, H' | exact H'].
Qed.


Lemma run_ticks_kept (fs0 : disk) (j0 : list log_record)
    (ticks : list (result (list json))) :
  forall w,
    only_inv_file fs0 w
    /\ (exists saved, journal w = j0 ++ saved /\ save_records saved) ->
    only_inv_file fs0
      (fst (run_ticks json_loads float_repr str_to_float str_to_int
              echo write_json w ticks))
    /\ (exists saved,
          journal (fst (run_ticks json_loads float_repr str_to_float
                          str_to_int echo write_json w ticks))
          = j0 ++ saved
          /\ save_records saved).
Proof.
  induction ticks as [ | get_log rest IH]; intros w H; simpl; [exact H | ].
  pose proof (run_frames_io_kept fs0 j0
                (iter_ws_frames json_loads get_log) w H) as H'.
  unfold poll_io.
  destruct (run_frames_io json_loads float_repr str_to_float str_to_int
              echo write_json w (iter_ws_frames json_loads get_log))
    as [w' [e | ]]; [exact H' | apply IH, H'].
Qed.


(** What holds of the world the loop leaves, however it ends. *)
Lemma loop_kept (fs : disk) (ticks : list (result (list json))) :
  only_inv_file fs
    (fst (run_ticks json_loads float_repr str_to_float str_to_int
            echo write_json (start_world fs) ticks))
  /\ (exists saved,
        journal (fst (run_ticks json_loads float_repr str_to_float
                        str_to_int echo write_json (start_world fs) ticks))
        = [Listening] ++ saved
        /\ save_records saved).
Proof.
  apply run_ticks_kept. split; [intros p _ _; reflexivity | ].
  exists []. split; [reflexivity | constructor].
Qed.

Lemma save_records_not_finished (saved : list log_record) :
  save_records saved -> ~ In Finished ([Listening] ++ saved).
Proof.
  unfold save_records. rewrite Forall_forall.
  intros H [E | Hin]; [discriminate E | ].
  destruct (H _ Hin) as [n E]. discriminate E.
Qed.


(** X14: the listening part of [main] ends with an exception in three
    ways.  The loop raised it: then the final dump is skipped, [OUT_FILE]
    is as it was found, and the end is not logged.  Or the final dump
    raised it: then the end is not logged either, and [OUT_FILE] does not
    hold the whole of the data.  Or the dump was written and logged, and
    the report of the first five entries raised it.  In each case no file
    but [INV_FILE], [OUT_FILE] and the log has changed. *)
Theorem main_listen_raises (fs : disk) (ticks : list (result (list json)))
    (w : world) (e : exn) :
  main_listen json_loads float_repr str_to_float str_to_int
    echo write_json report fs ticks
  = (w, Raise e) ->
  ((run_ticks json_loads float_repr str_to_float str_to_int
      echo write_json (start_world fs) ticks = (w, Some e)
    /\ files w OUT_FILE = fs OUT_FILE
    /\ ~ In Finished (journal w))
   \/ (raised (write_json OUT_FILE (OutData (inv (vars w)) [])) = Some e
       /\ (files w OUT_FILE = fs OUT_FILE
           \/ files w OUT_FILE = Some (Part (OutData (inv (vars w)) [])))
       /\ ~ In Finished (journal w))
   \/ (report (firstn 5 (inv (vars w))) = Some e
       /\ files w OUT_FILE = Some (Whole (OutData (inv (vars w)) []))
       /\ In Finished (journal w)))
  /\ (forall p, p <> INV_FILE -> p <> OUT_FILE -> p <> LOG_FILE ->
                files w p = fs p).
Proof.
  unfold main_listen.
  pose proof (loop_kept fs ticks) as [Ho (saved & Hj & Hs)].
  destruct (run_ticks json_loads float_repr str_to_float str_to_int
              echo write_json (start_world fs) ticks)
    as [w1 [e1 | ]] eqn:E; simpl in Ho, Hj.
  - intros [= <- <-]. split.
    + left. split; [reflexivity | ].
      split; [apply Ho; discriminate | ].
      rewrite Hj. apply save_records_not_finished, Hs.
    + intros p Hi _ Hl. apply Ho; assumption.
  - unfold save_json.
    destruct (write_json OUT_FILE (OutData (inv (vars w1)) []))
      as [ | x | x] eqn:Ew.
    + destruct (report (firstn 5 (inv (vars w1)))) as [x | ] eqn:Er;
        [ | discriminate].
      intros [= <- <-]. simpl. split.
      * right. right. split; [exact Er | ].
        split; [apply put_same | ].
        apply in_or_app. right. left. reflexivity.
      * intros p Hi Hout Hl. rewrite put_other by exact Hout.
        apply Ho; assumption.
    + intros [= <- <-]. simpl. split.
      * right. left. rewrite Ew. split; [reflexivity | ].
        split; [left; apply Ho; discriminate | ].
        rewrite Hj. apply save_records_not_finished, Hs.
      * intros p Hi _ Hl. apply Ho; assumption.
    + intros [= <- <-]. simpl. split.
      * right. left. rewrite Ew. split; [reflexivity | ].
        split; [right; apply put_same | ].
        rewrite Hj. apply save_records_not_finished, Hs.
      * intros p Hi Hout Hl. rewrite put_other by exact Hout.
        apply Ho; assumption.
Qed.

(** X15: records merged before one that raises are in [inv] and in no
    file: when an event that is not in the deque, and whose echo the
    console takes, carries a list in which the records [good] are
    accepted and the next one raises, the loop body ends with that
    exception, [inv] holds the records [good], and neither [INV_FILE]
    nor the log is written. *)
Theorem partial_merge_not_saved (w : world) (direction : string) (name : json)
    (good rest : list json) (bad : json) (agg1 : aggregate) (e : exn) :
  contains (seen (vars w))
    (make_signature float_repr direction name [JList (good ++ bad :: rest)])
  = false ->
  echo direction name [JList (good ++ bad :: rest)] = None ->
  merge_inventory str_to_float str_to_int (inv (vars w)) good = Returns agg1 ->
  merge_item str_to_float str_to_int (inv (vars w)) bad = Raise e ->
  exists w',
    handle_event_io float_repr str_to_float str_to_int echo write_json
      w direction name [JList (good ++ bad :: rest)]
    = WAbort e w'
    /\ inv (vars w') = agg1
    /\ files w' = files w
    /\ journal w' = journal w.
Proof.
  intros Hc Hecho Hgood Hbad. unfold handle_event_io. rewrite Hc, Hecho.
  change (try_extract_inventory [JList (good ++ bad :: rest)])
    with (good ++ bad :: rest).
  rewrite (merge_inventory_raise_at str_to_float str_to_int
             (inv (vars w)) agg1 good rest bad e Hgood
             (merge_item_raise_any str_to_float str_to_int
                (inv (vars w)) agg1 bad e Hbad)).
  destruct (good ++ bad :: rest) eqn:El;
    [destruct good; discriminate | ].
  eexists. split; [reflexivity | repeat split].
Qed.
End FileProps.


(** The sample log, then a log with a quantity [int] rejects: the loop
    raises, and [OUT_FILE] is not written. *)
Lemma main_listen_raises_witness :
  let w :=
    fst (main_listen PyRef.json_loads PyRef.float_repr PyRef.str_to_float
           PyRef.str_to_int PyRef.echo PyRef.write_json PyRef.report
           no_files [Ok sample_log; Ok bad_quantity_log]) in
  (run_ticks PyRef.json_loads PyRef.float_repr PyRef.str_to_float
     PyRef.str_to_int PyRef.echo PyRef.write_json (start_world no_files)
     [Ok sample_log; Ok bad_quantity_log]
   = (w, Some ValueError)
   /\ files w OUT_FILE = no_files OUT_FILE
   /\ ~ In Finished (journal w))
  \/ (raised (PyRef.write_json OUT_FILE (OutData (inv (vars w)) []))
      = Some ValueError
      /\ (files w OUT_FILE = no_files OUT_FILE
          \/ files w OUT_FILE = Some (Part (OutData (inv (vars w)) [])))
      /\ ~ In Finished (journal w))
  \/ (PyRef.report (firstn 5 (inv (vars w))) = Some ValueError
      /\ files w OUT_FILE = Some (Whole (OutData (inv (vars w)) []))
      /\ In Finished (journal w)).
Proof.
  intros w.
  apply (proj1 (main_listen_raises PyRef.json_loads PyRef.float_repr
                  PyRef.str_to_float PyRef.str_to_int
                  PyRef.echo PyRef.write_json PyRef.report no_files
                  [Ok sample_log; Ok bad_quantity_log] w ValueError
                  ltac:(vm_compute; reflexivity))).
Defined.

(** The widget followed by a record whose quantity is ["abc"]. *)
Lemma partial_merge_not_saved_witness :
  exists w',
    handle_event_io PyRef.float_repr PyRef.str_to_float PyRef.str_to_int
      PyRef.echo PyRef.write_json
      empty_world "in" (JStr "inventory") partly_bad_args
    = WAbort ValueError w'
    /\ inv (vars w')
       = [(JStr "Widget", {| amount := 2; total_price := 2.5%float |})]
    /\ files w' = files empty_world
    /\ journal w' = journal empty_world.
Proof.
  exact (partial_merge_not_saved PyRef.float_repr PyRef.str_to_float
           PyRef.str_to_int PyRef.echo PyRef.write_json
           empty_world "in" (JStr "inventory")
           [widget] [] bad_quantity _ ValueError
           eq_refl eq_refl eq_refl eq_refl).
Defined.

(** The reference decoder and console on escapes: a surrogate without a
    partner is kept and refused by the console; a pair makes one
    character, which the console takes, as it takes the characters on
    either side of the surrogates. *)
Example lone_surrogate_decoded :
  PyRef.json_loads (q "\ud800") = Ok lone_surrogate
  /\ PyRef.echo "in" lone_surrogate [] = Some UnicodeEncodeError
  /\ PyRef.echo "in" (JStr "tick") [lone_surrogate] = None
  /\ PyRef.echo "in" (JList [lone_surrogate]) [] = None.
Proof. repeat split; vm_compute; reflexivity. Qed.

Example surrogate_vectors :
  option_map PyRef.unencodable
    (match PyRef.json_loads (q "a\udfffb") with Ok v => Some v | _ => None end)
  = Some true
  /\ option_map PyRef.unencodable
       (match PyRef.json_loads (q "\ud83d\ude00") with
        | Ok v => Some v | _ => None end)
     = Some false
  /\ option_map PyRef.unencodable
       (match PyRef.json_loads (q "\ud7ff") with
        | Ok v => Some v | _ => None end)
     = Some false
  /\ option_map PyRef.unencodable
       (match PyRef.json_loads (q "\ue000") with
        | Ok v => Some v | _ => None end)
     = Some false
  /\ option_map PyRef.unencodable
       (match PyRef.json_loads (q "\u043f") with
        | Ok v => Some v | _ => None end)
     = Some false.
Proof. repeat split; vm_compute; reflexivity. Qed.

(** The reference files and report on an entry named by a surrogate:
    the dump breaks off, and so does the report. *)
Example surrogate_entry_refused :
  PyRef.write_json INV_FILE
    (InvData [(JStr "Widget", {| amount := 1; total_price := 0%float |});
              (lone_surrogate, {| amount := 1; total_price := 0%float |})])
  = Broken UnicodeEncodeError
  /\ PyRef.write_json OUT_FILE
       (OutData [(JNull, {| amount := 1; total_price := 0%float |});
                 (JBool true, {| amount := 1; total_price := 0%float |});
                 (JFloat 1.5, {| amount := 1; total_price := 0%float |})] [])
     = Written
  /\ PyRef.report
       [(lone_surrogate, {| amount := 1; total_price := 0%float |})]
     = Some UnicodeEncodeError
  /\ PyRef.report [(JNull, {| amount := 1; total_price := 0%float |})]
     = None.
Proof. repeat split; vm_compute; reflexivity. Qed.

(** What the reference console does with a name that holds a surrogate:
    the loop body records the event as seen and ends with the exception
    of the echo, nothing being merged. *)
Example surrogate_name_aborts :
  handle_event PyRef.float_repr PyRef.str_to_float PyRef.str_to_int
    PyRef.echo PyRef.write_json empty_state "in" lone_surrogate
    [JList [widget]]
  = Abort UnicodeEncodeError
      {| seen := [make_signature PyRef.float_repr "in" lone_surrogate
                    [JList [widget]]];
         inv := [] |}.
Proof. reflexivity. Qed.

(** ** Reading a serialized document back *)

Lemma string_app_assoc (a b c : string) :
  ((a ++ b) ++ c)%string = (a ++ b ++ c)%string.
Proof. induction a as [ | x a IH]; simpl; [reflexivity | rewrite IH; reflexivity]. Qed.

Lemma string_app_nil_r (a : string) : (a ++ "")%string = a.
Proof. induction a as [ | x a IH]; simpl; [reflexivity | rewrite IH; reflexivity]. Qed.

Lemma string_app_inv_head (a b c : string) :
  (a ++ b)%string = (a ++ c)%string -> b = c.
Proof. induction a as [ | x a IH]; simpl; [auto | intros [= H]; auto]. Qed.

Lemma string_forallb_impl (p q : ascii -> bool) (s : string) :
  (forall c, p c = true -> q c = true) ->
  string_forallb p s = true -> string_forallb q s = true.
Proof.
  intros Hpq. induction s as [ | c s IH]; simpl; [reflexivity | ].
  rewrite !andb_true_iff. intros [Hc Hs]. auto.
Qed.

(** *** Strings *)

Lemma unescape_head_escape (c : ascii) (rest : string) :
  unescape_head (escape_char c ++ rest) = Some (c, rest).
Proof.
  destruct c as [[ | ] [ | ] [ | ] [ | ] [ | ] [ | ] [ | ] [ | ]];
    reflexivity.
Qed.

Lemma unescape_head_quote (rest : string) :
  unescape_head (quote ++ rest) = None.
Proof. reflexivity. Qed.

Lemma escape_string_unique (s : string) :
  forall s' r r',
    (escape_string s ++ quote ++ r)%string
    = (escape_string s' ++ quote ++ r')%string ->
    s = s' /\ r = r'.
Proof.
  induction s as [ | c s IH]; intros [ | c' s'] r r' H.
  - split; [reflexivity | ]. apply (string_app_inv_head quote), H.
  - exfalso. apply (f_equal unescape_head) in H.
    cbn [escape_string] in H.
    rewrite string_app_assoc, unescape_head_escape in H.
    change (unescape_head (quote ++ r)) with (@None (ascii * string)) in H.
    discriminate H.
  - exfalso. apply (f_equal unescape_head) in H.
    cbn [escape_string] in H.
    rewrite string_app_assoc, unescape_head_escape in H.
    change (unescape_head (quote ++ r')) with (@None (ascii * string)) in H.
    discriminate H.
  - apply (f_equal unescape_head) in H. cbn [escape_string] in H.
    rewrite !string_app_assoc, !unescape_head_escape in H.
    injection H as -> H.
    destruct (IH s' r r' H) as [-> ->]. split; reflexivity.
Qed.

Lemma encode_basestring_unique (s s' r r' : string) :
  (encode_basestring s ++ r)%string = (encode_basestring s' ++ r')%string ->
  s = s' /\ r = r'.
Proof.
  unfold encode_basestring. rewrite !string_app_assoc. intros H.
  apply string_app_inv_head in H. apply escape_string_unique, H.
Qed.

(** *** Tokens *)

Lemma token_unique (u : string) :
  forall v s t,
    string_forallb (fun c => negb (is_delim c)) u = true ->
    string_forallb (fun c => negb (is_delim c)) v = true ->
    token_end s = true -> token_end t = true ->
    (u ++ s)%string = (v ++ t)%string ->
    u = v /\ s = t.
Proof.
  induction u as [ | c u IH]; intros [ | c' v] s t Hu Hv Hs Ht H; simpl in *.
  - split; [reflexivity | exact H].
  - exfalso. subst s. simpl in Hs. rewrite Hs in Hv. discriminate Hv.
  - exfalso. subst t. simpl in Ht. rewrite Ht in Hu. discriminate Hu.
  - injection H as -> H.
    apply andb_true_iff in Hu. apply andb_true_iff in Hv.
    destruct (IH v s t (proj2 Hu) (proj2 Hv) Hs Ht H) as [-> ->].
    split; reflexivity.
Qed.

Lemma int_char_plain (c : ascii) :
  is_int_char c = true ->
  is_delim c = false /\ is_float_char c = true /\ is_float_mark c = false
  /\ forall r, shape_of_text (String c r) = Some SAtom.
Proof.
  destruct c as [[ | ] [ | ] [ | ] [ | ] [ | ] [ | ] [ | ] [ | ]];
    intros H; try discriminate H; repeat split.
Qed.

Lemma float_char_plain (c : ascii) :
  is_float_char c = true ->
  is_delim c = false /\ forall r, shape_of_text (String c r) = Some SAtom.
Proof.
  destruct c as [[ | ] [ | ] [ | ] [ | ] [ | ] [ | ] [ | ] [ | ]];
    intros H; try discriminate H; repeat split.
Qed.

(** *** Integers *)

Lemma string_of_uint_digits (d : Decimal.uint) :
  string_forallb is_int_char (DecimalString.NilEmpty.string_of_uint d) = true.
Proof. induction d; simpl; auto. Qed.

Lemma int_repr_chars (z : Z) :
  string_forallb is_int_char (int_repr z) = true.
Proof.
  unfold int_repr, DecimalString.NilZero.string_of_int,
    DecimalString.NilZero.string_of_uint.
  destruct (Z.to_int z) as [d | d]; destruct d;
    try reflexivity; try apply string_of_uint_digits;
    apply (string_of_uint_digits (Decimal.D0 Decimal.Nil)) || idtac;
    change (is_int_char "-" && string_forallb is_int_char
              (DecimalString.NilEmpty.string_of_uint _) = true);
    apply string_of_uint_digits.
Qed.

Lemma to_int_nonnil (n : Z) :
  Z.to_int n <> Decimal.Pos Decimal.Nil /\ Z.to_int n <> Decimal.Neg Decimal.Nil.
Proof.
  destruct n as [ | p | p]; simpl; split; try discriminate;
    intros [= E]; apply (DecimalPos.Unsigned.to_uint_nonnil p E).
Qed.

Lemma int_repr_inj (z z' : Z) : int_repr z = int_repr z' -> z = z'.
Proof.
  unfold int_repr. intros H.
  apply DecimalZ.to_int_inj.
  apply (f_equal DecimalString.NilZero.int_of_string) in H.
  rewrite !DecimalString.NilZero.isi in H by apply to_int_nonnil.
  congruence.
Qed.

Lemma int_repr_head (z : Z) :
  exists c r, int_repr z = String c r /\ is_int_char c = true.
Proof.
  pose proof (int_repr_chars z) as H.
  destruct (int_repr z) as [ | c r] eqn:E.
  - exfalso. unfold int_repr in E.
    assert (E' : DecimalString.NilZero.int_of_string
                   (DecimalString.NilZero.string_of_int (Z.to_int z)) = None)
      by (rewrite E; reflexivity).
    rewrite DecimalString.NilZero.isi in E' by apply to_int_nonnil.
    discriminate E'.
  - simpl in H. apply andb_true_iff in H.
    exists c, r. split; [reflexivity | apply H].
Qed.

Lemma int_chars_no_mark (s : string) :
  string_forallb is_int_char s = true -> string_existsb is_float_mark s = false.
Proof.
  induction s as [ | c s IH]; simpl; [reflexivity | ].
  rewrite andb_true_iff. intros [Hc Hs].
  destruct (int_char_plain c Hc) as (_ & _ & -> & _). auto.
Qed.

(** *** Floats *)

Lemma is_nan_Prim2SF (f : float) :
  is_nan f = true <-> Prim2SF f = S754_nan.
Proof.
  unfold is_nan. rewrite FloatAxioms.eqb_spec. split.
  - intros H. destruct (Prim2SF f) as [s | s | | s m e] eqn:E;
      [ | | reflexivity | ];
      rewrite SFeqb_refl in H by discriminate; discriminate H.
  - intros ->. reflexivity.
Qed.

Lemma is_infinity_Prim2SF (f : float) :
  is_infinity f = true ->
  Prim2SF f = S754_infinity (PrimFloat.ltb f 0).
Proof.
  unfold is_infinity.
  rewrite FloatAxioms.eqb_spec, FloatAxioms.abs_spec, FloatAxioms.ltb_spec.
  change (Prim2SF infinity) with (S754_infinity false).
  change (Prim2SF 0) with (S754_zero false).
  destruct (Prim2SF f) as [s | s | | s m e]; try discriminate.
  destruct s; reflexivity.
Qed.

Lemma floatstr_cases (float_repr : float -> string) (f : float) :
  (is_nan f = true /\ floatstr float_repr f = "NaN"%string)
  \/ (is_nan f = false /\ is_infinity f = true
      /\ PrimFloat.ltb f 0 = true
      /\ floatstr float_repr f = "-Infinity"%string)
  \/ (is_nan f = false /\ is_infinity f = true
      /\ PrimFloat.ltb f 0 = false
      /\ floatstr float_repr f = "Infinity"%string)
  \/ (is_nan f = false /\ is_infinity f = false
      /\ floatstr float_repr f = float_repr f).
Proof.
  unfold floatstr.
  destruct (is_nan f); [left; split; reflexivity | right].
  destruct (is_infinity f); [ | right; right; repeat split].
  destruct (PrimFloat.ltb f 0); [left | right; left]; repeat split.
Qed.

Lemma float_token_plain (s : string) :
  float_token s = true ->
  string_forallb (fun c => negb (is_delim c)) s = true
  /\ forall r, shape_of_text (s ++ r) = Some SAtom.
Proof.
  unfold float_token. rewrite andb_true_iff. intros [Hall Hex]. split.
  - apply (string_forallb_impl is_float_char); [ | exact Hall].
    intros c Hc. destruct (float_char_plain c Hc) as [-> _]. reflexivity.
  - intros r. destruct s as [ | c s]; [discriminate Hex | ].
    simpl in Hall. apply andb_true_iff in Hall.
    apply (float_char_plain c (proj1 Hall)).
Qed.

Lemma int_repr_plain (z : Z) :
  string_forallb (fun c => negb (is_delim c)) (int_repr z) = true
  /\ forall r, shape_of_text (int_repr z ++ r) = Some SAtom.
Proof.
  split.
  - apply (string_forallb_impl is_int_char); [ | apply int_repr_chars].
    intros c Hc. destruct (int_char_plain c Hc) as [-> _]. reflexivity.
  - intros r. destruct (int_repr_head z) as (c & s & -> & Hc).
    apply (int_char_plain c Hc).
Qed.

Lemma int_repr_not_token (z : Z) (s : string) :
  int_repr z = s -> float_token s = false.
Proof.
  intros <-. unfold float_token.
  rewrite (int_chars_no_mark _ (int_repr_chars z)). apply andb_false_r.
Qed.

Lemma int_repr_is (z : Z) (s : string) :
  int_repr z = s -> string_forallb is_int_char s = true.
Proof. intros <-. apply int_repr_chars. Qed.

Lemma nan_unique (f g : float) :
  is_nan f = true -> is_nan g = true -> f = g.
Proof.
  rewrite !is_nan_Prim2SF. intros Hf Hg.
  apply FloatAxioms.Prim2SF_inj. congruence.
Qed.

Lemma infinity_unique (f g : float) :
  is_infinity f = true -> is_infinity g = true ->
  PrimFloat.ltb f 0 = PrimFloat.ltb g 0 -> f = g.
Proof.
  intros Hf Hg H. apply FloatAxioms.Prim2SF_inj.
  rewrite (is_infinity_Prim2SF f Hf), (is_infinity_Prim2SF g Hg), H.
  reflexivity.
Qed.

Section Reading.
Variable float_repr : float -> string.
Variables FX FY : list float.
Hypothesis FX_token : forall f, In f FX -> float_token (float_repr f) = true.
Hypothesis FY_token : forall g, In g FY -> float_token (float_repr g) = true.
Hypothesis F_inj :
  forall f g, In f FX -> In g FY -> float_repr f = float_repr g -> f = g.

Lemma float_in (F : list float) (f : float) :
  incl (floats_of (JFloat f)) F ->
  is_nan f = false -> is_infinity f = false -> In f F.
Proof.
  cbn [floats_of]. intros H Hn Hi. rewrite Hn, Hi in H.
  apply H. left. reflexivity.
Qed.

(** The text of a value that is no string, list or object holds no
    delimiter and starts as no string, list or object does. *)
Lemma atom_plain (F : list float) (x : json) :
  (forall f, In f F -> float_token (float_repr f) = true) ->
  incl (floats_of x) F ->
  shape_of_json x = SAtom ->
  string_forallb (fun c => negb (is_delim c)) (json_dumps float_repr x) = true
  /\ forall r, shape_of_text (json_dumps float_repr x ++ r) = Some SAtom.
Proof.
  intros HF Hin Hx.
  destruct x as [ | [ | ] | z | f | s | l | d]; try discriminate Hx;
    try (split; reflexivity).
  - apply int_repr_plain.
  - cbn [json_dumps].
    destruct (floatstr_cases float_repr f)
      as [[Hn ->] | [(Hn & Hi & Hl & ->) | [(Hn & Hi & Hl & ->)
                                           | (Hn & Hi & ->)]]];
      try (split; reflexivity).
    apply float_token_plain, HF, (float_in F f Hin Hn Hi).
Qed.

(** Two such values with the same text have the same content. *)
Lemma atom_same (x y : json) :
  incl (floats_of x) FX -> incl (floats_of y) FY ->
  shape_of_json x = SAtom -> shape_of_json y = SAtom ->
  json_dumps float_repr x = json_dumps float_repr y ->
  same_content x y = true.
Proof.
  intros Hfx Hfy Hx Hy H.
  destruct x as [ | [ | ] | z | f | s | l | d]; try discriminate Hx;
    destruct y as [ | [ | ] | z' | g | s' | l' | d']; try discriminate Hy;
    try reflexivity; try discriminate H;
    cbn [json_dumps] in H;
    try (apply int_repr_is in H; vm_compute in H; discriminate H);
    try (symmetry in H; apply int_repr_is in H; vm_compute in H;
         discriminate H).
  all: try (apply int_repr_inj in H; subst; apply Z.eqb_refl).
  all: try match type of H with
         | context [floatstr float_repr ?f] =>
             destruct (floatstr_cases float_repr f)
               as [[Hn E] | [(Hn & Hi & Hl & E) | [(Hn & Hi & Hl & E)
                                                  | (Hn & Hi & E)]]];
             rewrite E in H; clear E
         end.
  all: try discriminate H.
  all: try (apply int_repr_is in H; vm_compute in H; discriminate H).
  all: try (symmetry in H; apply int_repr_is in H; vm_compute in H;
            discriminate H).
  all: try match type of H with
         | context [floatstr float_repr ?f] =>
             destruct (floatstr_cases float_repr f)
               as [[Hn' E] | [(Hn' & Hi' & Hl' & E) | [(Hn' & Hi' & Hl' & E)
                                                     | (Hn' & Hi' & E)]]];
             rewrite E in H; clear E
         end.
  all: try discriminate H.
  all: cbn [same_content]; try apply FloatAxioms.Leibniz.eqb_spec.
  all: try (apply nan_unique; assumption).
  all: try (apply infinity_unique; congruence).
  all: try (exfalso;
            match goal with
            | Hf : incl (floats_of (JFloat ?f)) FX, Hn : is_nan ?f = false,
              Hi : is_infinity ?f = false |- _ =>
                pose proof (FX_token f (float_in FX f Hf Hn Hi)) as Ht
            end;
            first [ rewrite <- H in Ht | rewrite H in Ht ];
            first [ discriminate Ht
                  | rewrite (int_repr_not_token _ _ eq_refl) in Ht;
                    discriminate Ht ]).
  all: try (exfalso;
            match goal with
            | Hf : incl (floats_of (JFloat ?f)) FY, Hn : is_nan ?f = false,
              Hi : is_infinity ?f = false |- _ =>
                pose proof (FY_token f (float_in FY f Hf Hn Hi)) as Ht
            end;
            first [ rewrite <- H in Ht | rewrite H in Ht ];
            first [ discriminate Ht
                  | rewrite (int_repr_not_token _ _ eq_refl) in Ht;
                    discriminate Ht ]).
  all: try (apply F_inj; [eapply float_in; eassumption
                         | eapply float_in; eassumption | exact H]).
Qed.
End Reading.

(** *** Lists and objects *)

Lemma concat_render (close a : string) (r : list string) (rest : string) :
  (concat ", " (a :: r) ++ close ++ rest)%string
  = (a ++ render_tail close r rest)%string.
Proof.
  revert a. induction r as [ | b r IH]; intros a; [reflexivity | ].
  change (concat ", " (a :: b :: r))
    with (a ++ ", " ++ concat ", " (b :: r))%string.
  rewrite !string_app_assoc. cbn [render_tail]. rewrite <- IH.
  reflexivity.
Qed.

Lemma render_tail_end (close : string) (l : list string) (rest : string) :
  token_end (close ++ rest) = true ->
  token_end (render_tail close l rest) = true.
Proof. destruct l; [auto | reflexivity]. Qed.

(** Two sequences written one element after the other are read back
    element by element. *)
Lemma render_tail_unique {A B : Type} (fa : A -> string) (fb : B -> string)
    (R : A -> B -> Prop) (close : string) :
  (forall r, token_end (close ++ r) = true) ->
  (forall r r', (close ++ r)%string <> (", " ++ r')%string) ->
  forall (l : list A) (m : list B) (s t : string),
    Forall (fun a =>
              forall b r r',
                In b m -> token_end r = true -> token_end r' = true ->
                (fa a ++ r)%string = (fb b ++ r')%string ->
                R a b /\ r = r') l ->
    render_tail close (map fa l) s = render_tail close (map fb m) t ->
    Forall2 R l m /\ s = t.
Proof.
  intros Hend Hclose.
  induction l as [ | a l IH]; intros [ | b m] s t Hall H; cbn [map render_tail] in H.
  - split; [constructor | ]. apply (string_app_inv_head close), H.
  - exfalso. apply (Hclose _ _ H).
  - exfalso. symmetry in H. apply (Hclose _ _ H).
  - inversion Hall as [ | a' l' Ha Hl]; subst.
    apply (string_app_inv_head ", ") in H.
    destruct (Ha b _ _ (or_introl eq_refl)
                (render_tail_end close _ s (Hend s))
                (render_tail_end close _ t (Hend t)) H) as [Hab Htail].
    destruct (IH m s t) as [Hlm Hst]; [ | exact Htail | ].
    + eapply Forall_impl; [ | exact Hl].
      intros a0 Ha0 b0 r r' Hin. apply Ha0. right. exact Hin.
    + split; [constructor; assumption | exact Hst].
Qed.

(** The same for a whole list or object, from its opening bracket. *)
Lemma render_seq_unique {A B : Type} (fa : A -> string) (fb : B -> string)
    (R : A -> B -> Prop) (open close : string) :
  (forall r, token_end (close ++ r) = true) ->
  (forall r r', (close ++ r)%string <> (", " ++ r')%string) ->
  forall (l : list A) (m : list B) (s t : string),
    (forall a r r', In a l -> (fa a ++ r)%string <> (close ++ r')%string) ->
    (forall b r r', In b m -> (fb b ++ r)%string <> (close ++ r')%string) ->
    Forall (fun a =>
              forall b r r',
                In b m -> token_end r = true -> token_end r' = true ->
                (fa a ++ r)%string = (fb b ++ r')%string ->
                R a b /\ r = r') l ->
    ((open ++ concat ", " (map fa l) ++ close) ++ s)%string
    = ((open ++ concat ", " (map fb m) ++ close) ++ t)%string ->
    Forall2 R l m /\ s = t.
Proof.
  intros Hend Hclose l m s t Hfa Hfb Hall H.
  rewrite !string_app_assoc in H. apply string_app_inv_head in H.
  destruct l as [ | a l], m as [ | b m]; cbn [map] in H.
  - split; [constructor | ]. apply (string_app_inv_head close), H.
  - exfalso. rewrite concat_render in H. symmetry in H.
    apply (Hfb b _ _ (or_introl eq_refl) H).
  - exfalso. rewrite concat_render in H.
    apply (Hfa a _ _ (or_introl eq_refl) H).
  - rewrite !concat_render in H.
    apply (render_tail_unique fa fb R close Hend Hclose (a :: l) (b :: m) s t
             Hall).
    cbn [map render_tail]. rewrite H. reflexivity.
Qed.

Lemma Forall2_in_l {A B : Type} (R : A -> B -> Prop) (l : list A)
    (m : list B) (a : A) :
  Forall2 R l m -> In a l -> exists b, In b m /\ R a b.
Proof.
  induction 1 as [ | x y l m Hxy Hlm IH]; simpl; [tauto | ].
  intros [<- | Hin].
  - exists y. auto.
  - destruct (IH Hin) as (b & Hb & Hab). exists b. auto.
Qed.

Lemma incl_floats_list (l : list json) (x : json) (F : list float) :
  incl (floats_of (JList l)) F -> In x l -> incl (floats_of x) F.
Proof.
  intros H Hin f Hf. apply H. cbn [floats_of]. apply in_flat_map.
  exists x. auto.
Qed.

Lemma incl_floats_dict (d : list (string * json)) (k : string) (v : json)
    (F : list float) :
  incl (floats_of (JDict d)) F -> In (k, v) d -> incl (floats_of v) F.
Proof.
  intros H Hin f Hf. apply H. cbn [floats_of]. apply in_flat_map.
  exists (k, v). auto.
Qed.

Lemma wf_JList_in (l : list json) (x : json) :
  wf_json (JList l) = true -> In x l -> wf_json x = true.
Proof.
  intros H Hin. apply wf_JList in H.
  rewrite Forall_forall in H. apply H, Hin.
Qed.

Section Injective.
Variable float_repr : float -> string.
Variables FX FY : list float.
Hypothesis FX_token : forall f, In f FX -> float_token (float_repr f) = true.
Hypothesis FY_token : forall g, In g FY -> float_token (float_repr g) = true.
Hypothesis F_inj :
  forall f g, In f FX -> In g FY -> float_repr f = float_repr g -> f = g.

Lemma shape_dumps (F : list float) (x : json) (r : string) :
  (forall f, In f F -> float_token (float_repr f) = true) ->
  incl (floats_of x) F ->
  shape_of_text (json_dumps float_repr x ++ r) = Some (shape_of_json x).
Proof.
  intros HF Hin.
  destruct x as [ | b | z | f | s | l | d];
    try (apply (atom_plain float_repr F _ HF Hin); reflexivity);
    reflexivity.
Qed.

Lemma member_of_dict (d : list (string * json)) (a : string * string) :
  In a (sort_members
          (map (fun kv => (fst kv, json_dumps float_repr (snd kv))) d)) ->
  exists v, In (fst a, v) d /\ snd a = json_dumps float_repr v.
Proof.
  intros H.
  apply (Permutation_in _ (sort_members_perm _)) in H.
  apply in_map_iff in H. destruct H as ([k v] & <- & Hin).
  exists v. split; [exact Hin | reflexivity].
Qed.

(** A document is read back from its text, whatever follows it: two
    documents whose texts agree up to what follows have the same content
    and are followed by the same text. *)
Lemma json_dumps_unique (x : json) :
  forall y s t,
    wf_json x = true -> wf_json y = true ->
    incl (floats_of x) FX -> incl (floats_of y) FY ->
    token_end s = true -> token_end t = true ->
    (json_dumps float_repr x ++ s)%string
    = (json_dumps float_repr y ++ t)%string ->
    same_content x y = true /\ s = t.
Proof.
  induction x as [ | bx | zx | fx | sx | l IH | d IH] using json_ind;
    intros y s t Hwx Hwy Hfx Hfy Hs Ht H;
    assert (Hsh : Some (shape_of_json y) = Some (shape_of_json _))
      by (rewrite <- (shape_dumps FY y t FY_token Hfy), <- H;
          apply (shape_dumps FX _ s FX_token Hfx)).
  1-4: assert (Hy : shape_of_json y = SAtom) by (simpl in Hsh; congruence);
       match type of H with
       | (json_dumps float_repr ?x ++ _)%string = _ =>
           destruct (atom_plain float_repr FX x FX_token Hfx eq_refl)
             as [Hpx _];
           destruct (atom_plain float_repr FY y FY_token Hfy Hy) as [Hpy _];
           destruct (token_unique _ _ s t Hpx Hpy Hs Ht H) as [Htxt Hst];
           split; [ | exact Hst];
           apply (atom_same float_repr FX FY FX_token FY_token F_inj
                    x y Hfx Hfy eq_refl Hy Htxt)
       end.
  - (* strings *)
    destruct y as [ | ? | ? | ? | sy | ? | ?]; try discriminate Hsh.
    cbn [json_dumps] in H.
    destruct (encode_basestring_unique sx sy s t H) as [-> ->].
    split; [apply String.eqb_refl | reflexivity].
  - (* lists *)
    destruct y as [ | ? | ? | ? | ? | m | ?]; try discriminate Hsh.
    cbn [json_dumps] in H.
    destruct (render_seq_unique (json_dumps float_repr) (json_dumps float_repr)
                (fun a b => same_content a b = true) "[" "]"
                (fun r => eq_refl) ltac:(discriminate) l m s t) as [Hlm Hst];
      [ | | | exact H | ].
    + intros a r r' Hin E.
      pose proof (shape_dumps FX a r FX_token
                    (incl_floats_list l a FX Hfx Hin)) as Ha.
      rewrite E in Ha. discriminate Ha.
    + intros b r r' Hin E.
      pose proof (shape_dumps FY b r FY_token
                    (incl_floats_list m b FY Hfy Hin)) as Hb.
      rewrite E in Hb. discriminate Hb.
    + rewrite Forall_forall in IH. apply Forall_forall.
      intros a Ha b r r' Hb Hr Hr'.
      apply (IH a Ha b r r');
        eauto using wf_JList_in, incl_floats_list.
    + split; [ | exact Hst]. rewrite same_content_JList.
      clear - Hlm. induction Hlm as [ | a b l m Hab _ IHl]; simpl;
        [reflexivity | rewrite Hab, IHl; reflexivity].
  - (* objects *)
    destruct y as [ | ? | ? | ? | ? | ? | e]; try discriminate Hsh.
    cbn [json_dumps] in H.
    destruct (wf_JDict d Hwx) as [Hnd Hwd].
    destruct (wf_JDict e Hwy) as [Hne Hwe].
    set (Ld := sort_members
                 (map (fun kv => (fst kv, json_dumps float_repr (snd kv))) d))
      in *.
    set (Le := sort_members
                 (map (fun kv => (fst kv, json_dumps float_repr (snd kv))) e))
      in *.
    destruct (render_seq_unique render_member render_member
                (fun a b =>
                   fst a = fst b
                   /\ exists v w,
                        In (fst a, v) d /\ In (fst b, w) e
                        /\ same_content v w = true)
                "{" "}" (fun r => eq_refl) ltac:(discriminate) Ld Le s t)
      as [Hlm Hst]; [ | | | exact H | ].
    + intros a r r' _. unfold render_member, encode_basestring.
      cbn. discriminate.
    + intros b r r' _. unfold render_member, encode_basestring.
      cbn. discriminate.
    + rewrite Forall_forall in IH. apply Forall_forall.
      intros a Ha b r r' Hb Hr Hr' E.
      destruct (member_of_dict d a Ha) as (v & Hv & Ea).
      destruct (member_of_dict e b Hb) as (w & Hw & Eb).
      unfold render_member in E. rewrite !string_app_assoc in E.
      destruct (encode_basestring_unique _ _ _ _ E) as [Ek E'].
      apply (string_app_inv_head ": ") in E'. rewrite Ea, Eb in E'.
      destruct (IH (fst a, v) Hv w r r'
                  (Hwd _ _ Hv) (Hwe _ _ Hw)
                  (incl_floats_dict d _ v FX Hfx Hv)
                  (incl_floats_dict e _ w FY Hfy Hw) Hr Hr' E')
        as [Hvw Hrr].
      split; [split; [exact Ek | exists v, w; auto] | exact Hrr].
    + split; [ | exact Hst].
      rewrite same_content_JDict. apply andb_true_iff. split.
      * apply Nat.eqb_eq.
        pose proof (Forall2_length Hlm) as Hlen. unfold Ld, Le in Hlen.
        rewrite !(Permutation_length (sort_members_perm _)), !length_map
          in Hlen.
        exact Hlen.
      * apply forallb_forall. intros [k v] Hkv. cbn [fst snd].
        assert (Hin : In (k, json_dumps float_repr v) Ld).
        { apply (Permutation_in _ (Permutation_sym (sort_members_perm _))).
          apply in_map_iff. exists (k, v). split; [reflexivity | exact Hkv]. }
        destruct (Forall2_in_l _ _ _ _ Hlm Hin)
          as (b & _ & Ek & v0 & w & Hv0 & Hw & Hsame).
        cbn [fst] in *.
        assert (v0 = v).
        { pose proof (In_lookup k v0 d Hnd Hv0) as E1.
          pose proof (In_lookup k v d Hnd Hkv) as E2. congruence. }
        subst v0. rewrite <- Ek in Hw.
        rewrite (In_lookup k w e Hne Hw). exact Hsame.
Qed.
End Injective.

(** X16: the serialization [json.dumps(..., ensure_ascii=False,
    sort_keys=True)] tells documents apart exactly by their content: two
    decoded documents are written as the same text if and only if they
    have the same content, the order of the keys of their objects aside.
    It takes of [float.__repr__] that, on the finite floats of the two
    documents, it writes digits, signs, [.] and [e] with at least one
    [.] or [e], and writes different floats differently. *)
Theorem json_dumps_injective (float_repr : float -> string) (x y : json) :
  wf_json x = true -> wf_json y = true ->
  (forall f, In f (floats_of x ++ floats_of y) ->
             float_token (float_repr f) = true) ->
  (forall f g, In f (floats_of x) -> In g (floats_of y) ->
               float_repr f = float_repr g -> f = g) ->
  (json_dumps float_repr x = json_dumps float_repr y
   <-> same_content x y = true).
Proof.
  intros Hx Hy Htok Hinj. split.
  - intros H.
    apply (json_dumps_unique float_repr (floats_of x) (floats_of y)
             (fun f Hf => Htok f (in_or_app _ _ f (or_introl Hf)))
             (fun f Hf => Htok f (in_or_app _ _ f (or_intror Hf)))
             Hinj x y "" "" Hx Hy (incl_refl _) (incl_refl _)
             eq_refl eq_refl).
    rewrite !string_app_nil_r. exact H.
  - intros H. apply json_dumps_same_content; assumption.
Qed.

Lemma json_dumps_injective_witness :
  json_dumps PyRef.float_repr (JList mixed_args)
  = json_dumps PyRef.float_repr (JList mixed_args_reordered)
  <-> same_content (JList mixed_args) (JList mixed_args_reordered) = true.
Proof.
  apply (json_dumps_injective PyRef.float_repr
           (JList mixed_args) (JList mixed_args_reordered)
           eq_refl eq_refl).
  - intros f [<- | [<- | []]]; vm_compute; reflexivity.
  - intros f g [<- | []] [<- | []] _. reflexivity.
Defined.

(** ** What the Dedup Filter skips *)

Lemma In_deque_append {A : Type} (n : nat) (d : list A) (x y : A) :
  In y (deque_append n d x) -> In y d \/ y = x.
Proof.
  unfold deque_append. intros H.
  assert (H' : In y (d ++ [x])).
  { destruct (n <? List.length (d ++ [x]))%nat; [ | exact H].
    destruct (d ++ [x]); [destruct H | right; exact H]. }
  apply in_app_or in H'. destruct H' as [H' | [<- | []]]; auto.
Qed.

Section Skipped.
Variable float_repr : float -> string.
Variable str_to_float : string -> option float.
Variable str_to_int : string -> option Z.
Variable echo : string -> json -> list json -> option exn.
Variable write_json : string -> dumped -> written.

(** The deque holds signatures of events that were handled only. *)
Lemma run_events_seen_sub (evs : list (string * json * list json)) :
  forall st vs st' e sig,
    run_events float_repr str_to_float str_to_int
        echo write_json st evs = (vs, st', e) ->
    In sig (seen st') ->
    In sig (seen st)
    \/ exists direction name evt_args,
         In (direction, name, evt_args) evs
         /\ sig = make_signature float_repr direction name evt_args.
Proof.
  induction evs as [ | [[d n] a] rest IH]; intros st vs st' e sig; simpl.
  - intros [= _ <- _]. auto.
  - pose proof (handle_event_seen float_repr str_to_float str_to_int
      echo write_json
                  st d n a) as Hs.
    assert (Hstep : forall s1,
               In s1 (seen (state_of
                              (handle_event float_repr str_to_float str_to_int
                                  echo write_json
                                 st d n a))) ->
               In s1 (seen st) \/ s1 = make_signature float_repr d n a).
    { intros s1. rewrite Hs.
      destruct (contains (seen st) _); [auto | apply In_deque_append]. }
    destruct (handle_event float_repr str_to_float str_to_int
        echo write_json st d n a)
      as [v st1 | e1 st1]; simpl in Hstep.
    + destruct (run_events float_repr str_to_float str_to_int
        echo write_json st1 rest)
        as [[vs1 st2] e2] eqn:Er.
      intros [= _ <- _] Hin.
      destruct (IH st1 vs1 st2 e2 sig Er Hin)
        as [H1 | (d' & n' & a' & Hin' & ->)].
      * destruct (Hstep sig H1) as [H0 | ->]; [auto | ].
        right. exists d, n, a. auto.
      * right. exists d', n', a'. auto.
    + intros [= _ <- _] Hin.
      destruct (Hstep sig Hin) as [H0 | ->]; [auto | ].
      right. exists d, n, a. auto.
Qed.

(** X17: the filter skips an event only if it has handled the same event
    before: when the loop, started with an empty deque, has gone through
    the events [before] and then skips an event as a duplicate, one of
    the events [before] has the same direction, an equal name and
    arguments of the same content.  The assumptions on [float.__repr__]
    are those of the serialization, on the floats of the events. *)
Theorem skipped_only_if_seen (before : list (string * json * list json))
    (direction : string) (name : json) (evt_args : list json)
    (st0 st1 st2 : state) (vs : list verdict) :
  seen st0 = [] ->
  Forall (fun ev => wf_json (JList (snd ev)) = true)
    (before ++ [(direction, name, evt_args)]) ->
  (forall f, In f (event_floats (before ++ [(direction, name, evt_args)])) ->
             float_token (float_repr f) = true) ->
  (forall f g,
      In f (event_floats (before ++ [(direction, name, evt_args)])) ->
      In g (event_floats (before ++ [(direction, name, evt_args)])) ->
      float_repr f = float_repr g -> f = g) ->
  run_events float_repr str_to_float str_to_int
      echo write_json st0 before = (vs, st1, None) ->
  handle_event float_repr str_to_float str_to_int
      echo write_json st1 direction name evt_args
  = Next Duplicate st2 ->
  exists name' evt_args',
    In (direction, name', evt_args') before
    /\ py_eq name' name = true
    /\ same_content (JList evt_args') (JList evt_args) = true.
Proof.
  intros Hempty Hwf Htok Hinj Hrun Hdup.
  assert (Hc : contains (seen st1)
                 (make_signature float_repr direction name evt_args) = true).
  { unfold handle_event in Hdup.
    destruct (contains (seen st1) _); [reflexivity | ].
    destruct (echo direction name evt_args); [discriminate Hdup | ].
    destruct (try_extract_inventory evt_args); [discriminate Hdup | ].
    destruct (merge_inventory _ _ _ _); [ | discriminate Hdup].
    destruct (raised _); discriminate Hdup. }
  unfold contains in Hc. apply existsb_exists in Hc.
  destruct Hc as (sig & Hin & Heq).
  destruct (run_events_seen_sub before st0 vs st1 None sig Hrun Hin)
    as [H0 | (d' & n' & a' & Hin' & ->)];
    [rewrite Hempty in H0; destruct H0 | ].
  unfold make_signature, sig_eq in Heq.
  apply andb_true_iff in Heq. destruct Heq as [Heq Hs].
  apply andb_true_iff in Heq. destruct Heq as [Hd Hn].
  apply String.eqb_eq in Hd. apply String.eqb_eq in Hs. subst d'.
  exists n', a'. split; [exact Hin' | split; [exact Hn | ]].
  rewrite Forall_forall in Hwf.
  assert (Hfl : forall ev f,
             In ev (before ++ [(direction, name, evt_args)]) ->
             In f (floats_of (JList (snd ev))) ->
             In f (event_floats (before ++ [(direction, name, evt_args)]))).
  { intros ev f Hev Hf. unfold event_floats. apply in_flat_map.
    exists ev. auto. }
  assert (H1 : In (direction, n', a')
                 (before ++ [(direction, name, evt_args)]))
    by (apply in_or_app; left; exact Hin').
  assert (H2 : In (direction, name, evt_args)
                 (before ++ [(direction, name, evt_args)]))
    by (apply in_or_app; right; left; reflexivity).
  apply (json_dumps_unique float_repr
           (floats_of (JList a')) (floats_of (JList evt_args))
           (fun f Hf => Htok f (Hfl _ f H1 Hf))
           (fun f Hf => Htok f (Hfl _ f H2 Hf))
           (fun f g Hf Hg => Hinj f g (Hfl _ f H1 Hf) (Hfl _ g H2 Hg))
           (JList a') (JList evt_args) "" ""
           (Hwf _ H1) (Hwf _ H2) (incl_refl _) (incl_refl _)
           eq_refl eq_refl).
  rewrite !string_app_nil_r. exact Hs.
Qed.
End Skipped.

(** An event, another one, and the first again with the keys of its
    object in the other order. *)
Lemma skipped_only_if_seen_witness :
  exists name' evt_args',
    In ("in"%string, name', evt_args')
      [("in"%string, JStr "stock", mixed_args); tick]
    /\ py_eq name' (JStr "stock") = true
    /\ same_content (JList evt_args') (JList mixed_args_reordered) = true.
Proof.
  apply (skipped_only_if_seen PyRef.float_repr PyRef.str_to_float
           PyRef.str_to_int PyRef.echo PyRef.write_json
           [("in"%string, JStr "stock", mixed_args); tick]
           "in" (JStr "stock") mixed_args_reordered
           empty_state
           (snd (fst (run_events PyRef.float_repr PyRef.str_to_float
                        PyRef.str_to_int PyRef.echo PyRef.write_json empty_state
                        [("in"%string, JStr "stock", mixed_args); tick])))
           (snd (fst (run_events PyRef.float_repr PyRef.str_to_float
                        PyRef.str_to_int PyRef.echo PyRef.write_json empty_state
                        [("in"%string, JStr "stock", mixed_args); tick])))
           [Processed; Processed]).
  - reflexivity.
  - repeat constructor.
  - intros f [<- | [<- | []]]; vm_compute; reflexivity.
  - intros f g [<- | [<- | []]] [<- | [<- | []]] _; reflexivity.
  - vm_compute. reflexivity.
  - vm_compute. reflexivity.
Defined.
